(** * NorMITs-Demand: the segmented demand vector (DVector)

    A shallow embedding of [normits_demand/core/data_structures.py]:
    the [TimeFormat] enumeration with its conversion-factor tables and the
    [DVector] class with its constructor and its operators (multiply,
    aggregate, multiply-and-aggregate, zone translation, segmentation
    expansion, balancing, time-format conversion, subsets, splits, the
    removal of the zoning and the conversion of the chunks of a table),
    and of [chunk_df] and [str_join_cols] of
    [normits_demand/utils/pandas_utils.py].

    Numbers.  Python and numpy floats are idealised as exact rationals
    ([Qc]); "equal within floating tolerance" is therefore stated either as
    equality or through [isclose], the exact reading of [math.isclose].
    Where the rounding of the doubles decides a statement, the code is
    embedded once more over binary64 (module [Binary64]).

    Exceptions.  Every method that can raise returns in the monad [res];
    the constructor of [exn] records which Python exception was raised. *)

From Stdlib Require Import QArith Qcanon ZArith Lia.
From Stdlib Require Import Floats.PrimFloat.
From stdpp Require Import base numbers strings option list.

Local Open Scope Z_scope.

(** ** Exceptions *)

Inductive exn : Set :=
| ValueError
| KeyError
| TypeError
| AttributeError
| ZeroDivisionError
| ZoningError
| SegmentationError
| NormitsDemandError
| NonFinite.
(* [NonFinite] is not a Python exception.  numpy answers a division by
   zero with inf or nan and a RuntimeWarning, and the code goes on with
   what it got.  The values of the model are rationals and cannot hold
   inf or nan: the model stops with this outcome where the code stores
   such an entry, and in [np_div]. *)

Inductive res (A : Type) : Type :=
| Ok (a : A)
| Raise (e : exn).
Arguments Ok {A} a.
Arguments Raise {A} e.

#[global] Instance res_ret : MRet res := fun A a => Ok a.
#[global] Instance res_bind : MBind res := fun A B f m =>
  match m with
  | Ok a => f a
  | Raise e => Raise e
  end.
#[global] Instance res_fmap : FMap res := fun A B f m =>
  match m with
  | Ok a => Ok (f a)
  | Raise e => Raise e
  end.

(* [f(x) for x in l] *)
Fixpoint mapR {A B} (f : A -> res B) (l : list A) : res (list B) :=
  match l with
  | [] => Ok []
  | x :: l' => y ← f x; k ← mapR f l'; Ok (y :: k)
  end.

Definition is_Ok {A} (m : res A) : Prop := exists a, m = Ok a.
Definition raises {A} (m : res A) : Prop := exists e, m = Raise e.

#[global] Instance exn_eq_dec : EqDecision exn.
Proof. solve_decision. Defined.

#[global] Instance res_eq_dec {A} `{EqDecision A} : EqDecision (res A).
Proof. solve_decision. Defined.

(** ** Python dictionaries

    A [dict] keeps its keys in insertion order (which fixes the order of
    every loop over it and of the chunks cut from its keys); assigning to
    an existing key replaces the value in place. *)

Abbreviation dict K V := (list (K * V)).

Section Dict.
Context {K V : Type} `{EqDecision K}.

Fixpoint dict_get (k : K) (d : dict K V) : option V :=
  match d with
  | [] => None
  | (k', v) :: d' => if decide (k = k') then Some v else dict_get k d'
  end.

(* d[k] *)
Definition dict_getitem (k : K) (d : dict K V) : res V :=
  match dict_get k d with
  | Some v => Ok v
  | None => Raise KeyError
  end.

(* d[k] = v *)
Fixpoint dict_set (k : K) (v : V) (d : dict K V) : dict K V :=
  match d with
  | [] => [(k, v)]
  | (k', v') :: d' =>
      if decide (k = k') then (k', v) :: d' else (k', v') :: dict_set k v d'
  end.

Definition dict_keys (d : dict K V) : list K := d.*1.
Definition dict_values (d : dict K V) : list V := d.*2.

(* dict.fromkeys(ks, v) *)
Definition dict_fromkeys (ks : list K) (v : V) : dict K V :=
  foldl (fun d k => dict_set k v d) [] ks.

(* d.update(d2) *)
Definition dict_update (d d2 : dict K V) : dict K V :=
  foldl (fun acc kv => dict_set kv.1 kv.2 acc) d d2.
End Dict.

(** ** Values held by a DVector

    One value per segment: a Python number, a numpy scalar (or 0-d array),
    or a one-dimensional numpy array.  [PyNone] is the placeholder that
    [dict.fromkeys] leaves behind. *)

Inductive value : Type :=
| PyNone
| PyNum (x : Qc)
| NpNum (x : Qc)
| NpArr (xs : list Qc).

#[global] Instance value_eq_dec : EqDecision value.
Proof. solve_decision. Defined.

Definition Qsum (xs : list Qc) : Qc := foldr Qcplus (Q2Qc 0) xs.

(* numpy broadcasting of two 1-d arrays *)
Definition broadcast2 (f : Qc -> Qc -> Qc) (xs ys : list Qc) : res (list Qc) :=
  if decide (length xs = length ys) then Ok (zip_with f xs ys)
  else match xs, ys with
       | [x], _ => Ok (map (f x) ys)
       | _, [y] => Ok (map (fun x => f x y) xs)
       | _, _ => Raise ValueError
       end.

(* a * b *)
Definition value_mul (a b : value) : res value :=
  match a, b with
  | PyNone, _ | _, PyNone => Raise TypeError
  | PyNum x, PyNum y => Ok (PyNum (x * y)%Qc)
  | PyNum x, NpNum y | NpNum x, PyNum y | NpNum x, NpNum y => Ok (NpNum (x * y)%Qc)
  | PyNum x, NpArr ys | NpNum x, NpArr ys => Ok (NpArr (map (Qcmult x) ys))
  | NpArr xs, PyNum y | NpArr xs, NpNum y => Ok (NpArr (map (fun x => (x * y)%Qc) xs))
  | NpArr xs, NpArr ys => NpArr <$> broadcast2 Qcmult xs ys
  end.

(* a.flatten() *)
Definition flatten (a : value) : res (list Qc) :=
  match a with
  | PyNone | PyNum _ => Raise AttributeError
  | NpNum x => Ok [x]
  | NpArr xs => Ok xs
  end.

(* a.copy() : a method of numpy objects only *)
Definition copy_method (a : value) : res value :=
  match a with
  | PyNone | PyNum _ => Raise AttributeError
  | _ => Ok a
  end.

(* copy.copy(a) *)
Definition copy_copy (a : value) : value := a.

(* columnwise sums of rows that all have length [n] *)
Fixpoint col_sums (n : nat) (rows : list (list Qc)) : list Qc :=
  match rows with
  | [] => replicate n (Q2Qc 0)
  | r :: rows' => zip_with Qcplus r (col_sums n rows')
  end.

Definition same_length (rows : list (list Qc)) : bool :=
  match rows with
  | [] => true
  | r :: rows' => forallb (fun r' => bool_decide (length r' = length r)) rows'
  end.

(* np.sum(rows, axis=0) for a Python list of 1-d arrays; a ragged list is
   refused (numpy cannot build the two-dimensional array) *)
Definition np_sum_axis0 (rows : list (list Qc)) : res value :=
  match rows with
  | [] => Ok (NpNum (Q2Qc 0))
  | r :: _ =>
      if same_length rows then Ok (NpArr (col_sums (length r) rows))
      else Raise ValueError
  end.

(* np.sum(rows) for a Python list of 1-d arrays *)
Definition np_sum_all (rows : list (list Qc)) : res Qc :=
  if same_length rows then Ok (Qsum (concat rows)) else Raise ValueError.

(* np.sum(a) for a single value, as the operand of a division or a
   comparison: the sum of a number or of an array.  (np.sum(None) is
   None, see [np_sum_value]; the arithmetic on it is what raises
   TypeError.) *)
Definition np_sum (a : value) : res Qc :=
  match a with
  | PyNone => Raise TypeError
  | PyNum x | NpNum x => Ok x
  | NpArr xs => Ok (Qsum xs)
  end.

(* np.sum(a) for a single value, as a value: a numpy scalar for a number
   or an array; np.sum(None) is None and raises nothing *)
Definition np_sum_value (a : value) : value :=
  match a with
  | PyNone => PyNone
  | PyNum x | NpNum x => NpNum x
  | NpArr xs => NpNum (Qsum xs)
  end.

(* np.sum(lst) for a Python list of values of one common shape *)
Definition np_sum_values (vs : list value) : res Qc :=
  rows ← mapR (fun v => match v with
                        | PyNone => Raise TypeError
                        | PyNum x | NpNum x => Ok [x]
                        | NpArr xs => Ok xs
                        end) vs;
  np_sum_all rows.

(* x / y on numpy scalars in the per-segment branch of
   balance_at_segments, where y is a sum of positive entries and zero
   only for an array of length zero: the model stops there *)
Definition np_div (x y : Qc) : res Qc :=
  if decide (y = Q2Qc 0) then Raise NonFinite else Ok (x / y)%Qc.

(* x / y on Python numbers *)
Definition py_div (x y : Qc) : res Qc :=
  if decide (y = Q2Qc 0) then Raise ZeroDivisionError else Ok (x / y)%Qc.

(* np.where(a <= 0, infill, a) *)
Definition where_nonpos (infill : Qc) (a : value) : res value :=
  let f := fun x => if decide (x <= Q2Qc 0)%Qc then infill else x in
  match a with
  | PyNone => Raise TypeError
  | PyNum x | NpNum x => Ok (NpNum (f x))
  | NpArr xs => Ok (NpArr (map f xs))
  end.

(* math.isclose(a, b, rel_tol=rel_tol, abs_tol=abs_tol) *)
Definition Qcabs (x : Qc) : Qc := if decide (x < Q2Qc 0)%Qc then (- x)%Qc else x.
Definition Qcmax (x y : Qc) : Qc := if decide (x <= y)%Qc then y else x.
Definition isclose (a b rel_tol abs_tol : Qc) : bool :=
  bool_decide (Qcabs (a - b) <= Qcmax (rel_tol * Qcmax (Qcabs a) (Qcabs b)) abs_tol)%Qc.

(** ** Strings: the two methods [_validate_time_format] uses

    A string of the model is a sequence of bytes and stands for the Python
    string with these ASCII characters.  [str_strip] and [str_lower] are
    [str.strip] and [str.lower] on such strings, which is all the names
    and values of the time formats need; Python's methods also know the
    whitespace and the capital letters beyond ASCII (U+00A0, U+212A, ...),
    so what is stated about an arbitrary string is stated under
    [is_ascii]. *)

(* s.isascii() *)
Definition is_ascii (s : string) : bool :=
  forallb (fun c => bool_decide (Ascii.nat_of_ascii c < 128)%nat)
          (String.list_ascii_of_string s).

Definition ascii_lower (c : Ascii.ascii) : Ascii.ascii :=
  let n := Ascii.nat_of_ascii c in
  if bool_decide (65 <= n <= 90)%nat then Ascii.ascii_of_nat (n + 32) else c.

(* s.lower() *)
Fixpoint str_lower (s : string) : string :=
  match s with
  | EmptyString => EmptyString
  | String c s' => String (ascii_lower c) (str_lower s')
  end.

(* the ASCII characters that str.isspace accepts *)
Definition is_space (c : Ascii.ascii) : bool :=
  let n := Ascii.nat_of_ascii c in
  bool_decide (n = 32 \/ 9 <= n <= 13 \/ 28 <= n <= 31)%nat.

Fixpoint lstrip (s : string) : string :=
  match s with
  | EmptyString => EmptyString
  | String c s' => if is_space c then lstrip s' else s
  end.

Fixpoint rstrip (s : string) : string :=
  match s with
  | EmptyString => EmptyString
  | String c s' =>
      match rstrip s' with
      | EmptyString => if is_space c then EmptyString else String c EmptyString
      | r => String c r
      end
  end.

(* s.strip() *)
Definition str_strip (s : string) : string := rstrip (lstrip s).

(** ** TimeFormat *)

Inductive TimeFormat : Set := AVG_WEEK | AVG_DAY | AVG_HOUR.

#[global] Instance TimeFormat_eq_dec : EqDecision TimeFormat.
Proof. solve_decision. Defined.

Module TimeFormat_.

(* the members in definition order: TimeFormat.__members__ *)
Definition members : list TimeFormat := [AVG_WEEK; AVG_DAY; AVG_HOUR].

Definition name (t : TimeFormat) : string :=
  match t with
  | AVG_WEEK => "AVG_WEEK"
  | AVG_DAY => "AVG_DAY"
  | AVG_HOUR => "AVG_HOUR"
  end.

Definition value (t : TimeFormat) : string :=
  match t with
  | AVG_WEEK => "avg_week"
  | AVG_DAY => "avg_day"
  | AVG_HOUR => "avg_hour"
  end.

Definition get_time_periods : list Z := [1; 2; 3; 4; 5; 6].

Definition conversion_order : list TimeFormat := [AVG_WEEK; AVG_DAY; AVG_HOUR].

Definition frac (a : Z) (b : positive) : Qc := Q2Qc (a # b).

Definition _week_to_day_factors : dict Z Qc :=
  [(1, frac 2 10); (2, frac 2 10); (3, frac 2 10); (4, frac 2 10);
   (5, frac 1 1); (6, frac 1 1)].

Definition _day_to_hour_factors : res (dict Z Qc) :=
  f1 ← py_div (frac 1 1) (frac 3 1);
  f2 ← py_div (frac 1 1) (frac 6 1);
  f3 ← py_div (frac 1 1) (frac 3 1);
  f4 ← py_div (frac 1 1) (frac 12 1);
  f5 ← py_div (frac 1 1) (frac 24 1);
  f6 ← py_div (frac 1 1) (frac 24 1);
  Ok [(1, f1); (2, f2); (3, f3); (4, f4); (5, f5); (6, f6)].

(* {k: 1 / v for k, v in d.items()} *)
Definition inverse_factors (d : dict Z Qc) : res (dict Z Qc) :=
  mapR (fun kv => v ← py_div (frac 1 1) kv.2; Ok (kv.1, v)) d.

Definition _hour_to_day_factors : res (dict Z Qc) :=
  d ← _day_to_hour_factors; inverse_factors d.

Definition _day_to_week_factors : res (dict Z Qc) :=
  inverse_factors _week_to_day_factors.

(** Modelled from the spec: [du.combine_dict_list] (utils/general.py is
    not among the sources).  The dictionaries are combined key by key
    with [operation], "composed via chained multiplication": the first
    dictionary starts the accumulator, and every later one either
    combines its value into the key it shares or adds its key. *)
Definition combine_dict_list (dict_list : list (dict Z Qc))
    (operation : Qc -> Qc -> Qc) : res (dict Z Qc) :=
  match dict_list with
  | [] => Raise TypeError
  | d0 :: ds =>
      Ok (foldl (fun acc d =>
                   foldl (fun acc kv =>
                            match dict_get kv.1 acc with
                            | Some a => dict_set kv.1 (operation a kv.2) acc
                            | None => dict_set kv.1 kv.2 acc
                            end) acc d) d0 ds)
  end.

Definition _week_to_hour_factors : res (dict Z Qc) :=
  d2h ← _day_to_hour_factors;
  combine_dict_list [_week_to_day_factors; d2h] Qcmult.

Definition _hour_to_week_factors : res (dict Z Qc) :=
  h2d ← _hour_to_day_factors;
  d2w ← _day_to_week_factors;
  combine_dict_list [h2d; d2w] Qcmult.

Definition get_conversion_factors (self to_time_format : TimeFormat)
    : res (dict Z Qc) :=
  if decide (to_time_format = self) then Raise ValueError
  else match self, to_time_format with
       | AVG_WEEK, AVG_DAY => Ok _week_to_day_factors
       | AVG_WEEK, AVG_HOUR => _week_to_hour_factors
       | AVG_DAY, AVG_WEEK => _day_to_week_factors
       | AVG_DAY, AVG_HOUR => _day_to_hour_factors
       | AVG_HOUR, AVG_WEEK => _hour_to_week_factors
       | AVG_HOUR, AVG_DAY => _hour_to_day_factors
       | _, _ => Raise NormitsDemandError
       end.

End TimeFormat_.

(** ** The collaborators of a DVector

    [core/zoning.py] and [core/segments.py] are not among the sources; a
    DVector only reads attributes of its zoning system and segmentation
    and asks them for mappings.  The attributes are record fields, the
    binary queries are the members of the class [Oracles]. *)

Record ZoningSystem : Type := {
  zs_name : string;
  unique_zones : list Z;
}.

(* zoning_system.n_zones *)
Definition n_zones (z : ZoningSystem) : nat := length (unique_zones z).

#[global] Instance ZoningSystem_eq_dec : EqDecision ZoningSystem.
Proof. solve_decision. Defined.

Record SegmentationLevel : Type := {
  seg_name : string;
  naming_order : list string;
  segment_names : list string;
  has_time_period_segments : bool;
  get_time_period_groups : dict Z (list string);
  get_grouped_weekday_segments : list (list string);
  get_grouped_weekend_segments : list (list string);
}.

#[global] Instance SegmentationLevel_eq_dec : EqDecision SegmentationLevel.
Proof. solve_decision. Defined.

(** Modelled from the spec: [SegmentationLevel.is_correct_naming]
    (core/segments.py is not among the sources).  "Verify every key is a
    valid segment for the segmentation; reject if any key is not
    recognized." *)
Definition is_correct_naming (seg : SegmentationLevel) (lst : list string) : bool :=
  forallb (fun s => bool_decide (s ∈ segment_names seg)) lst.

(* a translation matrix: a two-dimensional array of shape
   (length rows, ncols) *)
Record matrix : Type := {
  rows : list (list Qc);
  ncols : nat;
}.

Definition matrix_wf (t : matrix) : Prop :=
  Forall (fun r => length r = ncols t) (rows t).

Class Oracles : Type := {
  (* self.segmentation * other.segmentation *)
  seg_multiply : SegmentationLevel -> SegmentationLevel ->
                 res (dict string (string * string) * SegmentationLevel);
  (* self.segmentation.aggregate(out_segmentation) *)
  seg_aggregate : SegmentationLevel -> SegmentationLevel ->
                  res (dict string (list string));
  (* self.segmentation.split_tfntt_segmentation(out_segmentation) *)
  seg_split_tfntt_segmentation : SegmentationLevel -> SegmentationLevel ->
                                 res (dict string (list string));
  (* self.segmentation.expand(other.segmentation) *)
  seg_expand : SegmentationLevel -> SegmentationLevel ->
               res (dict string (string * string) * SegmentationLevel);
  (* self.zoning_system.translate(new_zoning, weighting) *)
  zoning_translate : ZoningSystem -> ZoningSystem -> option string -> res matrix;
  (* os.cpu_count() *)
  cpu_count : Z;
}.

(** ** Loops that may raise *)

Fixpoint foldM {A B} (f : B -> A -> res B) (b : B) (l : list A) : res B :=
  match l with
  | [] => Ok b
  | x :: l' => b' ← f b x; foldM f b' l'
  end.

(* for x in l: d[key x] = g x *)
Definition for_set {A V} (key : A -> string) (g : A -> res V)
    (d : dict string V) (l : list A) : res (dict string V) :=
  foldM (fun d x => v ← g x; Ok (dict_set (key x) v d)) d l.

(* {k: src[k] for k in ks} *)
Definition dict_subset {V} (src : dict string V) (ks : list string)
    : res (dict string V) :=
  for_set id (fun k => dict_getitem k src) [] ks.

(* math.ceil(a / b) *)
Definition ceil_div (a b : Z) : res Z :=
  if decide (b = 0) then Raise ZeroDivisionError else Ok (- ((- a) `div` b)).

(** Modelled from the spec: [du.chunk_list] (utils/general.py is not among
    the sources), after its sibling [pd_utils.chunk_df]: consecutive
    slices [lst[i : i + chunk_size]] for [i] in
    [range(0, len(lst), chunk_size)].  A step of zero is refused by
    [range]; a negative step gives no slice. *)
Fixpoint chunks_of {A} (fuel n : nat) (lst : list A) : list (list A) :=
  match fuel with
  | O => []
  | S fuel' =>
      match lst with
      | [] => []
      | _ => take n lst :: chunks_of fuel' n (drop n lst)
      end
  end.

Definition chunk_list {A} (lst : list A) (chunk_size : Z) : res (list (list A)) :=
  if decide (chunk_size = 0) then Raise ValueError
  else if decide (chunk_size < 0) then Ok []
  else Ok (chunks_of (length lst) (Z.to_nat chunk_size) lst).

(** ** Chunks of a table: [pd_utils.chunk_df]

    A table is the list of its rows.  [chunk_df] is a generator; the model
    returns the list of what it yields, and the [ValueError] that [range]
    raises for a step of zero (at the first [next]) is the outcome of the
    call. *)

(* range(0, stop, step) *)
Definition py_range (stop step : Z) : res (list Z) :=
  if decide (step = 0) then Raise ValueError
  else
    let len :=
      if decide (0 < step)
      then (if decide (0 < stop) then (stop - 1) `div` step + 1 else 0)
      else (if decide (stop < 0) then (- stop - 1) `div` (- step) + 1 else 0) in
    Ok (map (fun i : nat => Z.of_nat i * step) (seq 0 (Z.to_nat len))).

(* df[i:j] for 0 <= i: the rows with positions i, .., j - 1 *)
Definition py_slice {A} (df : list A) (i j : Z) : list A :=
  take (Z.to_nat (j - i)) (drop (Z.to_nat i) df).

Definition chunk_df {A} (df : list A) (chunk_size : Z) : res (list (list A)) :=
  starts ← py_range (Z.of_nat (length df)) chunk_size;
  Ok (map (fun i => let chunk_end := i + chunk_size in py_slice df i chunk_end)
          starts).

(** ** Joined columns: [pd_utils.str_join_cols]

    The table is given by its columns, the cells of a column in the order
    of the rows; the cells are strings, which [astype(str)] leaves as
    they are.  The columns of one table have the same index, so the sum
    of two of them is taken row by row. *)
Definition str_join_cols (df : dict string (list string)) (columns : list string)
    (separator : string) : res (list string) :=
  let reducer := fun accumulator item =>
    zip_with (fun a i => (a +:+ separator) +:+ i) accumulator item in
  join_cols ← mapR (fun x => dict_getitem x df) columns;
  (* functools.reduce without an initial value *)
  match join_cols with
  | [] => Raise TypeError
  | first :: rest => Ok (foldl reducer first rest)
  end.

(** ** More of numpy: floats that are not finite

    numpy answers a division by zero, and the mean of an empty array,
    with inf or nan and a RuntimeWarning, not with an exception, and the
    code goes on with what it got.  An [npfloat] is a numpy float that
    may be one of them; the zero of the rationals stands for the positive
    zero. *)

Inductive npfloat : Type :=
| Finite (x : Qc)
| PosInf
| NegInf
| NaN.

(* a + b *)
Definition npfloat_add (a b : npfloat) : npfloat :=
  match a, b with
  | Finite x, Finite y => Finite (x + y)%Qc
  | NaN, _ | _, NaN => NaN
  | PosInf, NegInf | NegInf, PosInf => NaN
  | PosInf, _ | _, PosInf => PosInf
  | NegInf, _ | _, NegInf => NegInf
  end.

(* a / b *)
Definition np_true_divide (a b : npfloat) : npfloat :=
  match a, b with
  | NaN, _ | _, NaN => NaN
  | Finite x, Finite y =>
      if decide (y = Q2Qc 0) then
        (if decide (x = Q2Qc 0) then NaN
         else if decide (Q2Qc 0 < x)%Qc then PosInf else NegInf)
      else Finite (x / y)%Qc
  | Finite _, _ => Finite (Q2Qc 0)
  | PosInf, Finite y => if decide (y < Q2Qc 0)%Qc then NegInf else PosInf
  | NegInf, Finite y => if decide (y < Q2Qc 0)%Qc then PosInf else NegInf
  | _, _ => NaN
  end.

(* np.sum(l) for a Python list of numpy floats *)
Definition np_sum_floats (l : list npfloat) : npfloat :=
  foldr npfloat_add (Finite (Q2Qc 0)) l.

(* np.mean(a): the mean of an empty array is 0 / 0 *)
Definition np_mean (a : value) : res npfloat :=
  match a with
  | PyNone => Raise TypeError
  | PyNum x | NpNum x => Ok (Finite x)
  | NpArr xs =>
      Ok (np_true_divide (Finite (Qsum xs))
                         (Finite (Q2Qc (inject_Z (Z.of_nat (length xs))))))
  end.

(* a * f for a numpy float f.  The product of a number with inf or nan
   is inf or nan again, so that a product with a factor that is not
   finite has only such entries: it is a value of the model when it has
   no entry at all. *)
Definition value_mul_npfloat (a : value) (f : npfloat) : res value :=
  match f with
  | Finite y => value_mul a (NpNum y)
  | _ =>
      match a with
      | PyNone => Raise TypeError
      | NpArr [] => Ok (NpArr [])
      | _ => Raise NonFinite
      end
  end.

(* dict(pairs) *)
Definition dict_of_pairs {V} (pairs : list (string * V)) : dict string V :=
  dict_update [] pairs.

(** ** More collaborators

    The queries of a segmentation that [subset] and
    [split_segmentation_like] ask ([core/segments.py]), and [du.xor]
    ([utils/general.py]); none of them is among the sources. *)

Class SegmentationQueries : Type := {
  (* self.segmentation.subset(out_segmentation) *)
  seg_subset : SegmentationLevel -> SegmentationLevel -> res (list string);
  (* self.segmentation.split(other.segmentation) *)
  seg_split : SegmentationLevel -> SegmentationLevel ->
              res (dict string (list string));
  (* du.xor(a, b) *)
  du_xor : bool -> bool -> bool;
}.

(** ** DVector *)

Record DVector : Type := {
  zoning_system : option ZoningSystem;
  segmentation : SegmentationLevel;
  _time_format : option TimeFormat;
  _data : dict string value;
  process_count : Z;
  verbose : bool;
  _df_chunk_size : Z;
  _chunk_divider : Z;
}.

#[global] Instance DVector_eq_dec : EqDecision DVector.
Proof. solve_decision. Defined.

(* what a caller may pass as time_format *)
Inductive tf_arg : Type :=
| TfNone
| TfEnum (t : TimeFormat)
| TfStr (s : string).

(* the infill argument: a Python number or a numpy scalar *)
Inductive scalar : Type :=
| PyScalar (x : Qc)
| NpScalar (x : Qc).

Definition scalar_value (s : scalar) : value :=
  match s with PyScalar x => PyNum x | NpScalar x => NpNum x end.
Definition scalar_num (s : scalar) : Qc :=
  match s with PyScalar x | NpScalar x => x end.

Module DVec.

(* class constants *)
Definition _zero_infill : Qc := Q2Qc (1 # 10000000000).
Definition _chunk_size : Z := 100000.
Definition _translate_zoning_min_chunk_size : Z := 700.

(* the default of the constructor's infill argument *)
Definition infill_default : scalar := PyScalar (Q2Qc 0).

Definition _valid_time_formats : list string :=
  map TimeFormat_.value TimeFormat_.members.

(* the property time_format *)
Definition time_format (self : DVector) : tf_arg :=
  match _time_format self with
  | None => TfNone
  | Some t => TfStr (TimeFormat_.name t)
  end.

(* the private attribute, handed on as it is *)
Definition tf_of (t : option TimeFormat) : tf_arg :=
  match t with None => TfNone | Some t => TfEnum t end.

Definition _validate_time_format (seg : SegmentationLevel) (time_format : tf_arg)
    : res (option TimeFormat) :=
  _ ← (if has_time_period_segments seg
       then match time_format with TfNone => Raise ValueError | _ => Ok tt end
       else Ok tt);
  match time_format with
  | TfNone => Ok None
  | TfEnum t => Ok (Some t)
  | TfStr s =>
      let s := str_lower (str_strip s) in
      if bool_decide (s ∈ _valid_time_formats) then
        match find (fun t => bool_decide (str_lower (TimeFormat_.name t) = s))
                   TimeFormat_.members with
        | Some t => Ok (Some t)
        | None => Raise ValueError
        end
      else Raise ValueError
  end.

(* the warning raised when both formats are set and differ does not
   stop the call and is not part of the result *)
Definition _choose_time_format (self other : DVector) : option TimeFormat :=
  match _time_format self with
  | Some t => Some t
  | None => _time_format other
  end.

(* the default value for a segment that is missing *)
Definition default_val (zoning : option ZoningSystem) (infill : scalar) : value :=
  match zoning with
  | None => scalar_value infill
  | Some z => NpArr (replicate (n_zones z) (scalar_num infill))
  end.

(* set(segment_names) - import_data.keys(); a Python set has no
   promised order, the model walks it in the order of segment_names *)
Definition not_in {V} (seg : SegmentationLevel) (import_data : dict string V)
    : list string :=
  filter (fun n => dict_get n import_data = None) (remove_dups (segment_names seg)).

(** [_dict_to_dvec].  The check of the names does not raise the
    SegmentationError it names: the message is formatted first, with
    [set(import_data.keys()) - self.segmentation.segment_names], and a set
    minus a list is a [TypeError]. *)
Definition _dict_to_dvec (zoning : option ZoningSystem) (seg : SegmentationLevel)
    (import_data : dict string value) (infill : scalar) : res (dict string value) :=
  let default_val := default_val zoning infill in
  import_data ← for_set id (fun _ => copy_method default_val)
                        import_data (not_in seg import_data);
  if is_correct_naming seg (dict_keys import_data) then Ok import_data
  else Raise TypeError.

(** The last step of [_dataframe_to_dvec]: the dictionary [data] merged
    from the chunks of the table gets its missing segments, each a
    [copy.copy] of the default value.  (What comes before it - the
    renaming, sorting and chunking of the DataFrame and the conversion of
    the chunks - runs through pandas and is not embedded.) *)
Definition _dataframe_to_dvec_infill (zoning : option ZoningSystem)
    (seg : SegmentationLevel) (data : dict string value) (infill : scalar)
    : dict string value :=
  let default_val := default_val zoning infill in
  foldl (fun data name => dict_set name (copy_copy default_val) data)
        data (not_in seg data).

(* the process_count setter *)
Definition set_process_count `{!Oracles} (a : Z) : Z :=
  if decide (a < 0) then cpu_count + a else a.

(** [DVector.__init__] for a data dictionary.  The checks of the
    argument types are carried by the types here; the DataFrame branch
    lives in pandas and is not embedded. *)
Definition __init__ `{!Oracles} (zoning_system : option ZoningSystem)
    (segmentation : SegmentationLevel) (import_data : dict string value)
    (time_format : tf_arg) (df_chunk_size : option Z) (infill : scalar)
    (process_count : Z) (verbose : bool) : res DVector :=
  tf ← _validate_time_format segmentation time_format;
  let pc := set_process_count process_count in
  data ← _dict_to_dvec zoning_system segmentation import_data infill;
  Ok {| zoning_system := zoning_system;
        segmentation := segmentation;
        _time_format := tf;
        _data := data;
        process_count := pc;
        verbose := verbose;
        _df_chunk_size := default _chunk_size df_chunk_size;
        _chunk_divider := if decide (pc = 0) then 1 else pc * 3 |}.

Section Operators.
Context `{!Oracles}.

(* DVector(zoning_system=.., segmentation=.., time_format=..,
           import_data=.., process_count=.., verbose=..) *)
Definition new (zoning : option ZoningSystem) (seg : SegmentationLevel)
    (time_format : tf_arg) (import_data : dict string value)
    (process_count : Z) (verbose : bool) : res DVector :=
  __init__ zoning seg import_data time_format None infill_default
           process_count verbose.

(* self._data[self_key] * other._data[other_key] *)
Definition product_of (self_data other_data : dict string value)
    (keys : string * string) : res value :=
  a ← dict_getitem keys.1 self_data;
  b ← dict_getitem keys.2 other_data;
  value_mul a b.

Definition __mul__ (self other : DVector) : res DVector :=
  return_zoning_system ←
    (if decide (zoning_system self = zoning_system other)
     then Ok (zoning_system self)
     else match zoning_system self, zoning_system other with
          | None, _ => Ok (zoning_system other)
          | _, None => Ok (zoning_system self)
          | Some _, Some _ => Raise ZoningError
          end);
  '(multiply_dict, return_segmentation) ←
    seg_multiply (segmentation self) (segmentation other);
  dvec_data ←
    for_set fst (fun item => product_of (_data self) (_data other) item.2)
            (dict_fromkeys (dict_keys multiply_dict) PyNone) multiply_dict;
  new return_zoning_system return_segmentation
      (tf_of (_choose_time_format self other)) dvec_data
      (process_count self) (verbose self).

Definition copy (self : DVector) : res DVector :=
  new (zoning_system self) (segmentation self) (tf_of (_time_format self))
      (_data self) (process_count self) (verbose self).

(* the body of the loop shared by aggregate and split_tfntt_segmentation *)
Definition sum_segments (data : dict string value) (in_seg_names : list string)
    : res value :=
  in_lst ← mapR (fun x => v ← dict_getitem x data; flatten v) in_seg_names;
  np_sum_axis0 in_lst.

Definition aggregate (self : DVector) (out_segmentation : SegmentationLevel)
    (split_tfntt_segmentation : bool) : res DVector :=
  aggregation_dict ←
    (if split_tfntt_segmentation
     then seg_split_tfntt_segmentation (segmentation self) out_segmentation
     else seg_aggregate (segmentation self) out_segmentation);
  dvec_data ←
    for_set fst (fun item => sum_segments (_data self) item.2)
            (dict_fromkeys (dict_keys aggregation_dict) PyNone) aggregation_dict;
  new (zoning_system self) out_segmentation (time_format self) dvec_data
      (process_count self) (verbose self).

Record mult_agg_kwargs : Type := {
  aggregation_keys_chunk : list string;
  kw_aggregation_dict : dict string (list string);
  kw_multiply_dict : dict string (string * string);
  kw_self_data : dict string value;
  kw_other_data : dict string value;
}.

Definition _multiply_and_aggregate_internal (kw : mult_agg_kwargs)
    : res (dict string value) :=
  for_set id
    (fun out_seg_name =>
       in_seg_names ← dict_getitem out_seg_name (kw_aggregation_dict kw);
       inter_segs ←
         mapR (fun segment_name =>
                 keys ← dict_getitem segment_name (kw_multiply_dict kw);
                 v ← product_of (kw_self_data kw) (kw_other_data kw) keys;
                 flatten v) in_seg_names;
       np_sum_axis0 inter_segs)
    (dict_fromkeys (aggregation_keys_chunk kw) PyNone)
    (aggregation_keys_chunk kw).

(** Modelled from the spec: [multiprocessing.multiprocess]
    (concurrency/multiprocessing.py is not among the sources): the
    function is applied to every argument set, the results come back
    in the order of the argument sets, and an exception in a worker
    aborts the call. *)
Definition multiprocess {A B} (fn : A -> res B) (kwargs : list A)
    : res (list B) :=
  mapR fn kwargs.

(* self_keys, other_keys = zip over the unpacked values of
   mult_dict_subset; unpacking into two names fails when there is no
   value at all *)
Definition unzip_pairs (l : list (string * string))
    : res (list string * list string) :=
  match l with
  | [] => Raise ValueError
  | _ => Ok (l.*1, l.*2)
  end.

Definition multiply_and_aggregate (self other : DVector)
    (out_segmentation : SegmentationLevel) : res DVector :=
  '(multiply_dict, mult_return_seg) ←
    seg_multiply (segmentation self) (segmentation other);
  aggregation_dict ← seg_aggregate mult_return_seg out_segmentation;
  let total := Z.of_nat (length aggregation_dict) in
  chunk_size ← ceil_div total (_chunk_divider self);
  chunks ← chunk_list (dict_keys aggregation_dict) chunk_size;
  kwarg_list ←
    mapR (fun keys_chunk =>
            agg_dict_subset ← dict_subset aggregation_dict keys_chunk;
            let key_subset := concat (dict_values agg_dict_subset) in
            mult_dict_subset ← dict_subset multiply_dict key_subset;
            '(self_keys, other_keys) ←
              unzip_pairs (dict_values mult_dict_subset);
            self_data ← dict_subset (_data self) self_keys;
            other_data ← dict_subset (_data other) other_keys;
            Ok {| aggregation_keys_chunk := keys_chunk;
                  kw_aggregation_dict := agg_dict_subset;
                  kw_multiply_dict := mult_dict_subset;
                  kw_self_data := self_data;
                  kw_other_data := other_data |}) chunks;
  data_chunks ← multiprocess _multiply_and_aggregate_internal kwarg_list;
  let dvec_data :=
    foldl dict_update (dict_fromkeys (dict_keys aggregation_dict) PyNone)
          data_chunks in
  new (zoning_system self) out_segmentation
      (tf_of (_choose_time_format self other)) dvec_data
      (process_count self) (verbose self).

Definition sum (self : DVector) : res Qc :=
  rows ← mapR flatten (dict_values (_data self));
  np_sum_all rows.

Definition sum_is_close (self other : DVector) (rel_tol abs_tol : Qc) : res bool :=
  a ← sum self;
  b ← sum other;
  Ok (isclose a b rel_tol abs_tol).

(* the defaults of sum_is_close *)
Definition rel_tol_default : Qc := Q2Qc (1 # 10000).
Definition abs_tol_default : Qc := Q2Qc 0.

(* np.broadcast_to(np.expand_dims(value, axis=1), translation.shape):
   the column that is repeated along the second axis *)
Definition broadcast_column (value : list Qc) (translation : matrix)
    : res (list Qc) :=
  let r := length (rows translation) in
  if decide (length value = r) then Ok value
  else match value with
       | [x] => Ok (replicate r x)
       | _ => Raise ValueError
       end.

(* the body of the loop of _translate_zoning_internal *)
Definition translate_value (translation : matrix) (v : value) : res value :=
  value ← flatten v;
  column ← broadcast_column value translation;
  let temp := zip_with (fun x row => map (Qcmult x) row)
                       column (rows translation) in
  Ok (NpArr (col_sums (ncols translation) temp)).

Definition _translate_zoning_internal (self_data : dict string value)
    (translation : matrix) : res (dict string value) :=
  for_set fst (fun item => translate_value translation item.2)
          (dict_fromkeys (dict_keys self_data) PyNone) self_data.

Definition translate_zoning (self : DVector) (new_zoning : ZoningSystem)
    (weighting : option string) : res DVector :=
  match zoning_system self with
  | None => Raise AttributeError
  | Some zoning =>
      translation ← zoning_translate zoning new_zoning weighting;
      let total := Z.of_nat (length (_data self)) in
      chunk_size ← ceil_div total (_chunk_divider self);
      let chunk_size :=
        if decide (chunk_size < _translate_zoning_min_chunk_size)
        then _translate_zoning_min_chunk_size else chunk_size in
      chunks ← chunk_list (dict_keys (_data self)) chunk_size;
      kwarg_list ←
        mapR (fun keys_chunk =>
                self_data_subset ← dict_subset (_data self) keys_chunk;
                Ok (self_data_subset, translation)) chunks;
      data_chunks ←
        multiprocess (fun kw => _translate_zoning_internal kw.1 kw.2) kwarg_list;
      let dvec_data :=
        foldl dict_update (dict_fromkeys (dict_keys (_data self)) PyNone)
              data_chunks in
      new (Some new_zoning) (segmentation self) (time_format self) dvec_data
          (process_count self) (verbose self)
  end.

(* expand_segmentation up to the construction of expanded_dvec *)
Definition expanded_dvec (self expansion_dvec : DVector) : res DVector :=
  _ ← match zoning_system self with
      | Some _ =>
          if bool_decide (zoning_system expansion_dvec = zoning_system self
                          \/ zoning_system expansion_dvec = None)
          then Ok tt else Raise ValueError
      | None => Ok tt
      end;
  '(expand_dict, return_seg) ←
    seg_expand (segmentation self) (segmentation expansion_dvec);
  dvec_data ←
    for_set fst (fun item => product_of (_data self) (_data expansion_dvec) item.2)
            (dict_fromkeys (dict_keys expand_dict) PyNone) expand_dict;
  new (zoning_system self) return_seg TfNone dvec_data
      (process_count self) (verbose self).

Definition expand_segmentation (self expansion_dvec : DVector) : res DVector :=
  expanded_dvec ← expanded_dvec self expansion_dvec;
  close ← sum_is_close self expanded_dvec rel_tol_default abs_tol_default;
  if close : bool then Ok expanded_dvec else Raise ValueError.

(* the two operands of one segment, zeros infilled *)
Definition infilled_pair (self other : DVector) (segment : string)
    : res (value * value) :=
  self_data ← dict_getitem segment (_data self);
  other_data ← dict_getitem segment (_data other);
  self_data ← where_nonpos _zero_infill self_data;
  other_data ← where_nonpos _zero_infill other_data;
  Ok (self_data, other_data).

(* self_data * (np.sum(other_data) / np.sum(self_data)) *)
Definition balanced_value (self other : DVector) (segment : string) : res value :=
  '(self_data, other_data) ← infilled_pair self other segment;
  o ← np_sum other_data;
  s ← np_sum self_data;
  factor ← np_div o s;
  value_mul self_data (NpNum factor).

Definition balance_group (self other : DVector)
    (d : dict string value) (segment_group : list string)
    : res (dict string value) :=
  pairs ← mapR (infilled_pair self other) segment_group;
  let self_data_lst := pairs.*1 in
  let other_data_lst := pairs.*2 in
  o ← np_sum_values other_data_lst;
  s ← np_sum_values self_data_lst;
  (* the factor of an empty group is 0 / 0; no product is taken with it *)
  let factor := np_true_divide (Finite o) (Finite s) in
  for_set fst (fun item => value_mul_npfloat item.2 factor)
          d (zip segment_group self_data_lst).

Definition balance_at_segments (self other : DVector)
    (split_weekday_weekend : bool) : res DVector :=
  if decide (seg_name (segmentation self) <> seg_name (segmentation other))
  then Raise ValueError
  else
    let dvec_data := dict_fromkeys (segment_names (segmentation self)) PyNone in
    dvec_data ←
      (if split_weekday_weekend then
         let wk_day_segs := get_grouped_weekday_segments (segmentation self) in
         let wk_end_segs := get_grouped_weekend_segments (segmentation self) in
         foldM (fun d split_wk_segs => foldM (balance_group self other) d split_wk_segs)
               dvec_data [wk_day_segs; wk_end_segs]
       else
         for_set id (balanced_value self other)
                 dvec_data (segment_names (segmentation self)));
    new (zoning_system self) (segmentation other) (time_format self) dvec_data
        (process_count self) (verbose self).

(* self._data[seg] * conversion_factors[tp] *)
Definition converted_value (data : dict string value)
    (conversion_factors : dict Z Qc) (tp : Z) (seg : string) : res value :=
  a ← dict_getitem seg data;
  f ← dict_getitem tp conversion_factors;
  value_mul a (PyNum f).

Definition convert_time_format (self : DVector) (new_time_format : tf_arg)
    : res DVector :=
  new_time_format ← _validate_time_format (segmentation self) new_time_format;
  match _time_format self, new_time_format with
  | None, _ => Raise ValueError
  | Some _, None => Raise ValueError
  | Some cur, Some new_time_format =>
      if negb (has_time_period_segments (segmentation self)) then Raise ValueError
      else if decide (cur = new_time_format) then copy self
      else
        conversion_factors ← TimeFormat_.get_conversion_factors cur new_time_format;
        let tp_groups := get_time_period_groups (segmentation self) in
        let missing_tps :=
          filter (fun tp => dict_get tp conversion_factors = None)
                 (dict_keys tp_groups) in
        match missing_tps with
        | _ :: _ => Raise SegmentationError
        | [] =>
            dvec_data ←
              foldM (fun d group =>
                       for_set id (converted_value (_data self)
                                                   conversion_factors group.1)
                               d group.2)
                    (dict_fromkeys (dict_keys (_data self)) PyNone) tp_groups;
            new (zoning_system self) (segmentation self) (TfEnum new_time_format)
                dvec_data (process_count self) (verbose self)
        end
  end.

End Operators.

Section Restructuring.
Context `{!Oracles} `{!SegmentationQueries}.

(** [get_segment_data].  Two of its three [raise] statements do not
    raise what they name: [NotImplemented] is a constant, not an
    exception class, and calling it is a [TypeError]; the message for an
    unknown segment name has two [%s] and is formatted with the one
    string [self.segmentation.name], which is a [TypeError] too. *)
Definition get_segment_data (self : DVector) (segment_name : option string)
    (segment_dict : option (dict string string)) : res value :=
  if negb (du_xor (bool_decide (segment_name = None))
                  (bool_decide (segment_dict = None)))
  then Raise ValueError
  else match segment_dict with
       | Some _ => Raise TypeError
       | None =>
           match segment_name with
           | None => Raise TypeError
           | Some segment_name =>
               if bool_decide (segment_name ∉ segment_names (segmentation self))
               then Raise TypeError
               else dict_getitem segment_name (_data self)
           end
       end.

Definition subset (self : DVector) (out_segmentation : SegmentationLevel)
    : res DVector :=
  subset_list ← seg_subset (segmentation self) out_segmentation;
  dvec_data ←
    for_set id (fun segment => dict_getitem segment (_data self))
            (dict_fromkeys subset_list PyNone) subset_list;
  new (zoning_system self) out_segmentation (time_format self) dvec_data
      (process_count self) (verbose self).

Definition split_tfntt_segmentation (self : DVector)
    (out_segmentation : SegmentationLevel) : res DVector :=
  if bool_decide ("tfn_tt" ∉ naming_order (segmentation self))
  then Raise SegmentationError
  else if bool_decide ("p" ∉ naming_order (segmentation self))
  then Raise SegmentationError
  else
    aggregation_dict ←
      seg_split_tfntt_segmentation (segmentation self) out_segmentation;
    dvec_data ←
      for_set fst (fun item => sum_segments (_data self) item.2)
              [] aggregation_dict;
    new (zoning_system self) out_segmentation (time_format self) dvec_data
        (process_count self) (verbose self).

(* the body of the outer loop of split_segmentation_like *)
Definition split_group (self other : DVector) (dvec_data : dict string value)
    (item : string * list string) : res (dict string value) :=
  let '(in_seg_name, out_seg_names) := item in
  other_segs ← mapR (fun s => v ← dict_getitem s (_data other); np_mean v)
                    out_seg_names;
  (* other_segs / np.sum(other_segs): no check of the divisor *)
  let split_factors :=
    map (fun x => np_true_divide x (np_sum_floats other_segs)) other_segs in
  self_seg ← dict_getitem in_seg_name (_data self);
  for_set fst (fun nf => value_mul_npfloat self_seg nf.2)
          dvec_data (zip out_seg_names split_factors).

Definition split_segmentation_like (self other : DVector) : res DVector :=
  split_dict ← seg_split (segmentation self) (segmentation other);
  dvec_data ←
    foldM (split_group self other)
          (dict_fromkeys (segment_names (segmentation other)) PyNone) split_dict;
  new (zoning_system self) (segmentation other)
      (tf_of (_choose_time_format self other)) dvec_data
      (process_count self) (verbose self).

Definition remove_zoning (self : DVector) (fn : value -> res value)
    : res DVector :=
  let keys := dict_keys (_data self) in
  values ← mapR fn (dict_values (_data self));
  new None (segmentation self) (time_format self)
      (dict_of_pairs (zip keys values))
      (process_count self) (verbose self).

(* fn=np.sum *)
Definition sum_zoning (self : DVector) : res DVector :=
  remove_zoning self (fun x => Ok (np_sum_value x)).

End Restructuring.

(** *** The tabular path, chunk by chunk

    [_dataframe_to_dvec] renames the columns of the table, builds the
    segment column with the segmentation and sorts the rows; all of that
    runs through pandas and [core/segments.py].  From there on the table
    is a list of rows with a segment name, a zone and a value (a zoneless
    table has no zone column, and the zone of a row is not read). *)

Record df_row : Type := {
  row_segment : string;
  row_zone : Z;
  row_val : Qc;
}.

(* len(set(l)) != len(l) *)
Definition has_repeats {A} `{EqDecision A} (l : list A) : bool :=
  negb (bool_decide (length (remove_dups l) = length l)).

(* series.unique(): the values in the order of their first appearance *)
Fixpoint unique {A} `{EqDecision A} (l : list A) : list A :=
  match l with
  | [] => []
  | x :: l' => x :: filter (fun y => y <> x) (unique l')
  end.

(* the conversion of the rows of one segment, for a zoning system *)
Definition segment_array (zoning : ZoningSystem) (seg : SegmentationLevel)
    (df_chunk : list df_row) (segment : string) : res value :=
  let seg_data := filter (fun r => row_segment r = segment) df_chunk in
  if bool_decide (segment ∉ segment_names seg) then Raise ValueError
  else
    let seg_zones := row_zone <$> seg_data in
    if has_repeats seg_zones then Raise ValueError
    else
      let extra_zones :=
        filter (fun z => z ∉ unique_zones zoning) (remove_dups seg_zones) in
      match extra_zones with
      | _ :: _ => Raise ValueError
      | [] =>
          (* the values by zone, reindexed to the zones of the zoning
             system with fill_value=0 *)
          let by_zone := (fun r => (row_zone r, row_val r)) <$> seg_data in
          Ok (NpArr ((fun z => default (Q2Qc 0) (dict_get z by_zone))
                       <$> unique_zones zoning))
      end.

Definition _dataframe_to_dvec_internal (zoning : option ZoningSystem)
    (seg : SegmentationLevel) (df_chunk : list df_row)
    : res (dict string value) :=
  match zoning with
  | None =>
      let segments := row_segment <$> df_chunk in
      if has_repeats segments then Raise ValueError
      else
        (* to_list() gives Python numbers *)
        let vals := (fun r => PyNum (row_val r)) <$> df_chunk in
        Ok (dict_of_pairs (zip segments vals))
  | Some zoning =>
      let segments := row_segment <$> df_chunk in
      for_set id (segment_array zoning seg df_chunk)
              (dict_fromkeys segments PyNone) (unique segments)
  end.

(* _dataframe_to_dvec from the sorted table to the converted chunks; the
   merge of the chunks (du.sum_dict_list) is not among the sources *)
Definition _dataframe_to_dvec_chunks (zoning : option ZoningSystem)
    (seg : SegmentationLevel) (_df_chunk_size process_count : Z)
    (df : list df_row) : res (list (dict string value)) :=
  let len_df := Z.of_nat (length df) in
  chunk_size ←
    (if decide (len_df < _df_chunk_size * process_count)
     then ceil_div len_df process_count
     else Ok _df_chunk_size);
  (* the total of the progress bar *)
  _ ← ceil_div len_df chunk_size;
  df_chunks ← chunk_df df chunk_size;
  multiprocess (_dataframe_to_dvec_internal zoning seg) df_chunks.

End DVec.

(** ** Dictionaries as shared objects

    [DVec] passes dictionaries by value, which is all the operators need:
    each of them builds a fresh dictionary and hands it to the constructor.
    The constructor itself, however, writes into the dictionary object it
    is given and keeps that very object.  This module models the object
    store: a dictionary is named by a reference, and what has been written
    before an exception stays written. *)

Module Store.

Abbreviation ref := nat (only parsing).
Abbreviation heap := (list (list (string * value))) (only parsing).

Definition M (A : Type) : Type := heap -> res A * heap.

Definition ret {A} (a : A) : M A := fun h => (Ok a, h).
Definition bind {A B} (m : M A) (k : A -> M B) : M B :=
  fun h => match m h with
           | (Ok a, h') => k a h'
           | (Raise e, h') => (Raise e, h')
           end.
Definition lift {A} (m : res A) : M A := fun h => (m, h).

(* the dictionary a reference names; references are never dangling *)
Definition heap_at (h : heap) (r : ref) : dict string value := default [] (h !! r).

Definition read (r : ref) : M (dict string value) := fun h => (Ok (heap_at h r), h).

(* r[k] = v *)
Definition setitem (r : ref) (k : string) (v : value) : M unit :=
  fun h => (Ok tt, alter (dict_set k v) r h).

(* a dictionary literal or dict(...) : a new object *)
Definition alloc (d : dict string value) : M ref :=
  fun h => (Ok (length h), h ++ [d]).

Fixpoint for_each {A} (body : A -> M unit) (l : list A) : M unit :=
  match l with
  | [] => ret tt
  | x :: l' => bind (body x) (fun _ => for_each body l')
  end.

Definition _dict_to_dvec (zoning : option ZoningSystem) (seg : SegmentationLevel)
    (import_data : ref) (infill : scalar) : M ref :=
  let default_val := DVec.default_val zoning infill in
  bind (read import_data) (fun d =>
  bind (for_each (fun name =>
                    bind (lift (copy_method default_val)) (fun v =>
                    setitem import_data name v))
                 (DVec.not_in seg d)) (fun _ =>
  bind (read import_data) (fun d =>
  if is_correct_naming seg (dict_keys d) then ret import_data
  else lift (Raise TypeError)))).

(* a DVector object: its _data attribute is a reference *)
Record DVectorObj : Type := {
  o_zoning_system : option ZoningSystem;
  o_segmentation : SegmentationLevel;
  o_time_format : option TimeFormat;
  o_data : ref;
  o_process_count : Z;
  o_verbose : bool;
  o_df_chunk_size : Z;
  o_chunk_divider : Z;
}.

Definition __init__ `{!Oracles} (zoning_system : option ZoningSystem)
    (segmentation : SegmentationLevel) (import_data : ref)
    (time_format : tf_arg) (df_chunk_size : option Z) (infill : scalar)
    (process_count : Z) (verbose : bool) : M DVectorObj :=
  bind (lift (DVec._validate_time_format segmentation time_format)) (fun tf =>
  let pc := DVec.set_process_count process_count in
  bind (_dict_to_dvec zoning_system segmentation import_data infill) (fun data =>
  ret {| o_zoning_system := zoning_system;
         o_segmentation := segmentation;
         o_time_format := tf;
         o_data := data;
         o_process_count := pc;
         o_verbose := verbose;
         o_df_chunk_size := default DVec._chunk_size df_chunk_size;
         o_chunk_divider := if decide (pc = 0) then 1 else pc * 3 |})).

(* the value-passing view of an object *)
Definition view (h : heap) (o : DVectorObj) : DVector :=
  {| zoning_system := o_zoning_system o;
     segmentation := o_segmentation o;
     _time_format := o_time_format o;
     _data := heap_at h (o_data o);
     process_count := o_process_count o;
     verbose := o_verbose o;
     _df_chunk_size := o_df_chunk_size o;
     _chunk_divider := o_chunk_divider o |}.

(* self.copy(): the constructor is handed the object self._data *)
Definition copy `{!Oracles} (self : DVectorObj) : M DVectorObj :=
  __init__ (o_zoning_system self) (o_segmentation self) (o_data self)
           (DVec.tf_of (o_time_format self)) None DVec.infill_default
           (o_process_count self) (o_verbose self).

End Store.

(** ** Totals on binary64

    The rationals of [DVec] can be added in any order; the doubles of the
    code cannot.  This module embeds the constructor, [aggregate] and
    [sum] once more, over the kernel's binary64 floats and with the order
    in which numpy adds: [np.sum] starts from the identity 0 and adds the
    pairwise sum of a contiguous stretch; a sum along the first axis of a
    two-dimensional array adds the rows one after the other.  (The sign of
    a zero sum is not modelled.) *)

Module Binary64.

Inductive value : Type :=
| PyNone
| PyNum (x : float)
| NpNum (x : float)
| NpArr (xs : list float).

(* a.flatten() *)
Definition flatten (a : value) : res (list float) :=
  match a with
  | PyNone | PyNum _ => Raise AttributeError
  | NpNum x => Ok [x]
  | NpArr xs => Ok xs
  end.

(* a.copy() : a method of numpy objects only *)
Definition copy_method (a : value) : res value :=
  match a with
  | PyNone | PyNum _ => Raise AttributeError
  | _ => Ok a
  end.

(* res += a[i], for i in order *)
Definition add_in_order (res : float) (a : list float) : float :=
  foldl PrimFloat.add res a.

(* numpy's sum of a block of 8 to 128 entries: eight running sums over
   the entries taken eight at a time, combined in pairs, then the entries
   that are left over *)
Definition block_sum (a : list float) : float :=
  let n := length a in
  let whole := (n - n mod 8)%nat in
  let r := foldl (zip_with PrimFloat.add) (take 8 a)
                 (chunks_of n 8 (drop 8 (take whole a))) in
  match r with
  | [r0; r1; r2; r3; r4; r5; r6; r7] =>
      add_in_order
        (PrimFloat.add
           (PrimFloat.add (PrimFloat.add r0 r1) (PrimFloat.add r2 r3))
           (PrimFloat.add (PrimFloat.add r4 r5) (PrimFloat.add r6 r7)))
        (drop whole a)
  | _ => add_in_order 0%float a
  end.

(* numpy's pairwise summation of n contiguous entries: fewer than 8 are
   added in order, up to 128 as a block, more are cut in two at a
   multiple of 8 *)
Fixpoint pairwise_sum (fuel : nat) (a : list float) : float :=
  let n := length a in
  if bool_decide (n < 8)%nat then add_in_order 0%float a
  else if bool_decide (n <= 128)%nat then block_sum a
  else match fuel with
       | O => block_sum a
       | S fuel' =>
           let n2 := (n / 2)%nat in
           let n2 := (n2 - n2 mod 8)%nat in
           PrimFloat.add (pairwise_sum fuel' (take n2 a))
                         (pairwise_sum fuel' (drop n2 a))
       end.

(* np.add.reduce over a contiguous array *)
Definition add_reduce (a : list float) : float :=
  PrimFloat.add 0%float (pairwise_sum (length a) a).

Definition same_length (rows : list (list float)) : bool :=
  match rows with
  | [] => true
  | r :: rows' => forallb (fun r' => bool_decide (length r' = length r)) rows'
  end.

(* np.sum(rows, axis=0) for a Python list of 1-d arrays of length n: row
   after row is added to the zeros; rows of one entry are one contiguous
   stretch *)
Definition col_sums (n : nat) (rows : list (list float)) : list float :=
  if bool_decide (n = 1)%nat then [add_reduce (concat rows)]
  else foldl (zip_with PrimFloat.add) (replicate n 0%float) rows.

Definition np_sum_axis0 (rows : list (list float)) : res value :=
  match rows with
  | [] => Ok (NpNum 0%float)
  | r :: _ =>
      if same_length rows then Ok (NpArr (col_sums (length r) rows))
      else Raise ValueError
  end.

(* np.sum(rows) for a Python list of 1-d arrays *)
Definition np_sum_all (rows : list (list float)) : res float :=
  if same_length rows then Ok (add_reduce (concat rows)) else Raise ValueError.

(* math.isclose(a, b, rel_tol=rel_tol, abs_tol=abs_tol) *)
Definition isclose (a b rel_tol abs_tol : float) : res bool :=
  if PrimFloat.ltb rel_tol 0%float || PrimFloat.ltb abs_tol 0%float
  then Raise ValueError
  else if PrimFloat.eqb a b then Ok true
  else if PrimFloat.is_infinity a || PrimFloat.is_infinity b then Ok false
  else
    let diff := PrimFloat.abs (PrimFloat.sub b a) in
    Ok (PrimFloat.leb diff (PrimFloat.abs (PrimFloat.mul rel_tol b))
        || PrimFloat.leb diff (PrimFloat.abs (PrimFloat.mul rel_tol a))
        || PrimFloat.leb diff abs_tol).

Record DVector : Type := {
  zoning_system : option ZoningSystem;
  segmentation : SegmentationLevel;
  _time_format : option TimeFormat;
  _data : dict string value;
  process_count : Z;
  verbose : bool;
  _df_chunk_size : Z;
  _chunk_divider : Z;
}.

(* the infill argument: a Python number or a numpy scalar *)
Inductive scalar : Type :=
| PyScalar (x : float)
| NpScalar (x : float).

Definition default_val (zoning : option ZoningSystem) (infill : scalar) : value :=
  match zoning with
  | None => match infill with PyScalar x => PyNum x | NpScalar x => NpNum x end
  | Some z =>
      NpArr (replicate (n_zones z)
                       (match infill with PyScalar x | NpScalar x => x end))
  end.

Definition _dict_to_dvec (zoning : option ZoningSystem) (seg : SegmentationLevel)
    (import_data : dict string value) (infill : scalar) : res (dict string value) :=
  let default_val := default_val zoning infill in
  import_data ← for_set id (fun _ => copy_method default_val)
                        import_data (DVec.not_in seg import_data);
  if is_correct_naming seg (dict_keys import_data) then Ok import_data
  else Raise TypeError.

Section Operators.
Context `{!Oracles}.

Definition __init__ (zoning_system : option ZoningSystem)
    (segmentation : SegmentationLevel) (import_data : dict string value)
    (time_format : tf_arg) (df_chunk_size : option Z) (infill : scalar)
    (process_count : Z) (verbose : bool) : res DVector :=
  tf ← DVec._validate_time_format segmentation time_format;
  let pc := DVec.set_process_count process_count in
  data ← _dict_to_dvec zoning_system segmentation import_data infill;
  Ok {| zoning_system := zoning_system;
        segmentation := segmentation;
        _time_format := tf;
        _data := data;
        process_count := pc;
        verbose := verbose;
        _df_chunk_size := default DVec._chunk_size df_chunk_size;
        _chunk_divider := if decide (pc = 0) then 1 else pc * 3 |}.

(* the property time_format *)
Definition time_format (self : DVector) : tf_arg :=
  match _time_format self with
  | None => TfNone
  | Some t => TfStr (TimeFormat_.name t)
  end.

Definition aggregate (self : DVector) (out_segmentation : SegmentationLevel)
    (split_tfntt_segmentation : bool) : res DVector :=
  aggregation_dict ←
    (if split_tfntt_segmentation
     then seg_split_tfntt_segmentation (segmentation self) out_segmentation
     else seg_aggregate (segmentation self) out_segmentation);
  dvec_data ←
    for_set fst
      (fun item =>
         in_lst ← mapR (fun x => v ← dict_getitem x (_data self); flatten v) item.2;
         np_sum_axis0 in_lst)
      (dict_fromkeys (dict_keys aggregation_dict) PyNone) aggregation_dict;
  __init__ (zoning_system self) out_segmentation dvec_data (time_format self)
           None (PyScalar 0%float) (process_count self) (verbose self).

Definition sum (self : DVector) : res float :=
  rows ← mapR flatten (dict_values (_data self));
  np_sum_all rows.

End Operators.

End Binary64.

(** * Concrete collaborators and vectors *)

Module Examples.

Definition q (a : Z) (b : positive) : Qc := Q2Qc (a # b).

Definition mk_seg (name : string) (names : list string) : SegmentationLevel :=
  {| seg_name := name; naming_order := [name]; segment_names := names;
     has_time_period_segments := false; get_time_period_groups := [];
     get_grouped_weekday_segments := []; get_grouped_weekend_segments := [] |}.

(* every pair of segments, named left_right *)
Definition cross (s1 s2 : SegmentationLevel)
    : res (dict string (string * string) * SegmentationLevel) :=
  let pairs := flat_map (fun a => map (fun b => (a +:+ "_" +:+ b, (a, b)))
                                      (segment_names s2)) (segment_names s1) in
  Ok (pairs,
      {| seg_name := seg_name s1 +:+ "_" +:+ seg_name s2;
         naming_order := naming_order s1 ++ naming_order s2;
         segment_names := pairs.*1;
         has_time_period_segments :=
           has_time_period_segments s1 || has_time_period_segments s2;
         get_time_period_groups := [];
         get_grouped_weekday_segments := [];
         get_grouped_weekend_segments := [] |}).

(* an output segment collects the segments it is a prefix of *)
Definition by_prefix (s out : SegmentationLevel) : res (dict string (list string)) :=
  Ok (map (fun o => (o, filter (fun n => String.prefix o n = true) (segment_names s)))
          (segment_names out)).

Definition two_to_three : matrix :=
  {| rows := [[q 1 2; q 1 2; q 0 1]; [q 0 1; q 1 4; q 3 4]]; ncols := 3 |}.

#[local] Instance oracles : Oracles :=
  {| seg_multiply := cross;
     seg_aggregate := by_prefix;
     seg_split_tfntt_segmentation := by_prefix;
     seg_expand := cross;
     zoning_translate := fun _ _ _ => Ok two_to_three;
     cpu_count := 4 |}.

Definition zone2 : ZoningSystem := {| zs_name := "two"; unique_zones := [1; 2] |}.
Definition zone2' : ZoningSystem := {| zs_name := "other"; unique_zones := [7; 8] |}.
Definition zone3 : ZoningSystem := {| zs_name := "three"; unique_zones := [1; 2; 3] |}.

Definition seg_p : SegmentationLevel := mk_seg "p" ["1"; "2"].
Definition seg_m : SegmentationLevel := mk_seg "m" ["a"; "b"].

Definition mk (z : option ZoningSystem) (s : SegmentationLevel)
    (tf : option TimeFormat) (d : dict string value) : DVector :=
  {| zoning_system := z; segmentation := s; _time_format := tf; _data := d;
     process_count := 0; verbose := false; _df_chunk_size := 100000;
     _chunk_divider := 1 |}.

Definition arr (l : list Z) : value := NpArr (map (fun z => q z 1) l).

Definition pop : DVector :=
  mk (Some zone2) seg_p None [("1", arr [10; 20]); ("2", arr [5; 0])].
Definition rate : DVector :=
  mk None seg_m None [("a", NpNum (q 1 2)); ("b", NpNum (q 1 4))].
Definition rate_z : DVector :=
  mk (Some zone2) seg_m None [("a", arr [1;2]); ("b", arr [3;4])].
Definition pop_none : DVector :=
  mk None seg_p None [("1", NpNum (q 10 1)); ("2", NpNum (q 5 1))].

(* the segmentation of pop * rate, and a vector on it *)
Definition seg_pm : SegmentationLevel :=
  {| seg_name := "p_m"; naming_order := ["p"; "m"];
     segment_names := ["1_a"; "1_b"; "2_a"; "2_b"];
     has_time_period_segments := false; get_time_period_groups := [];
     get_grouped_weekday_segments := []; get_grouped_weekend_segments := [] |}.

Definition demand : DVector :=
  mk (Some zone2) seg_pm None
     [("1_a", arr [5; 10]); ("1_b", arr [3; 5]); ("2_a", arr [2; 0]); ("2_b", arr [1; 0])].

(* weights that share a segment out in two halves *)
Definition halves : DVector :=
  mk None seg_m None [("a", NpNum (q 1 2)); ("b", NpNum (q 1 2))].

(* the same vector as pop, its values being daily averages *)
Definition pop_day : DVector :=
  mk (Some zone2) seg_p (Some AVG_DAY) [("1", arr [10; 20]); ("2", arr [5; 0])].

(* a segmentation by time period, and weights over it *)
Definition seg_tp : SegmentationLevel :=
  {| seg_name := "tp"; naming_order := ["tp"]; segment_names := ["1"; "2"];
     has_time_period_segments := true;
     get_time_period_groups := [(1, ["1"]); (2, ["2"])];
     get_grouped_weekday_segments := [["1"; "2"]];
     get_grouped_weekend_segments := [] |}.


(* weekly averages by time period *)
Definition week : DVector :=
  mk (Some zone2) seg_tp (Some AVG_WEEK) [("1", arr [10; 20]); ("2", arr [5; 0])].

Definition tp_halves : DVector :=
  mk None seg_tp (Some AVG_DAY) [("1", NpNum (q 1 2)); ("2", NpNum (q 1 2))].

(* a subset keeps the segments of the output segmentation; a segment is
   split into the segments it is a prefix of *)
#[local] Instance queries : SegmentationQueries :=
  {| seg_subset := fun _ out => Ok (segment_names out);
     seg_split := fun s other => by_prefix other s;
     du_xor := xorb |}.

(* pop by traveller type: a segmentation that names p and tfn_tt *)
Definition seg_ptt : SegmentationLevel :=
  {| seg_name := "p_tfn_tt"; naming_order := ["p"; "tfn_tt"];
     segment_names := ["1_a"; "1_b"; "2_a"; "2_b"];
     has_time_period_segments := false; get_time_period_groups := [];
     get_grouped_weekday_segments := []; get_grouped_weekend_segments := [] |}.

Definition demand_tt : DVector :=
  mk (Some zone2) seg_ptt None
     [("1_a", arr [5; 10]); ("1_b", arr [3; 5]); ("2_a", arr [2; 0]); ("2_b", arr [1; 0])].

(* the first segment alone *)
Definition seg_p1 : SegmentationLevel := mk_seg "p1" ["1"].

(* pop as a table: one row per segment and zone, the last one missing *)
Definition pop_table : list DVec.df_row :=
  [ {| DVec.row_segment := "1"; DVec.row_zone := 1; DVec.row_val := q 10 1 |};
    {| DVec.row_segment := "1"; DVec.row_zone := 2; DVec.row_val := q 20 1 |};
    {| DVec.row_segment := "2"; DVec.row_zone := 1; DVec.row_val := q 5 1 |} ].

(* time periods whose weekday group has both segments and whose weekend
   has one group without any segment; a vector and a target on it *)
Definition seg_wk : SegmentationLevel :=
  {| seg_name := "tp_wk"; naming_order := ["tp"]; segment_names := ["1"; "2"];
     has_time_period_segments := true;
     get_time_period_groups := [(1, ["1"]); (2, ["2"])];
     get_grouped_weekday_segments := [["1"; "2"]];
     get_grouped_weekend_segments := [[]] |}.

Definition week_wk : DVector :=
  mk (Some zone2) seg_wk (Some AVG_WEEK) [("1", arr [10; 20]); ("2", arr [5; 0])].

Definition target_wk : DVector :=
  mk (Some zone2) seg_wk (Some AVG_WEEK) [("1", arr [0; 1]); ("2", arr [2; 4])].

(* a vector of doubles whose first and last segment cancel: 1e9 and -1e9
   around 0.001 (the double next to it, 0x1.0624dd2f1a9fcp-10) *)
Definition seg_pm3 : SegmentationLevel := mk_seg "p_m" ["1_a"; "2_a"; "1_b"].

Definition cancelling : Binary64.DVector :=
  {| Binary64.zoning_system := Some zone2;
     Binary64.segmentation := seg_pm3;
     Binary64._time_format := None;
     Binary64._data :=
       [("1_a", Binary64.NpArr [1e9%float; 0%float]);
        ("2_a", Binary64.NpArr [0x1.0624dd2f1a9fcp-10%float; 0%float]);
        ("1_b", Binary64.NpArr [(-1e9)%float; 0%float])];
     Binary64.process_count := 0;
     Binary64.verbose := false;
     Binary64._df_chunk_size := 100000;
     Binary64._chunk_divider := 1 |}.

(* pop as an object: its data is the first dictionary of the store *)
Definition pop_obj : Store.DVectorObj :=
  {| Store.o_zoning_system := Some zone2;
     Store.o_segmentation := seg_p;
     Store.o_time_format := None;
     Store.o_data := 0%nat;
     Store.o_process_count := 0;
     Store.o_verbose := false;
     Store.o_df_chunk_size := 100000;
     Store.o_chunk_divider := 1 |}.

End Examples.

(** * The vocabulary of the statements *)

Definition uniform (n : nat) (rows : list (list Qc)) : Prop :=
  Forall (fun r => length r = n) rows.

(* the flattened value of a segment *)
Definition row_of (data : dict string value) (k : string) : list Qc :=
  match dict_get k data with
  | Some x => match flatten x with Ok row => row | Raise _ => [] end
  | None => []
  end.

(* the entries of a dictionary under the keys ks *)
Definition entries {V} (g : string -> V) (ks : list string) : dict string V :=
  (fun k => (k, g k)) <$> ks.

(* what the constructor establishes, given a dictionary *)
Record DVector_wf (v : DVector) : Prop := {
  wf_NoDup : NoDup (dict_keys (_data v));
  wf_keys : forall k, k ∈ dict_keys (_data v) <-> k ∈ segment_names (segmentation v);
  wf_time_format :
    has_time_period_segments (segmentation v) = true -> _time_format v <> None;
  wf_chunk_divider :
    _chunk_divider v = if decide (process_count v = 0) then 1 else process_count v * 3;
}.

(* the arrays of a zoned vector have one entry per zone *)
Definition zoned_shape (z : ZoningSystem) (v : DVector) : Prop :=
  Forall (fun x => exists xs, x = NpArr xs /\ length xs = n_zones z)
         (dict_values (_data v)).

(* new_value[j] = sum_i old_value[i] * translation[i][j], for every j *)
Definition translated (t : matrix) (xs : list Qc) : list Qc :=
  col_sums (ncols t) (zip_with (fun x row => map (Qcmult x) row) xs (rows t)).

(* the data of the translated vector *)
Definition translated_data (t : matrix) (data : dict string value) : dict string value :=
  entries (fun k => NpArr (translated t (row_of data k))) (dict_keys data).

(* the segments of the time-period groups, each with its time period, in
   the order in which convert_time_format visits them *)
Definition seg_tps (groups : dict Z (list string)) : list (string * Z) :=
  concat ((fun g : Z * list string => (fun s => (s, g.1)) <$> g.2) <$> groups).

(* the time period under which a segment is converted: the last group
   that lists it *)
Definition tp_of (groups : dict Z (list string)) (k : string) : option Z :=
  dict_get k (reverse (seg_tps groups)).

(* x * f for a Python number f *)
Definition scale (f : Qc) (x : value) : value :=
  match x with
  | PyNone => PyNone
  | PyNum a => PyNum (a * f)%Qc
  | NpNum a => NpNum (a * f)%Qc
  | NpArr xs => NpArr (map (fun a => (a * f)%Qc) xs)
  end.

(* the data of the converted vector *)
Definition converted_data (groups : dict Z (list string)) (factors : dict Z Qc)
    (data : dict string value) : dict string value :=
  entries (fun k => match tp_of groups k with
                    | Some tp => scale (default (Q2Qc 0) (dict_get tp factors))
                                       (default PyNone (dict_get k data))
                    | None => PyNone
                    end) (dict_keys data).

(* the segments of a segmentation are grouped by known time periods, and
   every segment is in a group *)
Record tp_groups_ok (seg : SegmentationLevel) : Prop := {
  tp_known : forall s tp, (s, tp) ∈ seg_tps (get_time_period_groups seg) ->
                          tp ∈ TimeFormat_.get_time_periods;
  tp_keys_known : forall tp, tp ∈ dict_keys (get_time_period_groups seg) ->
                             tp ∈ TimeFormat_.get_time_periods;
  tp_segments : forall s tp, (s, tp) ∈ seg_tps (get_time_period_groups seg) ->
                             s ∈ segment_names seg;
  tp_cover : forall s, s ∈ segment_names seg ->
                       is_Some (tp_of (get_time_period_groups seg) s);
}.

(* no placeholder is left among the values *)
Definition no_None (data : dict string value) : Prop :=
  forall k, dict_get k data <> Some PyNone.

(* the same vector, up to the settings of the worker pool *)
Definition same_vector (a b : DVector) : Prop :=
  zoning_system a = zoning_system b
  /\ segmentation a = segmentation b
  /\ _time_format a = _time_format b
  /\ _data a = _data b.

(* the factor of a time period in a conversion *)
Definition factor (from to : TimeFormat) (tp : Z) : option Qc :=
  match TimeFormat_.get_conversion_factors from to with
  | Ok factors => dict_get tp factors
  | Raise _ => None
  end.

(* the vector the constructor returns for a complete dictionary *)
Definition rebuilt `{!Oracles} (v : DVector) (tf : option TimeFormat)
    (data : dict string value) : DVector :=
  let pc := DVec.set_process_count (process_count v) in
  {| zoning_system := zoning_system v;
     segmentation := segmentation v;
     _time_format := tf;
     _data := data;
     process_count := pc;
     verbose := verbose v;
     _df_chunk_size := DVec._chunk_size;
     _chunk_divider := if decide (pc = 0) then 1 else pc * 3 |}.

(* every entry of a value is positive *)
Definition all_positive (a : value) : Prop :=
  match a with
  | PyNone => False
  | PyNum x | NpNum x => (Q2Qc 0 < x)%Qc
  | NpArr xs => Forall (fun x => (Q2Qc 0 < x)%Qc) xs
  end.



(* C1: the value multiply_and_aggregate gives one output segment, read
   from the data of the two operands and the whole multiply dictionary *)
Definition fused_value (a_data b_data : dict string value)
    (multiply_dict : dict string (string * string)) (in_seg_names : list string)
    : res value :=
  inter_segs ← mapR (fun segment_name =>
                       keys ← dict_getitem segment_name multiply_dict;
                       v ← DVec.product_of a_data b_data keys;
                       flatten v) in_seg_names;
  np_sum_axis0 inter_segs.

(* what one pass of the outer loop of split_segmentation_like writes
   under the output segments of a group: the value of the input segment
   times the quotient of the mean of each output segment by the sum of
   the means *)
Definition split_group_writes (self other : DVector) (item : string * list string)
    (ps : list value) : Prop :=
  exists self_seg means,
    dict_get item.1 (_data self) = Some self_seg
    /\ Forall2 (fun s m => exists o, dict_get s (_data other) = Some o
                                     /\ np_mean o = Ok m) item.2 means
    /\ Forall2 (fun m p =>
                  value_mul_npfloat self_seg (np_true_divide m (np_sum_floats means))
                  = Ok p) means ps.

(* what balance_at_segments writes, under the weekday/weekend option,
   for the segments of one group: the zero-infilled values of self times
   the quotient of the two totals of the group; the values add up to the
   total of other unless the total of self is zero, which leaves arrays of
   length zero *)
Definition balance_group_writes (self other : DVector) (segment_group : list string)
    (xs : list value) : Prop :=
  exists pairs o s,
    Forall2 (fun segment pair => DVec.infilled_pair self other segment = Ok pair)
            segment_group pairs
    /\ np_sum_values pairs.*2 = Ok o
    /\ np_sum_values pairs.*1 = Ok s
    /\ Forall2 (fun pair x =>
                  value_mul_npfloat pair.1 (np_true_divide (Finite o) (Finite s))
                  = Ok x) pairs xs
    /\ (s <> Q2Qc 0 -> np_sum_values xs = Ok o)
    /\ (s = Q2Qc 0 -> Forall (fun x => x = NpArr []) xs).

(** * Facts about the error monad and about dictionaries *)

Lemma bind_Ok {A B} (m : res A) (f : A -> res B) (b : B) :
  m ≫= f = Ok b <-> exists a, m = Ok a /\ f a = Ok b.
Proof.
  destruct m as [a|e]; simpl; split.
  - intros Hf. exists a. done.
  - intros (a' & [= <-] & Hf). done.
  - done.
  - intros (a' & [=] & _).
Qed.

Lemma fmap_Ok {A B} (m : res A) (f : A -> B) (b : B) :
  f <$> m = Ok b <-> exists a, m = Ok a /\ b = f a.
Proof.
  destruct m as [a|e]; simpl; split.
  - intros [= <-]. exists a. done.
  - intros (a' & [= <-] & ->). done.
  - done.
  - intros (a' & [=] & _).
Qed.

(* take a successful chain of binds apart *)
Ltac inv_res :=
  repeat match goal with
         | H : mret _ = Ok _ |- _ => unfold mret, res_ret in H
         | H : Ok _ = Ok _ |- _ => injection H as H; try subst
         | H : Raise _ = Ok _ |- _ => discriminate H
         | H : Ok _ = Raise _ |- _ => discriminate H
         | H : _ ≫= _ = Ok _ |- _ =>
             let a := fresh "a" in
             let Ha := fresh "Ha" in
             apply bind_Ok in H as (a & Ha & H)
         | H : _ <$> _ = Ok _ |- _ =>
             let a := fresh "a" in
             let Ha := fresh "Ha" in
             apply fmap_Ok in H as (a & Ha & H)
         end.

Lemma mapR_Ok {A B} (f : A -> res B) (l : list A) (k : list B) :
  mapR f l = Ok k <-> Forall2 (fun x y => f x = Ok y) l k.
Proof.
  revert k. induction l as [|x l IH]; intros k; simpl.
  - split.
    + intros [= <-]. constructor.
    + intros Hk. inversion Hk. done.
  - split.
    + intros H. inv_res. constructor; [done|]. by apply IH.
    + intros Hk. inversion Hk as [|? y ? k' Hy Hk']; subst.
      rewrite Hy. simpl. apply IH in Hk'. rewrite Hk'. done.
Qed.

Lemma mapR_Ok_length {A B} (f : A -> res B) (l : list A) (k : list B) :
  mapR f l = Ok k -> length k = length l.
Proof. rewrite mapR_Ok. intros H. symmetry. by eapply Forall2_length. Qed.

Lemma mapR_ext_in {A B} (f g : A -> res B) (l : list A) :
  (forall x, x ∈ l -> f x = g x) -> mapR f l = mapR g l.
Proof.
  induction l as [|x l IH]; intros Hfg; simpl; [done|].
  rewrite Hfg by constructor.
  rewrite IH; [done|]. intros y Hy. apply Hfg. by constructor.
Qed.

Lemma mapR_app {A B} (f : A -> res B) (l1 l2 : list A) :
  mapR f (l1 ++ l2) = (k1 ← mapR f l1; k2 ← mapR f l2; Ok (k1 ++ k2)).
Proof.
  induction l1 as [|x l1 IH]; simpl.
  - destruct (mapR f l2); done.
  - destruct (f x); simpl; [|done]. rewrite IH.
    destruct (mapR f l1); simpl; [|done]. destruct (mapR f l2); done.
Qed.

Lemma foldM_app {A B} (f : B -> A -> res B) (b : B) (l1 l2 : list A) :
  foldM f b (l1 ++ l2) = (b' ← foldM f b l1; foldM f b' l2).
Proof.
  revert b. induction l1 as [|x l1 IH]; intros b; simpl; [done|].
  destruct (f b x); simpl; [apply IH|done].
Qed.

Section DictFacts.
Context {K V : Type} `{EqDecision K}.
Implicit Types (d u : dict K V) (k : K) (v : V).

Lemma dict_get_None k d : dict_get k d = None <-> k ∉ dict_keys d.
Proof.
  unfold dict_keys. induction d as [|[k' v'] d IH]; csimpl.
  - split; [intros _; apply not_elem_of_nil|done].
  - rewrite not_elem_of_cons. destruct (decide (k = k')) as [->|Hne].
    + split; [done|]. intros [? _]. done.
    + rewrite IH. tauto.
Qed.

Lemma dict_get_Some_elem k v d : dict_get k d = Some v -> (k, v) ∈ d.
Proof.
  induction d as [|[k' v'] d IH]; csimpl; [done|].
  destruct (decide (k = k')) as [->|Hne].
  - intros [= ->]. constructor.
  - intros Hd. apply elem_of_cons. right. by apply IH.
Qed.

Lemma dict_get_is_Some k d : is_Some (dict_get k d) <-> k ∈ dict_keys d.
Proof.
  rewrite <- not_eq_None_Some, dict_get_None.
  destruct (decide (k ∈ dict_keys d)); tauto.
Qed.

Lemma dict_get_elem_NoDup k v d :
  NoDup (dict_keys d) -> (k, v) ∈ d -> dict_get k d = Some v.
Proof.
  unfold dict_keys. induction d as [|[k' v'] d IH]; csimpl.
  - intros _ Hin. by apply elem_of_nil in Hin.
  - intros Hnd Hin. apply NoDup_cons in Hnd as [Hk' Hd].
    apply elem_of_cons in Hin as [[= -> ->]|Hin].
    + by rewrite decide_True.
    + rewrite decide_False; [by apply IH|].
      intros ->. apply Hk'. apply list_elem_of_fmap. by exists (k', v).
Qed.

Lemma dict_get_app k d u :
  dict_get k (d ++ u) =
    match dict_get k d with Some v => Some v | None => dict_get k u end.
Proof.
  induction d as [|[k' v'] d IH]; csimpl; [done|].
  destruct (decide (k = k')); done.
Qed.

Lemma dict_get_set k k' v d :
  dict_get k' (dict_set k v d) = if decide (k' = k) then Some v else dict_get k' d.
Proof.
  induction d as [|[k0 v0] d IH]; csimpl.
  - destruct (decide (k' = k)); done.
  - destruct (decide (k = k0)) as [->|Hne]; csimpl.
    + destruct (decide (k' = k0)); done.
    + destruct (decide (k' = k0)) as [->|Hne'].
      * by rewrite decide_False.
      * apply IH.
Qed.

Lemma dict_keys_set k v d :
  dict_keys (dict_set k v d) =
    if decide (k ∈ dict_keys d) then dict_keys d else dict_keys d ++ [k].
Proof.
  unfold dict_keys. induction d as [|[k0 v0] d IH]; csimpl.
  - destruct (decide (k ∈ [])) as [Hin|_]; [|done].
    by apply elem_of_nil in Hin.
  - destruct (decide (k = k0)) as [->|Hne]; csimpl.
    + destruct (decide (k0 ∈ k0 :: d.*1)) as [_|Hin]; [done|].
      exfalso. apply Hin. constructor.
    + rewrite IH. destruct (decide (k ∈ d.*1)) as [Hin|Hin];
        destruct (decide (k ∈ k0 :: d.*1)) as [Hin'|Hin']; try done.
      * exfalso. apply Hin'. by constructor.
      * apply elem_of_cons in Hin' as [?|?]; done.
Qed.

Lemma dict_set_fresh k v d : k ∉ dict_keys d -> dict_set k v d = d ++ [(k, v)].
Proof.
  unfold dict_keys. induction d as [|[k0 v0] d IH]; csimpl; [done|].
  rewrite not_elem_of_cons. intros [Hne Hin].
  rewrite decide_False by done. by rewrite IH.
Qed.

Lemma dict_set_NoDup k v d : NoDup (dict_keys d) -> NoDup (dict_keys (dict_set k v d)).
Proof.
  intros Hd. rewrite dict_keys_set. destruct (decide (k ∈ dict_keys d)); [done|].
  apply NoDup_app. split_and!; [done| |apply NoDup_singleton].
  intros x Hx Hx'. apply list_elem_of_singleton in Hx'. by subst.
Qed.

(* two dictionaries with the same keys in the same order and the same
   value under each key are the same dictionary *)
Lemma dict_ext d u :
  NoDup (dict_keys d) -> dict_keys d = dict_keys u ->
  (forall k, k ∈ dict_keys d -> dict_get k d = dict_get k u) -> d = u.
Proof.
  unfold dict_keys. revert u.
  induction d as [|[k v] d IH]; intros [|[k' v'] u]; csimpl; try done.
  intros Hnd [= <- Hkeys] Hget. apply NoDup_cons in Hnd as [Hk Hd].
  pose proof (Hget k ltac:(constructor)) as Hk0.
  rewrite !decide_True in Hk0 by done. injection Hk0 as <-.
  f_equal. apply IH; [done..|]. intros k0 Hk0.
  specialize (Hget k0 ltac:(by constructor)).
  rewrite !decide_False in Hget; [done|intros ->; done..].
Qed.

Lemma dict_update_cons d k v u :
  dict_update d ((k, v) :: u) = dict_update (dict_set k v d) u.
Proof. done. Qed.

Lemma dict_update_app d u1 u2 :
  dict_update d (u1 ++ u2) = dict_update (dict_update d u1) u2.
Proof. unfold dict_update. apply foldl_app. Qed.

Lemma dict_get_update k d u :
  dict_get k (dict_update d u) =
    match dict_get k (reverse u) with
    | Some v => Some v
    | None => dict_get k d
    end.
Proof.
  revert d. induction u as [|[k' v'] u IH]; intros d; [done|].
  rewrite dict_update_cons, IH, reverse_cons, dict_get_app, dict_get_set. csimpl.
  destruct (dict_get k (reverse u)); [done|].
  destruct (decide (k = k')); done.
Qed.

Lemma dict_keys_update_within d u :
  (forall k, k ∈ dict_keys u -> k ∈ dict_keys d) ->
  dict_keys (dict_update d u) = dict_keys d.
Proof.
  revert d. induction u as [|[k' v'] u IH]; intros d Hin; [done|].
  assert (dict_keys (dict_set k' v' d) = dict_keys d) as Hkeys.
  { rewrite dict_keys_set, decide_True; [done|]. apply Hin. constructor. }
  rewrite dict_update_cons, IH; [done|].
  intros k Hk. rewrite Hkeys. apply Hin. by constructor.
Qed.

Lemma dict_update_fresh d u :
  NoDup (dict_keys u) -> (forall k, k ∈ dict_keys u -> k ∉ dict_keys d) ->
  dict_update d u = d ++ u.
Proof.
  unfold dict_keys. revert d.
  induction u as [|[k' v'] u IH]; intros d Hu Hfresh.
  - by rewrite app_nil_r.
  - csimpl in Hu. apply NoDup_cons in Hu as [Hk' Hu].
    rewrite dict_update_cons, dict_set_fresh by (apply Hfresh; constructor).
    rewrite IH; [by rewrite <- app_assoc|done|].
    intros k Hk. rewrite fmap_app, elem_of_app. intros [Hd|Hd].
    + by apply (Hfresh k); [constructor|].
    + apply list_elem_of_singleton in Hd. csimpl in Hd. by subst.
Qed.

Lemma dict_fromkeys_acc (done_ ks : list K) v :
  NoDup (done_ ++ ks) ->
  foldl (fun d k => dict_set k v d) (map (fun k => (k, v)) done_) ks
  = map (fun k => (k, v)) (done_ ++ ks).
Proof.
  revert done_. induction ks as [|k ks IH]; intros done_ Hnd; csimpl.
  - by rewrite app_nil_r.
  - rewrite dict_set_fresh.
    + replace (map (fun k0 => (k0, v)) done_ ++ [(k, v)])
        with (map (fun k0 => (k0, v)) (done_ ++ [k])) by by rewrite map_app.
      rewrite IH.
      * by rewrite <- app_assoc.
      * by rewrite <- app_assoc.
    + unfold dict_keys. rewrite map_map. csimpl.
      apply NoDup_app in Hnd as (_ & Hnd & _).
      intros Hin. apply (Hnd k); [|constructor].
      by rewrite map_id in Hin.
Qed.

Lemma dict_fromkeys_NoDup (ks : list K) v :
  NoDup ks -> dict_fromkeys ks v = map (fun k => (k, v)) ks.
Proof. intros Hks. by apply (dict_fromkeys_acc []). Qed.

Lemma dict_keys_fromkeys_NoDup (ks : list K) v :
  NoDup ks -> dict_keys (dict_fromkeys ks v) = ks.
Proof.
  intros Hks. rewrite dict_fromkeys_NoDup by done.
  unfold dict_keys. rewrite <- list_fmap_compose. apply list_fmap_id.
Qed.

Lemma dict_keys_reverse d : dict_keys (reverse d) = reverse (dict_keys d).
Proof. unfold dict_keys. by rewrite fmap_reverse. Qed.

Lemma dict_get_reverse_NoDup k d :
  NoDup (dict_keys d) -> dict_get k (reverse d) = dict_get k d.
Proof.
  intros Hnd. destruct (dict_get k d) as [v|] eqn:Hget.
  - apply dict_get_elem_NoDup.
    + rewrite dict_keys_reverse. by rewrite reverse_Permutation.
    + apply elem_of_reverse. by apply dict_get_Some_elem.
  - apply dict_get_None. rewrite dict_keys_reverse, elem_of_reverse.
    by apply dict_get_None.
Qed.

Lemma dict_keys_zip (ks : list K) (vs : list V) :
  length ks = length vs -> dict_keys (zip ks vs) = ks.
Proof. intros Hlen. unfold dict_keys. apply fst_zip. lia. Qed.

Lemma dict_values_zip (ks : list K) (vs : list V) :
  length ks = length vs -> dict_values (zip ks vs) = vs.
Proof. intros Hlen. unfold dict_values. apply snd_zip. lia. Qed.

(* writing a value under every key of a dictionary leaves exactly the
   values written *)
Lemma dict_update_overwrite d (ks : list K) (vs : list V) :
  NoDup ks -> dict_keys d = ks -> length ks = length vs ->
  dict_update d (zip ks vs) = zip ks vs.
Proof.
  intros Hnd Hkeys Hlen.
  assert (dict_keys (dict_update d (zip ks vs)) = ks) as Hkeys'.
  { rewrite dict_keys_update_within; [done|].
    intros k. by rewrite dict_keys_zip, Hkeys. }
  apply dict_ext.
  - by rewrite Hkeys'.
  - by rewrite Hkeys', dict_keys_zip.
  - intros k Hk. rewrite dict_get_update, dict_get_reverse_NoDup
      by by rewrite dict_keys_zip.
    destruct (dict_get k (zip ks vs)) eqn:Hget; [done|].
    apply dict_get_None in Hget. rewrite dict_keys_zip in Hget by done.
    by rewrite Hkeys' in Hk.
Qed.

End DictFacts.

Section ForSet.
Context {A V : Type}.
Implicit Types (key : A -> string) (g : A -> res V) (d : dict string V).

Lemma for_set_Ok key g d l d' :
  for_set key g d l = Ok d' <->
  exists vs, mapR g l = Ok vs /\ d' = dict_update d (zip (key <$> l) vs).
Proof.
  unfold for_set. revert d. induction l as [|x l IH]; intros d; simpl.
  - split.
    + intros [= <-]. by exists [].
    + intros (vs & [= <-] & ->). done.
  - split.
    + intros H. inv_res. apply IH in H as (vs & Hvs & ->).
      exists (a0 :: vs). rewrite Ha0, Hvs. done.
    + intros (vs & Hvs & ->). inv_res.
      rewrite Ha. simpl. apply IH. exists a0. done.
Qed.

Lemma for_set_fromkeys key g l d' (v0 : V) :
  NoDup (key <$> l) ->
  for_set key g (dict_fromkeys (key <$> l) v0) l = Ok d' ->
  exists vs, mapR g l = Ok vs /\ d' = zip (key <$> l) vs.
Proof.
  intros Hnd (vs & Hvs & ->)%for_set_Ok. exists vs. split; [done|].
  apply dict_update_overwrite; [done| |].
  - by apply dict_keys_fromkeys_NoDup.
  - rewrite length_fmap. symmetry. by eapply mapR_Ok_length.
Qed.

Lemma for_set_keys_within key g d l d' :
  (forall x, x ∈ l -> key x ∈ dict_keys d) ->
  for_set key g d l = Ok d' -> dict_keys d' = dict_keys d.
Proof.
  intros Hin (vs & Hvs & ->)%for_set_Ok.
  apply dict_keys_update_within. intros k Hk.
  unfold dict_keys in Hk. apply list_elem_of_fmap in Hk as ([k' v] & -> & Hk).
  apply elem_of_zip_l in Hk. apply list_elem_of_fmap in Hk as (x & -> & Hx).
  by apply Hin.
Qed.
End ForSet.

(** * Facts about sums *)

Lemma Qsum_app xs ys : Qsum (xs ++ ys) = (Qsum xs + Qsum ys)%Qc.
Proof.
  unfold Qsum. induction xs as [|x xs IH]; simpl.
  - by rewrite Qcplus_0_l.
  - by rewrite IH, Qcplus_assoc.
Qed.

Lemma Qsum_Permutation xs ys : xs ≡ₚ ys -> Qsum xs = Qsum ys.
Proof.
  unfold Qsum. induction 1 as [|x xs ys _ IH|x y xs|xs ys zs _ IH1 _ IH2]; simpl.
  - done.
  - by rewrite IH.
  - rewrite !Qcplus_assoc. f_equal. apply Qcplus_comm.
  - by rewrite IH1.
Qed.

Lemma Qsum_replicate_0 n : Qsum (replicate n (Q2Qc 0)) = Q2Qc 0.
Proof.
  unfold Qsum. induction n as [|n IH]; simpl; [done|].
  by rewrite IH, Qcplus_0_l.
Qed.

Lemma Qsum_zip_with_plus xs ys :
  length xs = length ys ->
  Qsum (zip_with Qcplus xs ys) = (Qsum xs + Qsum ys)%Qc.
Proof.
  unfold Qsum. revert ys. induction xs as [|x xs IH]; intros [|y ys] Hlen;
    try discriminate Hlen; cbn [zip_with foldr].
  - by rewrite Qcplus_0_l.
  - injection Hlen as Hlen. rewrite IH by done. ring.
Qed.

Lemma col_sums_length n rows : uniform n rows -> length (col_sums n rows) = n.
Proof.
  induction 1 as [|r rows Hr _ IH]; simpl.
  - apply length_replicate.
  - rewrite length_zip_with. lia.
Qed.

Lemma Qsum_col_sums n rows :
  uniform n rows -> Qsum (col_sums n rows) = Qsum (concat rows).
Proof.
  induction 1 as [|r rows Hr Hrows IH]; simpl.
  - apply Qsum_replicate_0.
  - rewrite Qsum_zip_with_plus, Qsum_app, IH; [done|].
    by rewrite col_sums_length.
Qed.

Lemma same_length_uniform rows :
  same_length rows = true <-> exists n, uniform n rows.
Proof.
  destruct rows as [|r rows]; simpl.
  - split; [|done]. intros _. exists 0%nat. constructor.
  - rewrite forallb_forall. split.
    + intros Hall. exists (length r). constructor; [done|].
      apply Forall_forall. intros r' Hr'.
      apply list_elem_of_In in Hr'. apply Hall in Hr'.
      by apply bool_decide_eq_true in Hr'.
    + intros (n & Hn). apply Forall_cons in Hn as [Hr Hn].
      intros r' Hr'. apply bool_decide_eq_true.
      apply list_elem_of_In in Hr'.
      rewrite Forall_forall in Hn. rewrite Hr. by apply Hn.
Qed.

Lemma np_sum_all_uniform n rows :
  uniform n rows -> np_sum_all rows = Ok (Qsum (concat rows)).
Proof.
  intros Hn. unfold np_sum_all.
  destruct (same_length rows) eqn:Hsl; [done|].
  assert (same_length rows = true) by (apply same_length_uniform; eauto).
  congruence.
Qed.

Lemma np_sum_all_Ok rows s :
  np_sum_all rows = Ok s <-> (exists n, uniform n rows) /\ s = Qsum (concat rows).
Proof.
  unfold np_sum_all. rewrite <- same_length_uniform.
  destruct (same_length rows); split.
  - intros [= <-]. done.
  - intros [_ ->]. done.
  - done.
  - intros [[=] _].
Qed.

Lemma np_sum_axis0_nonempty r rows v :
  np_sum_axis0 (r :: rows) = Ok v ->
  uniform (length r) (r :: rows) /\ v = NpArr (col_sums (length r) (r :: rows)).
Proof.
  unfold np_sum_axis0. destruct (same_length (r :: rows)) eqn:Hsl; [|done].
  intros [= <-]. split; [|done].
  apply same_length_uniform in Hsl as (n & Hn).
  pose proof Hn as Hn'. apply Forall_cons in Hn' as [<- _]. done.
Qed.

(** * What the constructor returns *)

Section Constructor.
Context `{!Oracles}.

Lemma new_Ok z seg tf d pc vb r :
  DVec.new z seg tf d pc vb = Ok r ->
  zoning_system r = z
  /\ segmentation r = seg
  /\ DVec._validate_time_format seg tf = Ok (_time_format r)
  /\ DVec._dict_to_dvec z seg d DVec.infill_default = Ok (_data r)
  /\ process_count r = DVec.set_process_count pc
  /\ verbose r = vb.
Proof.
  unfold DVec.new, DVec.__init__. intros Hr. inv_res. simpl. done.
Qed.

Lemma validate_enum seg t :
  DVec._validate_time_format seg (TfEnum t) = Ok (Some t).
Proof. unfold DVec._validate_time_format. by destruct (has_time_period_segments seg). Qed.

(* the name of a time format is read back as that time format *)
Lemma validate_name seg t :
  DVec._validate_time_format seg (TfStr (TimeFormat_.name t)) = Ok (Some t).
Proof.
  unfold DVec._validate_time_format.
  destruct (has_time_period_segments seg); by destruct t.
Qed.

Lemma validate_property seg (self : DVector) tf :
  DVec._validate_time_format seg (DVec.time_format self) = Ok tf ->
  tf = _time_format self.
Proof.
  unfold DVec.time_format. destruct (_time_format self) as [t|].
  - rewrite validate_name. by intros [= <-].
  - unfold DVec._validate_time_format.
    destruct (has_time_period_segments seg); simpl; [done|]. by intros [= <-].
Qed.

Lemma validate_None seg tf :
  DVec._validate_time_format seg TfNone = Ok tf ->
  tf = None /\ has_time_period_segments seg = false.
Proof.
  unfold DVec._validate_time_format.
  destruct (has_time_period_segments seg); simpl; [done|]. by intros [= <-].
Qed.

End Constructor.

(** * The infill of missing segments *)

Lemma elem_of_not_in {V} seg (d : dict string V) k :
  k ∈ DVec.not_in seg d <-> k ∈ segment_names seg /\ k ∉ dict_keys d.
Proof.
  unfold DVec.not_in. rewrite list_elem_of_filter, elem_of_remove_dups, dict_get_None.
  tauto.
Qed.

Lemma not_in_NoDup {V} seg (d : dict string V) : NoDup (DVec.not_in seg d).
Proof. unfold DVec.not_in. apply NoDup_filter, NoDup_remove_dups. Qed.

Lemma not_in_nil {V} seg (d : dict string V) :
  (forall k, k ∈ segment_names seg -> k ∈ dict_keys d) -> DVec.not_in seg d = [].
Proof.
  intros Hall. destruct (DVec.not_in seg d) as [|k l] eqn:Hl; [done|].
  assert (k ∈ DVec.not_in seg d) as Hk by (rewrite Hl; constructor).
  apply elem_of_not_in in Hk as [Hk Hk']. exfalso. by apply Hk', Hall.
Qed.

Lemma is_correct_naming_spec seg l :
  is_correct_naming seg l = true <-> forall k, k ∈ l -> k ∈ segment_names seg.
Proof.
  unfold is_correct_naming. rewrite forallb_forall. split.
  - intros Hall k Hk. apply list_elem_of_In, Hall in Hk. by apply bool_decide_eq_true in Hk.
  - intros Hall k Hk. apply bool_decide_eq_true, Hall. by apply list_elem_of_In.
Qed.

Lemma copy_method_Ok a v : copy_method a = Ok v -> v = a.
Proof. destruct a; simpl; congruence. Qed.

Lemma mapR_const_Ok {A B} (m : res B) (l : list A) (vs : list B) :
  mapR (fun _ => m) l = Ok vs ->
  (l = [] /\ vs = []) \/ exists v, m = Ok v /\ vs = replicate (length l) v.
Proof.
  revert vs. induction l as [|x l IH]; intros vs Hvs; simpl in Hvs.
  - left. by injection Hvs as <-.
  - right. apply bind_Ok in Hvs as (v & Hv & Hvs).
    apply bind_Ok in Hvs as (vs' & Hvs' & Hvs).
    unfold mret, res_ret in Hvs. injection Hvs as <-.
    exists v. split; [done|].
    apply IH in Hvs' as [[-> ->]|(v' & Hv' & ->)]; [done|].
    rewrite Hv in Hv'. by injection Hv' as <-.
Qed.

Lemma zip_replicate_r {A B} (l : list A) (v : B) :
  zip l (replicate (length l) v) = map (fun x => (x, v)) l.
Proof. induction l as [|x l IH]; simpl; [done|]. by rewrite IH. Qed.

(* the loop that infills the missing segments *)
Lemma infill_loop_Ok dv (d : dict string value) l d' :
  for_set id (fun _ => copy_method dv) d l = Ok d' ->
  d' = dict_update d (map (fun n => (n, dv)) l)
  /\ (l = [] \/ copy_method dv = Ok dv).
Proof.
  intros (vs & Hvs & ->)%for_set_Ok. rewrite list_fmap_id.
  apply mapR_const_Ok in Hvs as [[-> ->]|(v & Hv & ->)].
  - split; [done|by left].
  - pose proof (copy_method_Ok _ _ Hv) as ->.
    rewrite zip_replicate_r. split; [done|by right].
Qed.

Lemma infill_loop_complete dv (d : dict string value) :
  for_set id (fun _ => copy_method dv) d [] = Ok d.
Proof. done. Qed.

Lemma dict_keys_map_pair {V} (l : list string) (v : V) :
  dict_keys (map (fun n => (n, v)) l) = l.
Proof.
  unfold dict_keys. rewrite <- list_fmap_compose. apply list_fmap_id.
Qed.

Lemma dict_to_dvec_Ok z seg d infill d' :
  DVec._dict_to_dvec z seg d infill = Ok d' ->
  d' = d ++ map (fun n => (n, DVec.default_val z infill)) (DVec.not_in seg d)
  /\ (DVec.not_in seg d = []
      \/ copy_method (DVec.default_val z infill) = Ok (DVec.default_val z infill))
  /\ (forall k, k ∈ dict_keys d' <-> k ∈ segment_names seg).
Proof.
  unfold DVec._dict_to_dvec. intros Hd.
  apply bind_Ok in Hd as (d2 & Hloop & Hd).
  destruct (is_correct_naming seg (dict_keys d2)) eqn:Hnames; [|discriminate Hd].
  injection Hd as <-.
  apply infill_loop_Ok in Hloop as [Hd2 Hcopy].
  rewrite dict_update_fresh in Hd2.
  - subst d2. split_and!; [done..|]. intros k. split.
    + by apply is_correct_naming_spec.
    + intros Hk. unfold dict_keys. rewrite fmap_app, elem_of_app.
      destruct (decide (k ∈ dict_keys d)) as [Hin|Hout]; [by left|right].
      fold (dict_keys (map (fun n => (n, DVec.default_val z infill)) (DVec.not_in seg d))).
      rewrite dict_keys_map_pair. by apply elem_of_not_in.
  - rewrite dict_keys_map_pair. apply not_in_NoDup.
  - intros k. rewrite dict_keys_map_pair. by intros [_ Hk]%elem_of_not_in.
Qed.

(* a dictionary that already has every segment, and only segments, is
   kept as it is *)
Lemma dict_to_dvec_complete z seg d infill :
  (forall k, k ∈ dict_keys d <-> k ∈ segment_names seg) ->
  DVec._dict_to_dvec z seg d infill = Ok d.
Proof.
  intros Hkeys. unfold DVec._dict_to_dvec.
  rewrite not_in_nil by (intros k; apply Hkeys). simpl.
  assert (is_correct_naming seg (dict_keys d) = true) as ->; [|done].
  apply is_correct_naming_spec. intros k. apply Hkeys.
Qed.

(** * Multiplication and the zoning systems of its operands *)

(** C7.  For a product [a * b]: operands with different, non-null zoning
    systems make the call raise ZoningError, and no vector is returned;
    whenever a vector is returned, it keeps the common zoning system of
    operands that agree, and the zoning system of the other operand when
    one operand has none (so it has none when neither has one). *)
Theorem mul_zoning_compatibility `{!Oracles} (a b : DVector) :
  (forall za zb, zoning_system a = Some za -> zoning_system b = Some zb ->
                 za <> zb -> DVec.__mul__ a b = Raise ZoningError)
  /\ (forall r, DVec.__mul__ a b = Ok r ->
        (zoning_system a = zoning_system b -> zoning_system r = zoning_system a)
        /\ (zoning_system a = None -> zoning_system r = zoning_system b)
        /\ (zoning_system b = None -> zoning_system r = zoning_system a)).
Proof.
  split.
  - intros za zb Ha Hb Hne. unfold DVec.__mul__. rewrite Ha, Hb.
    rewrite decide_False by congruence. done.
  - intros r Hr. unfold DVec.__mul__ in Hr.
    apply bind_Ok in Hr as (z & Hz & Hr).
    apply bind_Ok in Hr as ([md rs] & _ & Hr).
    apply bind_Ok in Hr as (dd & _ & Hr).
    apply new_Ok in Hr as (-> & _).
    destruct (decide (zoning_system a = zoning_system b)) as [Heq|Hne].
    + injection Hz as <-. split_and!; [done|congruence|congruence].
    + destruct (zoning_system a) as [za|], (zoning_system b) as [zb|];
        try discriminate Hz; injection Hz as <-;
        split_and!; congruence.
Qed.

Lemma mul_zoning_compatibility_witness :
  @DVec.__mul__ Examples.oracles Examples.pop
     (Examples.mk (Some Examples.zone2') Examples.seg_m None []) = Raise ZoningError
  /\ exists r, @DVec.__mul__ Examples.oracles Examples.pop Examples.rate = Ok r
               /\ zoning_system r = Some Examples.zone2.
Proof.
  split.
  - apply (proj1 (@mul_zoning_compatibility Examples.oracles Examples.pop _)
                 Examples.zone2 Examples.zone2');
      [reflexivity|reflexivity|discriminate].
  - destruct (@DVec.__mul__ Examples.oracles Examples.pop Examples.rate) as [r|e] eqn:Hr;
      [|vm_compute in Hr; discriminate Hr].
    exists r. split; [reflexivity|].
    apply (proj2 (@mul_zoning_compatibility Examples.oracles Examples.pop Examples.rate) r Hr).
    reflexivity.
Defined.

(** * Expanding a segmentation *)

Lemma Qcabs_nonneg x : (Q2Qc 0 <= Qcabs x)%Qc.
Proof.
  unfold Qcabs. destruct (decide (x < Q2Qc 0)%Qc) as [Hlt|Hge].
  - apply Qclt_le_weak, Qcopp_le_compat in Hlt. exact Hlt.
  - by apply Qcnot_lt_le.
Qed.

Lemma Qcmax_l x y : (x <= Qcmax x y)%Qc.
Proof.
  unfold Qcmax. destruct (decide (x <= y)%Qc); [done|apply Qcle_refl].
Qed.

Lemma Qcmax_0_r x : (Q2Qc 0 <= x)%Qc -> Qcmax x (Q2Qc 0) = x.
Proof.
  intros Hx. unfold Qcmax. destruct (decide (x <= Q2Qc 0)%Qc) as [Hle|_]; [|done].
  by apply Qcle_antisym.
Qed.

(* math.isclose with the default tolerances of sum_is_close *)
Lemma isclose_default a b :
  isclose a b DVec.rel_tol_default DVec.abs_tol_default = true <->
  (Qcabs (a - b) <= Q2Qc (1 # 10000) * Qcmax (Qcabs a) (Qcabs b))%Qc.
Proof.
  unfold isclose, DVec.rel_tol_default, DVec.abs_tol_default.
  rewrite bool_decide_eq_true, Qcmax_0_r; [done|].
  apply Qcmult_nonneg_nonneg; [done|].
  eapply Qcle_trans; [apply (Qcabs_nonneg a)|apply Qcmax_l].
Qed.

(** C4.  A vector returned by [expand_segmentation] has a total that is
    close to the total of [self] under the default tolerances (relative
    1e-4, absolute 0); and when the expanded vector has been built and its
    total is not close to the total of [self], the call raises ValueError
    and returns no vector. *)
Theorem expand_segmentation_keeps_total `{!Oracles} (self expansion_dvec : DVector) :
  (forall r, DVec.expand_segmentation self expansion_dvec = Ok r ->
     exists s s', DVec.sum self = Ok s /\ DVec.sum r = Ok s'
       /\ isclose s s' DVec.rel_tol_default DVec.abs_tol_default = true
       /\ (Qcabs (s - s') <= Q2Qc (1 # 10000) * Qcmax (Qcabs s) (Qcabs s'))%Qc)
  /\ (forall e s s', DVec.expanded_dvec self expansion_dvec = Ok e ->
        DVec.sum self = Ok s -> DVec.sum e = Ok s' ->
        isclose s s' DVec.rel_tol_default DVec.abs_tol_default = false ->
        DVec.expand_segmentation self expansion_dvec = Raise ValueError).
Proof.
  split.
  - intros r Hr. unfold DVec.expand_segmentation in Hr.
    apply bind_Ok in Hr as (e & He & Hr).
    apply bind_Ok in Hr as (close & Hclose & Hr).
    destruct close; [|discriminate Hr]. injection Hr as <-.
    unfold DVec.sum_is_close in Hclose.
    apply bind_Ok in Hclose as (s & Hs & Hclose).
    apply bind_Ok in Hclose as (s' & Hs' & Hclose).
    injection Hclose as Hclose.
    exists s, s'. split_and!; [done..|]. by apply isclose_default.
  - intros e s s' He Hs Hs' Hfar. unfold DVec.expand_segmentation.
    rewrite He. simpl. unfold DVec.sum_is_close. rewrite Hs, Hs'. simpl.
    by rewrite Hfar.
Qed.

Lemma expand_segmentation_keeps_total_witness :
  (exists r, @DVec.expand_segmentation Examples.oracles Examples.pop Examples.halves = Ok r
             /\ exists s s', @DVec.sum Examples.pop = Ok s /\ @DVec.sum r = Ok s'
                  /\ isclose s s' DVec.rel_tol_default DVec.abs_tol_default = true)
  /\ @DVec.expand_segmentation Examples.oracles Examples.pop Examples.rate
     = Raise ValueError.
Proof.
  split.
  - destruct (@DVec.expand_segmentation Examples.oracles Examples.pop Examples.halves)
      as [r|err] eqn:Hr; [|vm_compute in Hr; discriminate Hr].
    exists r. split; [reflexivity|].
    destruct (proj1 (@expand_segmentation_keeps_total Examples.oracles
                       Examples.pop Examples.halves) r Hr)
      as (s & s' & Hs & Hs' & Hclose & _).
    exists s, s'. split_and!; assumption.
  - destruct (@DVec.expanded_dvec Examples.oracles Examples.pop Examples.rate)
      as [e|err] eqn:He; [|vm_compute in He; discriminate He].
    destruct (@DVec.sum Examples.pop) as [s|err] eqn:Hs;
      [|vm_compute in Hs; discriminate Hs].
    destruct (@DVec.sum e) as [s'|err] eqn:Hs';
      [|vm_compute in He; injection He as <-; vm_compute in Hs'; discriminate Hs'].
    apply (proj2 (@expand_segmentation_keeps_total Examples.oracles
                    Examples.pop Examples.rate) e s s' He Hs Hs').
    vm_compute in He. injection He as <-.
    vm_compute in Hs. injection Hs as <-.
    vm_compute in Hs'. injection Hs' as <-.
    vm_compute. reflexivity.
Defined.

(** C10.  A vector returned by [expand_segmentation] has no time format,
    whatever the time formats of [self] and of [expansion_dvec]: the
    expanded vector is constructed without one.  Hence, when the expanded
    segmentation has time-period segments, the call raises and returns no
    vector. *)
Theorem expand_segmentation_drops_time_format `{!Oracles}
    (self expansion_dvec : DVector) :
  (forall r, DVec.expand_segmentation self expansion_dvec = Ok r ->
     _time_format r = None /\ DVec.time_format r = TfNone)
  /\ (forall expand_dict return_seg,
        seg_expand (segmentation self) (segmentation expansion_dvec)
          = Ok (expand_dict, return_seg) ->
        has_time_period_segments return_seg = true ->
        raises (DVec.expand_segmentation self expansion_dvec)).
Proof.
  assert (forall e, DVec.expanded_dvec self expansion_dvec = Ok e ->
            _time_format e = None
            /\ exists d, seg_expand (segmentation self) (segmentation expansion_dvec)
                           = Ok (d, segmentation e)
                         /\ has_time_period_segments (segmentation e) = false) as Hbuilt.
  { intros e He. unfold DVec.expanded_dvec in He.
    apply bind_Ok in He as (_ & _ & He).
    apply bind_Ok in He as ([d rs] & Hexp & He).
    apply bind_Ok in He as (dd & _ & He).
    apply new_Ok in He as (_ & Hseg & Htf & _).
    apply validate_None in Htf as [Htf Htp]. subst rs. eauto. }
  split.
  - intros r Hr. unfold DVec.expand_segmentation in Hr.
    apply bind_Ok in Hr as (e & He & Hr).
    apply bind_Ok in Hr as (close & _ & Hr).
    destruct close; [|discriminate Hr]. injection Hr as <-.
    apply Hbuilt in He as [Htf _]. unfold DVec.time_format. by rewrite Htf.
  - intros d rs Hexp Htp.
    destruct (DVec.expand_segmentation self expansion_dvec) as [r|err] eqn:Hr;
      [|by exists err].
    unfold DVec.expand_segmentation in Hr.
    apply bind_Ok in Hr as (e & He & _).
    apply Hbuilt in He as (_ & d' & Hexp' & Htp').
    rewrite Hexp in Hexp'. injection Hexp' as _ Hrs. congruence.
Qed.

Lemma expand_segmentation_drops_time_format_witness :
  (exists r, @DVec.expand_segmentation Examples.oracles Examples.pop_day Examples.halves
               = Ok r
             /\ _time_format Examples.pop_day = Some AVG_DAY
             /\ _time_format r = None)
  /\ raises (@DVec.expand_segmentation Examples.oracles Examples.pop_day Examples.tp_halves).
Proof.
  split.
  - destruct (@DVec.expand_segmentation Examples.oracles Examples.pop_day Examples.halves)
      as [r|err] eqn:Hr; [|vm_compute in Hr; discriminate Hr].
    exists r. split_and!; [reflexivity..|].
    apply (proj1 (@expand_segmentation_drops_time_format Examples.oracles
                    Examples.pop_day Examples.halves) r Hr).
  - destruct (@seg_expand Examples.oracles (segmentation Examples.pop_day)
                (segmentation Examples.tp_halves)) as [[d rs]|err] eqn:Hexp;
      [|discriminate Hexp].
    apply (proj2 (@expand_segmentation_drops_time_format Examples.oracles
                    Examples.pop_day Examples.tp_halves) d rs Hexp).
    injection Hexp as _ <-. reflexivity.
Defined.

(** * The constructor and the caller's dictionary *)

Lemma heap_at_alter f (r : Store.ref) (h : Store.heap) :
  (r < length h)%nat -> Store.heap_at (alter f r h) r = f (Store.heap_at h r).
Proof.
  intros Hr. unfold Store.heap_at. rewrite list_lookup_alter_eq.
  destruct (h !! r) as [d|] eqn:Hd; [done|].
  apply lookup_ge_None in Hd. lia.
Qed.

Lemma store_infill_loop dv (r : Store.ref) l (h : Store.heap) :
  Store.for_each (fun name => Store.bind (Store.lift (copy_method dv))
                                         (fun v => Store.setitem r name v)) l h
  = match copy_method dv with
    | Ok v => (Ok tt, alter (fun d => dict_update d (map (fun n => (n, v)) l)) r h)
    | Raise e => match l with [] => (Ok tt, h) | _ => (Raise e, h) end
    end.
Proof.
  destruct (copy_method dv) as [v|e] eqn:Hcopy.
  - revert h. induction l as [|x l IH]; intros h; simpl.
    + unfold Store.ret. by rewrite list_alter_id.
    + unfold Store.bind at 1. unfold Store.bind at 1. unfold Store.lift at 1.
      unfold Store.setitem at 1. rewrite IH, list_alter_alter_eq. done.
  - destruct l as [|x l]; simpl; [done|].
    unfold Store.bind at 1. unfold Store.bind at 1. unfold Store.lift at 1. done.
Qed.

(* on a live reference, the constructor's conversion computes what the
   value-passing one computes and writes it back under that reference *)
Lemma infill_loop_run dv (d : dict string value) l :
  l = [] \/ copy_method dv = Ok dv ->
  for_set id (fun _ => copy_method dv) d l
  = Ok (dict_update d (map (fun n => (n, dv)) l)).
Proof.
  intros [->|Hcopy]; [done|].
  apply for_set_Ok. exists (replicate (length l) dv).
  rewrite list_fmap_id, zip_replicate_r. split; [|done].
  apply mapR_Ok. induction l; simpl; by constructor.
Qed.

Lemma store_dict_to_dvec_Ok z seg (r r' : Store.ref) infill (h h' : Store.heap) :
  (r < length h)%nat ->
  Store._dict_to_dvec z seg r infill h = (Ok r', h') ->
  r' = r
  /\ exists d', DVec._dict_to_dvec z seg (Store.heap_at h r) infill = Ok d'
                /\ h' = <[r := d']> h.
Proof.
  intros Hr. unfold Store._dict_to_dvec.
  unfold Store.bind at 1. unfold Store.read at 1.
  unfold Store.bind at 1. rewrite store_infill_loop.
  set (d := Store.heap_at h r). set (dv := DVec.default_val z infill).
  assert (forall d2, (DVec.not_in seg d = [] \/ copy_method dv = Ok dv) ->
            d2 = dict_update d (map (fun n => (n, dv)) (DVec.not_in seg d)) ->
            is_correct_naming seg (dict_keys d2) = true ->
            DVec._dict_to_dvec z seg d infill = Ok d2) as Hpure.
  { intros d2 Hcase -> Hnames. unfold DVec._dict_to_dvec. fold dv.
    rewrite infill_loop_run by done. simpl. by rewrite Hnames. }
  destruct (copy_method dv) as [v|e] eqn:Hcopy.
  - pose proof (copy_method_Ok _ _ Hcopy) as Hv. rewrite Hv in *. clear Hv.
    unfold Store.bind, Store.read. rewrite heap_at_alter by done. fold d.
    destruct (is_correct_naming seg _) eqn:Hnames; unfold Store.ret, Store.lift; [|done].
    intros [= <- <-]. split; [done|]. eexists. split.
    + apply Hpure; [by right|done..].
    + rewrite list_insert_alter. apply list_alter_ext; [|done].
      intros d0 Hd0. unfold d, Store.heap_at. by rewrite Hd0.
  - destruct (DVec.not_in seg d) as [|n l] eqn:Hl; [|done].
    unfold Store.bind, Store.read. fold d.
    destruct (is_correct_naming seg _) eqn:Hnames; unfold Store.ret, Store.lift; [|done].
    intros [= <- <-]. split; [done|]. exists d. split.
    + apply Hpure; [by left|done..].
    + symmetry. apply list_insert_id. unfold d, Store.heap_at.
      destruct (h !! r) as [d0|] eqn:Hd; [done|].
      apply lookup_ge_None in Hd. lia.
Qed.

(** C9.  Constructing a DVector from a dictionary writes into the
    caller's dictionary object: after a construction that succeeds, the
    new vector's data is the reference it was given, no other dictionary
    has changed and none was created, the entries the caller had put in
    are still there, every segment name that was missing is now bound to
    the infill default, and the key set of the caller's dictionary is the
    set of the segmentation's segment names. *)
Theorem constructor_writes_into_the_callers_dict `{!Oracles}
    zoning seg (import_data : Store.ref) time_format df_chunk_size infill
    process_count verbose (h h' : Store.heap) (self : Store.DVectorObj) :
  (import_data < length h)%nat ->
  Store.__init__ zoning seg import_data time_format df_chunk_size infill
                 process_count verbose h = (Ok self, h') ->
  Store.o_data self = import_data
  /\ length h' = length h
  /\ (forall r, r <> import_data -> h' !! r = h !! r)
  /\ (forall k v, dict_get k (Store.heap_at h import_data) = Some v ->
                  dict_get k (Store.heap_at h' import_data) = Some v)
  /\ (forall k, k ∈ segment_names seg ->
                dict_get k (Store.heap_at h import_data) = None ->
                dict_get k (Store.heap_at h' import_data)
                  = Some (DVec.default_val zoning infill))
  /\ (forall k, k ∈ dict_keys (Store.heap_at h' import_data) <-> k ∈ segment_names seg).
Proof.
  intros Hr Hinit. unfold Store.__init__ in Hinit.
  unfold Store.bind at 1 in Hinit. unfold Store.lift in Hinit.
  destruct (DVec._validate_time_format seg time_format) as [tf|e]; [|discriminate Hinit].
  unfold Store.bind in Hinit.
  destruct (Store._dict_to_dvec zoning seg import_data infill h) as [[r'|e] h1] eqn:Hconv;
    [|discriminate Hinit].
  unfold Store.ret in Hinit. injection Hinit as <- <-.
  apply store_dict_to_dvec_Ok in Hconv as (-> & d' & Hd' & ->); [|done].
  apply dict_to_dvec_Ok in Hd' as (Hd' & _ & Hkeys).
  assert (Store.heap_at (<[import_data:=d']> h) import_data = d') as Hat.
  { unfold Store.heap_at. by rewrite list_lookup_insert_eq. }
  rewrite Hat. split_and!.
  - done.
  - apply length_insert.
  - intros r Hne. by apply list_lookup_insert_ne.
  - intros k v Hk. rewrite Hd', dict_get_app, Hk. done.
  - intros k Hk Hnone. rewrite Hd', dict_get_app, Hnone.
    apply dict_get_elem_NoDup.
    + rewrite dict_keys_map_pair. apply not_in_NoDup.
    + apply list_elem_of_fmap. exists k. split; [done|].
      apply elem_of_not_in. split; [done|]. by apply dict_get_None.
  - done.
Qed.

Lemma constructor_writes_into_the_callers_dict_witness :
  let h : Store.heap := [[("2", Examples.arr [5; 0])]; []] in
  exists self h',
    @Store.__init__ Examples.oracles (Some Examples.zone2) Examples.seg_p 0%nat
       TfNone None DVec.infill_default 0 false h = (Ok self, h')
    /\ Store.o_data self = 0%nat
    /\ dict_keys (Store.heap_at h' 0%nat) = ["2"; "1"]
    /\ dict_get "1" (Store.heap_at h' 0%nat) = Some (Examples.arr [0; 0])
    /\ h' !! 1%nat = Some [].
Proof.
  intros h.
  destruct (@Store.__init__ Examples.oracles (Some Examples.zone2) Examples.seg_p 0%nat
              TfNone None DVec.infill_default 0 false h) as [[self|e] h'] eqn:Hinit;
    [|vm_compute in Hinit; discriminate Hinit].
  exists self, h'. split; [reflexivity|].
  destruct (@constructor_writes_into_the_callers_dict Examples.oracles
              (Some Examples.zone2) Examples.seg_p 0%nat TfNone None DVec.infill_default
              0 false h h' self ltac:(simpl; lia) Hinit)
    as (Hdata & _ & Hframe & _ & Hinfill & _).
  split_and!.
  - exact Hdata.
  - vm_compute in Hinit. injection Hinit as _ <-. reflexivity.
  - apply (Hinfill "1"); [|reflexivity]. apply list_elem_of_here.
  - rewrite Hframe by discriminate. reflexivity.
Defined.

(** * Aggregation keeps the total *)

Lemma rows_of_segments data ins rows :
  mapR (fun x => v ← dict_getitem x data; flatten v) ins = Ok rows ->
  rows = row_of data <$> ins /\ Forall (fun k => k ∈ dict_keys data) ins.
Proof.
  revert rows. induction ins as [|k ins IH]; intros rows Hrows; simpl in Hrows.
  - injection Hrows as <-. by split.
  - apply bind_Ok in Hrows as (row & Hrow & Hrows).
    apply bind_Ok in Hrows as (rows' & Hrows' & Hrows).
    unfold mret, res_ret in Hrows. injection Hrows as <-.
    apply IH in Hrows' as [-> Hin].
    apply bind_Ok in Hrow as (v & Hv & Hrow).
    unfold dict_getitem in Hv. destruct (dict_get k data) as [v'|] eqn:Hget; [|done].
    injection Hv as ->. split.
    + csimpl. f_equal. unfold row_of. by rewrite Hget, Hrow.
    + constructor; [|done]. apply dict_get_is_Some. by rewrite Hget.
Qed.

Lemma rows_of_values_acc pre data R :
  NoDup (dict_keys (pre ++ data)) ->
  mapR flatten (dict_values data) = Ok R ->
  R = row_of (pre ++ data) <$> dict_keys data.
Proof.
  revert pre R. induction data as [|[k v] data IH]; intros pre R Hnd HR; simpl in HR.
  - by injection HR as <-.
  - apply bind_Ok in HR as (row & Hrow & HR).
    apply bind_Ok in HR as (R' & HR' & HR).
    unfold mret, res_ret in HR. injection HR as <-. csimpl. f_equal.
    + unfold row_of. rewrite dict_get_app.
      assert (dict_get k pre = None) as ->.
      { apply dict_get_None. unfold dict_keys in Hnd. rewrite fmap_app in Hnd.
        apply NoDup_app in Hnd as (_ & Hnd & _). intros Hk.
        apply (Hnd k Hk). constructor. }
      csimpl. rewrite decide_True by done. by rewrite Hrow.
    + replace (pre ++ (k, v) :: data) with ((pre ++ [(k, v)]) ++ data)
        by by rewrite <- app_assoc.
      apply IH; [|done]. by rewrite <- app_assoc.
Qed.

Lemma rows_of_values data R :
  NoDup (dict_keys data) ->
  mapR flatten (dict_values data) = Ok R -> R = row_of data <$> dict_keys data.
Proof. apply (rows_of_values_acc []). Qed.

Lemma Qsum_concat_Permutation {A} (f : A -> list Qc) l l' :
  l ≡ₚ l' -> Qsum (concat (f <$> l)) = Qsum (concat (f <$> l')).
Proof.
  induction 1 as [|x l l' _ IH|x y l|l l' l'' _ IH1 _ IH2]; csimpl.
  - done.
  - by rewrite !Qsum_app, IH.
  - rewrite !Qsum_app. ring.
  - by rewrite IH1.
Qed.

Lemma uniform_rows_of data n ins :
  uniform n (row_of data <$> dict_keys data) ->
  Forall (fun k => k ∈ dict_keys data) ins ->
  uniform n (row_of data <$> ins).
Proof.
  unfold uniform. rewrite !Forall_fmap, !Forall_forall.
  intros Hall Hin k Hk. apply Hall, Hin, Hk.
Qed.

Lemma group_sums data n (agg : dict string (list string)) vs :
  uniform n (row_of data <$> dict_keys data) ->
  Forall (fun g => g <> []) (dict_values agg) ->
  Forall2 (fun item v => DVec.sum_segments data item.2 = Ok v) agg vs ->
  mapR flatten vs = Ok ((fun item => col_sums n (row_of data <$> item.2)) <$> agg)
  /\ Forall (fun k => k ∈ dict_keys data) (concat (dict_values agg)).
Proof.
  intros Hn Hne Hvs. rewrite mapR_Ok.
  induction Hvs as [|[o ins] v agg vs Hv _ IH].
  - split; [constructor|]. by constructor.
  - apply Forall_cons in Hne as [Hins Hne]. destruct (IH Hne) as [Hflat Hin].
    unfold DVec.sum_segments in Hv.
    apply bind_Ok in Hv as (in_lst & Hrows & Hv).
    apply rows_of_segments in Hrows as [-> Hin'].
    pose proof (uniform_rows_of _ _ _ Hn Hin') as Huni.
    destruct ins as [|k ins]; [done|].
    apply np_sum_axis0_nonempty in Hv as [_ ->].
    apply Forall_cons in Huni as [Hk Huni]. rewrite Hk. split.
    + rewrite fmap_cons. constructor; done.
    + change (dict_values ((o, k :: ins) :: agg))
        with ((k :: ins) :: dict_values agg).
      rewrite concat_cons. by apply Forall_app.
Qed.

Lemma Qsum_group_rows data n (agg : dict string (list string)) :
  Forall (fun k => k ∈ dict_keys data) (concat (dict_values agg)) ->
  uniform n (row_of data <$> dict_keys data) ->
  Qsum (concat ((fun item => col_sums n (row_of data <$> item.2)) <$> agg))
  = Qsum (concat (row_of data <$> concat (dict_values agg))).
Proof.
  intros Hin Hn. induction agg as [|[o ins] agg IH]; csimpl in *; [done|].
  apply Forall_app in Hin as [Hins Hin].
  rewrite fmap_app, concat_app, !Qsum_app, IH by done. f_equal.
  apply Qsum_col_sums. by apply uniform_rows_of.
Qed.

Lemma Qsum_concat_replicate_0 n m :
  Qsum (concat (replicate m (replicate n (Q2Qc 0)))) = Q2Qc 0.
Proof.
  induction m as [|m IH]; csimpl; [done|].
  by rewrite Qsum_app, IH, Qsum_replicate_0.
Qed.

Lemma mapR_flatten_replicate m xs :
  mapR flatten (replicate m (NpArr xs)) = Ok (replicate m xs).
Proof. apply mapR_Ok. induction m as [|m IH]; csimpl; by constructor. Qed.

(** C2, as amended.  Whenever the aggregation mapping partitions the
    segment keys of [v] (every key of [v] is listed exactly once, in a
    group that is not empty), and the arrays of a zoned [v] have the
    length of its zoning system, the vector that [aggregate] returns has
    the total of [v] in exact arithmetic: the two totals are sums of the
    same numbers, taken in two orders.  (On doubles they differ by the
    rounding of the additions, see the counterexample below.) *)
Theorem aggregate_keeps_total `{!Oracles} (v : DVector)
    (out_segmentation : SegmentationLevel) (split_tfntt_segmentation : bool)
    (aggregation_dict : dict string (list string)) (r : DVector) (s : Qc) :
  (if split_tfntt_segmentation
   then seg_split_tfntt_segmentation (segmentation v) out_segmentation
   else seg_aggregate (segmentation v) out_segmentation) = Ok aggregation_dict ->
  NoDup (dict_keys aggregation_dict) ->
  NoDup (dict_keys (_data v)) ->
  concat (dict_values aggregation_dict) ≡ₚ dict_keys (_data v) ->
  Forall (fun group => group <> []) (dict_values aggregation_dict) ->
  (forall z, zoning_system v = Some z ->
     Forall (fun x => exists xs, x = NpArr xs /\ length xs = n_zones z)
            (dict_values (_data v))) ->
  DVec.aggregate v out_segmentation split_tfntt_segmentation = Ok r ->
  DVec.sum v = Ok s ->
  DVec.sum r = Ok s.
Proof.
  intros Hagg Hnd_agg Hnd_v Hpart Hne Hshape Hr Hs.
  (* the total of v *)
  unfold DVec.sum in Hs. apply bind_Ok in Hs as (R & HR & Hs).
  apply rows_of_values in HR as ->; [|done].
  apply np_sum_all_Ok in Hs as [[n0 Hn0] ->].
  (* the dictionary that aggregate builds *)
  unfold DVec.aggregate in Hr. rewrite Hagg in Hr. simpl in Hr.
  apply bind_Ok in Hr as (dd & Hdd & Hr).
  apply for_set_fromkeys in Hdd as (vs & Hvs & ->); [|done].
  apply mapR_Ok in Hvs.
  apply new_Ok in Hr as (Hz & _ & _ & Hdata & _).
  apply dict_to_dvec_Ok in Hdata as (Hdata & Hcopy & _).
  assert (length (fst <$> aggregation_dict) = length vs) as Hlen.
  { rewrite length_fmap. by eapply Forall2_length. }
  (* the common length of the rows *)
  assert (exists n, uniform n (row_of (_data v) <$> dict_keys (_data v))
            /\ (DVec.not_in out_segmentation (zip (fst <$> aggregation_dict) vs) = []
                \/ DVec.default_val (zoning_system v) DVec.infill_default
                   = NpArr (replicate n (Q2Qc 0)))) as (n & Hn & Hinfill).
  { destruct (zoning_system v) as [z|] eqn:Hzv.
    - exists (n_zones z). split; [|by right].
      specialize (Hshape z eq_refl). unfold uniform.
      rewrite Forall_fmap. apply Forall_forall. intros k Hk.
      apply dict_get_is_Some in Hk as [x Hx]. simpl. unfold row_of. rewrite Hx.
      apply dict_get_Some_elem in Hx.
      rewrite Forall_forall in Hshape.
      destruct (Hshape x) as (xs & -> & Hxs); [|done].
      unfold dict_values. apply list_elem_of_fmap. by exists (k, x).
    - exists n0. split; [done|]. destruct Hcopy as [Hnil|Hcopy]; [by left|].
      discriminate Hcopy. }
  destruct (group_sums _ _ _ _ Hn Hne Hvs) as [Hflat Hin].
  unfold DVec.sum. rewrite Hdata. unfold dict_values.
  rewrite fmap_app. fold (dict_values (zip (fst <$> aggregation_dict) vs)).
  rewrite dict_values_zip by done. rewrite mapR_app, Hflat. csimpl.
  rewrite <- (Qsum_concat_Permutation _ _ _ Hpart), <- (Qsum_group_rows _ n) by done.
  destruct Hinfill as [->|Hdef].
  - csimpl. rewrite app_nil_r. apply np_sum_all_Ok. split; [|done].
    exists n. unfold uniform. rewrite Forall_fmap. apply Forall_forall.
    intros [o ins] Hitem. csimpl. apply col_sums_length.
    apply uniform_rows_of; [done|].
    rewrite Forall_concat in Hin. rewrite Forall_forall in Hin. apply Hin.
    unfold dict_values. apply list_elem_of_fmap. by exists (o, ins).
  - rewrite Hdef.
    rewrite <- list_fmap_compose.
    rewrite (const_fmap _ _ (NpArr (replicate n (Q2Qc 0)))) by done.
    rewrite mapR_flatten_replicate. csimpl.
    apply np_sum_all_Ok. split.
    + exists n. apply Forall_app. split.
      * unfold uniform. rewrite Forall_fmap. apply Forall_forall.
        intros [o ins] Hitem. csimpl. apply col_sums_length.
        apply uniform_rows_of; [done|].
        rewrite Forall_concat in Hin. rewrite Forall_forall in Hin. apply Hin.
        unfold dict_values. apply list_elem_of_fmap. by exists (o, ins).
      * apply Forall_replicate. apply length_replicate.
    + rewrite concat_app, Qsum_app, Qsum_concat_replicate_0. ring.
Qed.

Lemma aggregate_keeps_total_witness :
  exists r s,
    @DVec.aggregate Examples.oracles Examples.demand Examples.seg_p false = Ok r
    /\ concat (dict_values [("1", ["1_a"; "1_b"]); ("2", ["2_a"; "2_b"])])
       ≡ₚ dict_keys (_data Examples.demand)
    /\ DVec.sum Examples.demand = Ok s
    /\ DVec.sum r = Ok s.
Proof.
  destruct (@DVec.aggregate Examples.oracles Examples.demand Examples.seg_p false)
    as [r|e] eqn:Hr; [|vm_compute in Hr; discriminate Hr].
  destruct (DVec.sum Examples.demand) as [s|e] eqn:Hs;
    [|vm_compute in Hs; discriminate Hs].
  exists r, s. split_and!; [reflexivity..|].
  apply (@aggregate_keeps_total Examples.oracles Examples.demand Examples.seg_p false
           [("1", ["1_a"; "1_b"]); ("2", ["2_a"; "2_b"])] r s).
  - reflexivity.
  - apply (bool_decide_unpack _). vm_compute. exact I.
  - apply (bool_decide_unpack _). vm_compute. exact I.
  - reflexivity.
  - repeat constructor; discriminate.
  - intros z [= <-]. repeat constructor; eexists; split; reflexivity.
  - exact Hr.
  - exact Hs.
Defined.

(** C2 as stated fails on binary64.  The vector with the segments
    [1e9, 0], [0.001, 0] and [-1e9, 0] is aggregated by a mapping that
    partitions its keys, the first and the last segment into one output
    segment.  Its total is 0.0010000467300415039 (the 0.001 is rounded
    when it is added to 1e9); the total of the aggregated vector, in
    which 1e9 and -1e9 have met first, is 0.001: the two differ by
    4.7e-5 of their value and are not close at a relative tolerance of
    1e-6 (0x1.0c6f7a0b5ed8dp-20). *)
Lemma aggregate_total_counterexample :
  exists r,
    @seg_aggregate Examples.oracles
       (Binary64.segmentation Examples.cancelling) Examples.seg_p
    = Ok [("1", ["1_a"; "1_b"]); ("2", ["2_a"])]
    /\ concat (dict_values [("1", ["1_a"; "1_b"]); ("2", ["2_a"])])
       ≡ₚ dict_keys (Binary64._data Examples.cancelling)
    /\ @Binary64.aggregate Examples.oracles Examples.cancelling Examples.seg_p false
       = Ok r
    /\ Binary64._data r
       = [("1", Binary64.NpArr [0%float; 0%float]);
          ("2", Binary64.NpArr [0x1.0624dd2f1a9fcp-10%float; 0%float])]
    /\ Binary64.sum Examples.cancelling = Ok 0x1.0628p-10%float
    /\ Binary64.sum r = Ok 0x1.0624dd2f1a9fcp-10%float
    /\ Binary64.isclose 0x1.0628p-10%float 0x1.0624dd2f1a9fcp-10%float
                        0x1.0c6f7a0b5ed8dp-20%float 0%float
       = Ok false.
Proof.
  destruct (@Binary64.aggregate Examples.oracles Examples.cancelling Examples.seg_p false)
    as [r|e] eqn:Hr; [|vm_compute in Hr; discriminate Hr].
  exists r. split; [reflexivity|]. split.
  { apply (bool_decide_unpack _). vm_compute. exact I. }
  split; [reflexivity|].
  vm_compute in Hr. injection Hr as <-.
  split_and!; vm_compute; reflexivity.
Qed.
(** * Chunks *)

Lemma chunks_of_concat {A} (fuel n : nat) (l : list A) :
  (0 < n)%nat -> (length l <= fuel)%nat -> concat (chunks_of fuel n l) = l.
Proof.
  intros Hn. revert l. induction fuel as [|fuel IH]; intros l Hlen.
  - destruct l; [done|simpl in Hlen; lia].
  - destruct l as [|x l]; [done|].
    cbn [chunks_of concat]. rewrite IH.
    + apply take_drop.
    + rewrite length_drop. simpl in *. lia.
Qed.

Lemma chunk_list_Ok {A} (l : list A) (chunk_size : Z) :
  0 < chunk_size ->
  exists chunks, chunk_list l chunk_size = Ok chunks /\ concat chunks = l.
Proof.
  intros Hpos. unfold chunk_list.
  rewrite decide_False by lia. rewrite decide_False by lia.
  eexists. split; [done|]. apply chunks_of_concat; lia.
Qed.

Lemma mapR_total {A B} (f : A -> res B) (h : A -> B) (l : list A) :
  (forall x, x ∈ l -> f x = Ok (h x)) -> mapR f l = Ok (h <$> l).
Proof.
  intros Hf. apply mapR_Ok. induction l as [|x l IH]; csimpl; constructor.
  - apply Hf. constructor.
  - apply IH. intros y Hy. apply Hf. by constructor.
Qed.

Lemma foldl_dict_update {V} (d : dict string V) (ds : list (dict string V)) :
  foldl dict_update d ds = dict_update d (concat ds).
Proof.
  revert d. induction ds as [|u ds IH]; intros d; csimpl; [done|].
  by rewrite IH, dict_update_app.
Qed.

Lemma entries_keys {V} (g : string -> V) ks : dict_keys (entries g ks) = ks.
Proof. unfold dict_keys, entries. rewrite <- list_fmap_compose. apply list_fmap_id. Qed.

Lemma entries_zip {V} (g : string -> V) ks : entries g ks = zip ks (g <$> ks).
Proof. unfold entries. induction ks as [|k ks IH]; csimpl; [done|]. by rewrite IH. Qed.

Lemma entries_get {V} (g : string -> V) ks k :
  k ∈ ks -> dict_get k (entries g ks) = Some (g k).
Proof.
  unfold entries. induction ks as [|k' ks IH]; intros Hk.
  - by apply elem_of_nil in Hk.
  - csimpl. destruct (decide (k = k')) as [->|Hne]; [done|].
    apply IH. apply elem_of_cons in Hk as [?|?]; done.
Qed.

Lemma entries_concat {V} (g : string -> V) (chunks : list (list string)) :
  concat (entries g <$> chunks) = entries g (concat chunks).
Proof.
  unfold entries. induction chunks as [|c chunks IH]; csimpl; [done|].
  by rewrite IH, fmap_app.
Qed.

(* a dictionary with unique keys lists its own entries *)
Lemma dict_is_entries {V} (d : dict string V) (v0 : V) :
  NoDup (dict_keys d) ->
  d = entries (fun k => default v0 (dict_get k d)) (dict_keys d).
Proof.
  intros Hnd. apply dict_ext; [done|by rewrite entries_keys|].
  intros k Hk. rewrite entries_get by done.
  apply dict_get_is_Some in Hk as [v Hv]. by rewrite Hv.
Qed.

Lemma dict_subset_entries {V} (src : dict string V) (v0 : V) (ks : list string) :
  NoDup ks -> (forall k, k ∈ ks -> k ∈ dict_keys src) ->
  dict_subset src ks = Ok (entries (fun k => default v0 (dict_get k src)) ks).
Proof.
  intros Hnd Hin. unfold dict_subset. apply for_set_Ok.
  exists ((fun k => default v0 (dict_get k src)) <$> ks). split.
  - apply mapR_total. intros k Hk. unfold dict_getitem.
    apply Hin, dict_get_is_Some in Hk as [v Hv]. by rewrite Hv.
  - rewrite list_fmap_id, dict_update_fresh.
    + by rewrite entries_zip.
    + rewrite dict_keys_zip; [done|by rewrite length_fmap].
    + intros k _. apply not_elem_of_nil.
Qed.

(* every value of the loop computed, the loop yields the entries *)
Lemma for_set_entries {V W} (g : V -> res W) (h : string -> V) (t : string -> W)
    (ks : list string) (w0 : W) :
  NoDup ks -> (forall k, k ∈ ks -> g (h k) = Ok (t k)) ->
  for_set fst (fun item => g item.2)
          (dict_fromkeys (dict_keys (entries h ks)) w0) (entries h ks)
  = Ok (entries t ks).
Proof.
  intros Hnd Hg. apply for_set_Ok. exists (t <$> ks). split.
  - unfold entries. apply mapR_Ok, Forall2_fmap, Forall_Forall2_diag, Forall_forall.
    intros k Hk. by apply Hg.
  - fold (dict_keys (entries h ks)). rewrite entries_keys.
    rewrite dict_update_overwrite; [by rewrite entries_zip|done| |by rewrite length_fmap].
    by apply dict_keys_fromkeys_NoDup.
Qed.

Lemma NoDup_concat_elem {A} (ls : list (list A)) (l : list A) :
  NoDup (concat ls) -> l ∈ ls -> NoDup l /\ forall x, x ∈ l -> x ∈ concat ls.
Proof.
  induction ls as [|l' ls IH]; intros Hnd Hl.
  - by apply elem_of_nil in Hl.
  - csimpl in *. apply NoDup_app in Hnd as (Hl' & _ & Hls).
    apply elem_of_cons in Hl as [->|Hl].
    + split; [done|]. intros x Hx. apply elem_of_app. by left.
    + destruct (IH Hls Hl) as [Hnd Hin]. split; [done|].
      intros x Hx. apply elem_of_app. right. by apply Hin.
Qed.

(** * Zone translation *)

Lemma bind_Ok_l {A B} (a : A) (f : A -> res B) : Ok a ≫= f = f a.
Proof. done. Qed.

Lemma mapR_fmap {A B C} (f : B -> res C) (h : A -> B) (l : list A) :
  mapR f (h <$> l) = mapR (fun x => f (h x)) l.
Proof. induction l as [|x l IH]; csimpl; [done|]. by rewrite IH. Qed.

Lemma validate_property_wf (v : DVector) :
  (has_time_period_segments (segmentation v) = true -> _time_format v <> None) ->
  DVec._validate_time_format (segmentation v) (DVec.time_format v)
  = Ok (_time_format v).
Proof.
  intros Htf. unfold DVec.time_format.
  destruct (_time_format v) as [t|]; [apply validate_name|].
  unfold DVec._validate_time_format.
  destruct (has_time_period_segments (segmentation v)); [|done].
  by destruct Htf.
Qed.

Lemma translate_value_array t xs :
  length xs = length (rows t) ->
  DVec.translate_value t (NpArr xs) = Ok (NpArr (translated t xs)).
Proof.
  intros Hlen. unfold DVec.translate_value, DVec.broadcast_column. simpl.
  by rewrite decide_True.
Qed.

Lemma col_sums_lookup n rows j :
  uniform n rows -> (j < n)%nat ->
  col_sums n rows !! j = Some (Qsum ((fun r => nth j r (Q2Qc 0)) <$> rows)).
Proof.
  intros Hrows Hj. induction Hrows as [|r rows Hr Hrows IH]; csimpl.
  - by rewrite lookup_replicate_2.
  - rewrite lookup_zip_with, IH.
    destruct (r !! j) as [x|] eqn:Hx.
    + csimpl. by rewrite (nth_lookup_Some _ _ _ _ Hx).
    + apply lookup_ge_None in Hx. lia.
Qed.

Lemma translated_length t xs :
  matrix_wf t -> length (translated t xs) = ncols t.
Proof.
  intros Hwf. unfold translated. apply col_sums_length.
  unfold matrix_wf in Hwf. revert xs.
  induction Hwf as [|row rows' Hrow _ IH]; intros [|x xs]; csimpl; try constructor.
  - by rewrite length_map.
  - apply IH.
Qed.

Lemma translated_entry t xs j :
  matrix_wf t -> (j < ncols t)%nat ->
  translated t xs !! j
  = Some (Qsum (zip_with (fun x row => (x * nth j row (Q2Qc 0))%Qc) xs (rows t))).
Proof.
  intros Hwf Hj. unfold translated. rewrite col_sums_lookup; [|..|done].
  - f_equal. f_equal. unfold matrix_wf in Hwf. clear Hwf. revert xs.
    induction (rows t) as [|row rows' IH]; intros [|x xs]; csimpl; try done.
    rewrite IH. f_equal.
    rewrite <- (Qcmult_0_r x) at 1. apply map_nth.
  - unfold matrix_wf in Hwf. revert xs.
    induction Hwf as [|row rows' Hrow _ IH]; intros [|x xs]; csimpl; try constructor.
    + by rewrite length_map.
    + apply IH.
Qed.

Lemma translate_zoning_run `{!Oracles} (v : DVector) (zoning new_zoning : ZoningSystem)
    (weighting : option string) (translation : matrix) :
  DVector_wf v ->
  zoning_system v = Some zoning ->
  zoned_shape zoning v ->
  zoning_translate zoning new_zoning weighting = Ok translation ->
  length (rows translation) = n_zones zoning ->
  DVec.translate_zoning v new_zoning weighting
  = DVec.new (Some new_zoning) (segmentation v) (DVec.time_format v)
             (translated_data translation (_data v)) (process_count v) (verbose v).
Proof.
  intros [Hnd Hkeys Htf Hdiv] Hz Hshape Htrans Hrows.
  unfold DVec.translate_zoning. rewrite Hz, Htrans, bind_Ok_l.
  (* the chunk size *)
  assert (exists c, ceil_div (Z.of_nat (length (_data v))) (_chunk_divider v) = Ok c)
    as (c & ->).
  { unfold ceil_div. rewrite Hdiv.
    destruct (decide (process_count v = 0)); [by eexists|].
    rewrite decide_False by lia. by eexists. }
  rewrite bind_Ok_l.
  set (chunk_size := if decide (c < DVec._translate_zoning_min_chunk_size)
                     then DVec._translate_zoning_min_chunk_size else c).
  assert (0 < chunk_size) as Hpos.
  { unfold chunk_size, DVec._translate_zoning_min_chunk_size.
    destruct (decide (c < 700)); lia. }
  destruct (chunk_list_Ok (dict_keys (_data v)) chunk_size Hpos) as (chunks & -> & Hcat).
  rewrite bind_Ok_l.
  (* the values of v, key by key *)
  set (h := fun k => default PyNone (dict_get k (_data v))).
  set (t := fun k => NpArr (translated translation (row_of (_data v) k))).
  assert (forall c, c ∈ chunks ->
            NoDup c /\ forall k, k ∈ c -> k ∈ dict_keys (_data v)) as Hchunk.
  { intros c' Hc'. rewrite <- Hcat. apply NoDup_concat_elem; [|done]. by rewrite Hcat. }
  rewrite (mapR_total _ (fun c => (entries h c, translation))).
  2:{ intros c' Hc'. destruct (Hchunk c' Hc') as [Hnd' Hin'].
      by rewrite (dict_subset_entries _ PyNone). }
  rewrite bind_Ok_l. unfold DVec.multiprocess.
  rewrite mapR_fmap. rewrite (mapR_total _ (entries t)).
  2:{ intros c' Hc'. destruct (Hchunk c' Hc') as [Hnd' Hin'].
      cbn [fst snd]. unfold DVec._translate_zoning_internal.
      apply for_set_entries; [done|]. intros k Hk.
      apply Hin' in Hk. unfold h, t, row_of.
      apply dict_get_is_Some in Hk as [x Hx]. rewrite Hx. simpl.
      apply dict_get_Some_elem in Hx.
      unfold zoned_shape in Hshape. rewrite Forall_forall in Hshape.
      destruct (Hshape x) as (xs & -> & Hxs).
      { unfold dict_values. apply list_elem_of_fmap. by exists (k, x). }
      simpl. apply translate_value_array. congruence. }
  rewrite bind_Ok_l, foldl_dict_update, entries_concat, Hcat.
  rewrite entries_zip, dict_update_overwrite; [|done| |by rewrite length_fmap].
  - by rewrite <- entries_zip.
  - by apply dict_keys_fromkeys_NoDup.
Qed.

(** C8.  For a well-formed vector on a zoning system, whose arrays have one
    entry per zone, and a translation matrix with one row per source zone:
    [translate_zoning] returns a vector on [new_zoning] with the same
    segmentation, time format and segments, in which the j-th entry of
    every segment's array is the sum over the source zones i of
    old_value[i] * translation[i][j]. *)
Theorem translate_zoning_values `{!Oracles} (v : DVector)
    (zoning new_zoning : ZoningSystem) (weighting : option string)
    (translation : matrix) :
  DVector_wf v ->
  zoning_system v = Some zoning ->
  zoned_shape zoning v ->
  zoning_translate zoning new_zoning weighting = Ok translation ->
  length (rows translation) = n_zones zoning ->
  matrix_wf translation ->
  exists r,
    DVec.translate_zoning v new_zoning weighting = Ok r
    /\ zoning_system r = Some new_zoning
    /\ segmentation r = segmentation v
    /\ _time_format r = _time_format v
    /\ dict_keys (_data r) = dict_keys (_data v)
    /\ forall k old, dict_get k (_data v) = Some (NpArr old) ->
         exists new,
           dict_get k (_data r) = Some (NpArr new)
           /\ length new = ncols translation
           /\ forall j, (j < ncols translation)%nat ->
                new !! j
                = Some (Qsum (zip_with (fun x row => (x * nth j row (Q2Qc 0))%Qc)
                                       old (rows translation))).
Proof.
  intros Hwf Hz Hshape Htrans Hrows Hmat.
  rewrite (translate_zoning_run v zoning new_zoning weighting translation) by done.
  destruct Hwf as [Hnd Hkeys Htf Hdiv].
  unfold DVec.new, DVec.__init__.
  rewrite validate_property_wf, bind_Ok_l by done.
  rewrite dict_to_dvec_complete, bind_Ok_l.
  2:{ intros k. unfold translated_data. rewrite entries_keys. apply Hkeys. }
  eexists. split; [done|]. cbn [zoning_system segmentation _time_format _data].
  split_and!; [done..| |].
  - unfold translated_data. by rewrite entries_keys.
  - intros k old Hk. exists (translated translation old). split_and!.
    + unfold translated_data. rewrite entries_get.
      * unfold row_of. by rewrite Hk.
      * apply dict_get_is_Some. by rewrite Hk.
    + by apply translated_length.
    + intros j Hj. by apply translated_entry.
Qed.

Lemma translate_zoning_values_witness :
  exists r,
    @DVec.translate_zoning Examples.oracles Examples.pop Examples.zone3 None = Ok r
    /\ zoning_system r = Some Examples.zone3
    /\ dict_get "1" (_data r)
       = Some (NpArr [Examples.q 5 1; Examples.q 10 1; Examples.q 15 1]).
Proof.
  destruct (@translate_zoning_values Examples.oracles Examples.pop Examples.zone2
              Examples.zone3 None Examples.two_to_three)
    as (r & Hr & Hz & _ & _ & _ & Hval).
  - split.
    + apply (bool_decide_unpack _). vm_compute. exact I.
    + intros k. cbn. rewrite !elem_of_cons. tauto.
    + discriminate.
    + reflexivity.
  - reflexivity.
  - repeat constructor; eexists; split; reflexivity.
  - reflexivity.
  - reflexivity.
  - repeat constructor.
  - exists r. split_and!; [exact Hr|exact Hz|].
    destruct (Hval "1" [Examples.q 10 1; Examples.q 20 1] eq_refl)
      as (new & Hnew & Hlen & Hentry).
    rewrite Hnew. f_equal. f_equal.
    apply list_eq. intros j.
    destruct (decide (j < 3)%nat) as [Hj|Hj].
    + rewrite (Hentry j Hj).
      destruct j as [|[|[|j]]]; [| | |simpl in Hj; lia];
        simpl; f_equal; apply Qc_is_canon; reflexivity.
    + rewrite !lookup_ge_None_2; [done|simpl; lia|rewrite Hlen; simpl; lia].
Defined.

(** * Time-format conversion *)

Lemma value_mul_scale x f : x <> PyNone -> value_mul x (PyNum f) = Ok (scale f x).
Proof. by destruct x. Qed.

Lemma scale_scale f g x : (f * g)%Qc = 1%Qc -> scale g (scale f x) = x.
Proof.
  intros Hfg.
  assert (forall a, (a * f * g)%Qc = a) as Hback.
  { intros a. by rewrite <- Qcmult_assoc, Hfg, Qcmult_1_r. }
  destruct x as [|a|a|xs]; simpl.
  - done.
  - by rewrite Hback.
  - by rewrite Hback.
  - f_equal. rewrite map_map. rewrite <- (map_id xs) at 2. apply map_ext.
    intros a. apply Hback.
Qed.

Lemma scale_not_None f x : x <> PyNone -> scale f x <> PyNone.
Proof. by destruct x. Qed.

Lemma for_set_app {A V} (key : A -> string) (g : A -> res V) d l1 l2 :
  for_set key g d (l1 ++ l2) = (d' ← for_set key g d l1; for_set key g d' l2).
Proof. unfold for_set. apply foldM_app. Qed.

Lemma for_set_fmap {A B V} (key : B -> string) (g : B -> res V) (h : A -> B) d l :
  for_set key g d (h <$> l) = for_set (fun x => key (h x)) (fun x => g (h x)) d l.
Proof.
  unfold for_set. revert d. induction l as [|x l IH]; intros d; csimpl; [done|].
  destruct (g (h x)); csimpl; [|done]. apply IH.
Qed.

Lemma foldM_ext {A B} (f g : B -> A -> res B) b l :
  (forall b x, f b x = g b x) -> foldM f b l = foldM g b l.
Proof.
  intros Hfg. revert b. induction l as [|x l IH]; intros b; csimpl; [done|].
  rewrite Hfg. destruct (g b x); csimpl; [apply IH|done].
Qed.

(* the two nested loops of convert_time_format are one loop over seg_tps *)
Lemma convert_loops data factors (groups : dict Z (list string)) d :
  foldM (fun d group =>
           for_set id (DVec.converted_value data factors group.1) d group.2)
        d groups
  = for_set fst (fun item => DVec.converted_value data factors item.2 item.1)
            d (seg_tps groups).
Proof.
  unfold seg_tps. revert d. induction groups as [|[tp segs] groups IH]; intros d.
  - done.
  - cbn [foldM fst snd]. rewrite fmap_cons, concat_cons, for_set_app.
    cbn [fst snd]. rewrite for_set_fmap. cbn [fst snd].
    change (for_set (fun x : string => x)) with (@for_set string value id).
    destruct (for_set id _ d segs); csimpl; [apply IH|done].
Qed.

Lemma dict_get_fmap_snd {A B} (t : string -> A -> B) (l : dict string A) k :
  dict_get k ((fun item => (item.1, t item.1 item.2)) <$> l) = t k <$> dict_get k l.
Proof.
  induction l as [|[k' a] l IH]; csimpl; [done|].
  destruct (decide (k = k')) as [->|Hne]; [done|apply IH].
Qed.

Lemma zip_fst_fmap {A B C} (f : A * B -> C) (l : list (A * B)) :
  zip l.*1 (f <$> l) = (fun item => (item.1, f item)) <$> l.
Proof. induction l as [|item l IH]; csimpl; [done|]. by rewrite IH. Qed.

Lemma dict_get_fromkeys {V} (ks : list string) (v : V) k :
  NoDup ks -> k ∈ ks -> dict_get k (dict_fromkeys ks v) = Some v.
Proof.
  intros Hnd Hk. rewrite dict_fromkeys_NoDup by done. clear Hnd.
  induction ks as [|k' ks IH]; [by apply elem_of_nil in Hk|].
  csimpl. destruct (decide (k = k')) as [->|Hne]; [done|].
  apply IH. apply elem_of_cons in Hk as [?|?]; done.
Qed.

Lemma converted_data_Ok (groups : dict Z (list string)) factors data :
  NoDup (dict_keys data) ->
  (forall s tp, (s, tp) ∈ seg_tps groups ->
     s ∈ dict_keys data /\ dict_get s data <> Some PyNone
     /\ is_Some (dict_get tp factors)) ->
  foldM (fun d group =>
           for_set id (DVec.converted_value data factors group.1) d group.2)
        (dict_fromkeys (dict_keys data) PyNone) groups
  = Ok (converted_data groups factors data).
Proof.
  intros Hnd Hitems. rewrite convert_loops. apply for_set_Ok.
  set (t := fun (s : string) (tp : Z) =>
              scale (default (Q2Qc 0) (dict_get tp factors))
                    (default PyNone (dict_get s data))).
  exists ((fun item => t item.1 item.2) <$> seg_tps groups). split.
  - apply mapR_total. intros [s tp] Hitem. cbn [fst snd].
    destruct (Hitems s tp Hitem) as (Hs & Hnone & [f Hf]).
    apply dict_get_is_Some in Hs as [x Hx].
    unfold DVec.converted_value, dict_getitem, t. rewrite Hx, Hf. csimpl.
    apply value_mul_scale. congruence.
  - assert (zip (seg_tps groups).*1 ((fun item => t item.1 item.2) <$> seg_tps groups)
            = (fun item => (item.1, t item.1 item.2)) <$> seg_tps groups) as ->.
    { apply zip_fst_fmap. }
    symmetry. apply dict_ext.
    + rewrite dict_keys_update_within.
      * by rewrite dict_keys_fromkeys_NoDup.
      * rewrite dict_keys_fromkeys_NoDup by done. intros k Hk.
        unfold dict_keys in Hk. rewrite <- list_fmap_compose in Hk.
        apply list_elem_of_fmap in Hk as ([s tp] & -> & Hitem).
        by destruct (Hitems s tp Hitem) as (Hs & _).
    + rewrite dict_keys_update_within.
      * rewrite dict_keys_fromkeys_NoDup by done.
        unfold converted_data. by rewrite entries_keys.
      * rewrite dict_keys_fromkeys_NoDup by done. intros k Hk.
        unfold dict_keys in Hk. rewrite <- list_fmap_compose in Hk.
        apply list_elem_of_fmap in Hk as ([s tp] & -> & Hitem).
        by destruct (Hitems s tp Hitem) as (Hs & _).
    + intros k Hk.
      rewrite dict_keys_update_within in Hk.
      2:{ rewrite dict_keys_fromkeys_NoDup by done. intros k' Hk'.
          unfold dict_keys in Hk'. rewrite <- list_fmap_compose in Hk'.
          apply list_elem_of_fmap in Hk' as ([s tp] & -> & Hitem).
          by destruct (Hitems s tp Hitem) as (Hs & _). }
      rewrite dict_keys_fromkeys_NoDup in Hk by done.
      rewrite dict_get_update, <- fmap_reverse, dict_get_fmap_snd.
      unfold converted_data. rewrite entries_get by done. unfold tp_of.
      destruct (dict_get k (reverse (seg_tps groups))) as [tp|]; csimpl; [done|].
      by apply dict_get_fromkeys.
Qed.

Lemma tp_of_elem groups s tp : tp_of groups s = Some tp -> (s, tp) ∈ seg_tps groups.
Proof.
  unfold tp_of. intros Hget. apply dict_get_Some_elem in Hget.
  by apply elem_of_reverse.
Qed.

Lemma entries_ext {V} (f g : string -> V) ks :
  (forall k, k ∈ ks -> f k = g k) -> entries f ks = entries g ks.
Proof.
  unfold entries. intros Hfg. apply list_fmap_ext. intros i k Hk.
  rewrite Hfg; [done|]. by eapply list_elem_of_lookup_2.
Qed.

Lemma converted_data_keys groups factors data :
  dict_keys (converted_data groups factors data) = dict_keys data.
Proof. unfold converted_data. apply entries_keys. Qed.

Lemma converted_data_get groups factors data k tp x :
  tp_of groups k = Some tp -> dict_get k data = Some x ->
  dict_get k (converted_data groups factors data)
  = Some (scale (default (Q2Qc 0) (dict_get tp factors)) x).
Proof.
  intros Htp Hx. unfold converted_data. rewrite entries_get.
  - by rewrite Htp, Hx.
  - apply dict_get_is_Some. by rewrite Hx.
Qed.

Lemma converted_data_no_None groups factors data :
  (forall k, k ∈ dict_keys data -> is_Some (tp_of groups k)) ->
  no_None data -> no_None (converted_data groups factors data).
Proof.
  intros Hcover Hdata k Hk.
  assert (k ∈ dict_keys data) as Hin.
  { rewrite <- (converted_data_keys groups factors). apply dict_get_is_Some. by rewrite Hk. }
  destruct (Hcover k Hin) as [tp Htp].
  apply dict_get_is_Some in Hin as [x Hx].
  rewrite (converted_data_get _ _ _ _ _ _ Htp Hx) in Hk. injection Hk as Hk.
  revert Hk. apply scale_not_None. intros ->. by apply (Hdata k).
Qed.

(* converting there and back with reciprocal factors gives the data back *)
Lemma converted_data_twice groups f1 f2 data :
  NoDup (dict_keys data) ->
  (forall k, k ∈ dict_keys data ->
     exists tp, tp_of groups k = Some tp
       /\ (default (Q2Qc 0) (dict_get tp f1) * default (Q2Qc 0) (dict_get tp f2))%Qc = 1%Qc) ->
  converted_data groups f2 (converted_data groups f1 data) = data.
Proof.
  intros Hnd Hinv.
  etrans; [|symmetry; apply (dict_is_entries data PyNone Hnd)].
  unfold converted_data at 1. rewrite converted_data_keys.
  apply entries_ext. intros k Hk.
  destruct (Hinv k Hk) as (tp & Htp & Hone). rewrite Htp.
  pose proof Hk as Hx. apply dict_get_is_Some in Hx as [x Hx].
  rewrite (converted_data_get _ _ _ _ _ _ Htp Hx), Hx. csimpl.
  by apply scale_scale.
Qed.

(** ** The factor tables *)

Lemma factors_known from to :
  from <> to ->
  exists factors,
    TimeFormat_.get_conversion_factors from to = Ok factors
    /\ forall tp, tp ∈ TimeFormat_.get_time_periods <-> tp ∈ dict_keys factors.
Proof.
  intros Hne.
  destruct (TimeFormat_.get_conversion_factors from to) as [factors|e] eqn:Hf.
  - exists factors. split; [done|].
    destruct from, to; try done; vm_compute in Hf; injection Hf as <-; done.
  - destruct from, to; try done; vm_compute in Hf; discriminate Hf.
Qed.

Lemma day_week_reciprocal tp :
  tp ∈ TimeFormat_.get_time_periods ->
  exists dw wd,
    factor AVG_DAY AVG_WEEK tp = Some dw /\ factor AVG_WEEK AVG_DAY tp = Some wd
    /\ (dw * wd)%Qc = 1%Qc.
Proof.
  intros Htp. unfold TimeFormat_.get_time_periods in Htp.
  repeat (apply elem_of_cons in Htp as [->|Htp]);
    [..|by apply elem_of_nil in Htp];
    (eexists _, _; split_and!; [reflexivity|reflexivity|];
     apply Qc_is_canon; reflexivity).
Qed.

(** ** What convert_time_format returns *)

Section Convert.
Context `{!Oracles}.

Lemma rebuilt_wf v tf data :
  DVector_wf v -> dict_keys data = dict_keys (_data v) ->
  (has_time_period_segments (segmentation v) = true -> tf <> None) ->
  DVector_wf (rebuilt v tf data).
Proof.
  intros [Hnd Hkeys Htf Hdiv] Hdata Htf'. split.
  - change (NoDup (dict_keys data)). by rewrite Hdata.
  - intros k. change (k ∈ dict_keys data <-> k ∈ segment_names (segmentation v)).
    rewrite Hdata. apply Hkeys.
  - done.
  - done.
Qed.

Lemma copy_run v :
  DVector_wf v -> DVec.copy v = Ok (rebuilt v (_time_format v) (_data v)).
Proof.
  intros [Hnd Hkeys Htf Hdiv]. unfold DVec.copy, DVec.new, DVec.__init__.
  assert (DVec._validate_time_format (segmentation v) (DVec.tf_of (_time_format v))
          = Ok (_time_format v)) as ->.
  { destruct (_time_format v) as [t|]; [apply validate_enum|].
    unfold DVec._validate_time_format. simpl.
    destruct (has_time_period_segments (segmentation v)); [by destruct Htf|done]. }
  rewrite bind_Ok_l, dict_to_dvec_complete by done. done.
Qed.

Lemma convert_run v cur new factors :
  DVector_wf v -> no_None (_data v) -> tp_groups_ok (segmentation v) ->
  has_time_period_segments (segmentation v) = true ->
  _time_format v = Some cur -> cur <> new ->
  TimeFormat_.get_conversion_factors cur new = Ok factors ->
  (forall tp, tp ∈ TimeFormat_.get_time_periods <-> tp ∈ dict_keys factors) ->
  DVec.convert_time_format v (TfEnum new)
  = Ok (rebuilt v (Some new)
          (converted_data (get_time_period_groups (segmentation v)) factors (_data v))).
Proof.
  intros Hwf Hnone [Hknown Hkeys_known Hsegs Hcover] Htp Hcur Hne Hfactors Hperiods.
  pose proof Hwf as [Hnd Hkeys Htf Hdiv].
  unfold DVec.convert_time_format. rewrite validate_enum, bind_Ok_l, Hcur, Htp.
  cbn [negb]. rewrite decide_False by done. rewrite Hfactors, bind_Ok_l.
  assert (filter (fun tp => dict_get tp factors = None)
                 (dict_keys (get_time_period_groups (segmentation v))) = []) as ->.
  { (* no time period is missing *)
    induction (dict_keys (get_time_period_groups (segmentation v))) as [|tp tps IH];
      [done|].
    rewrite filter_cons, decide_False.
    - apply IH. intros tp' Htp'. apply Hkeys_known. by constructor.
    - intros Hmiss. apply dict_get_None in Hmiss.
      apply Hmiss, Hperiods, Hkeys_known. constructor. }
  rewrite converted_data_Ok, bind_Ok_l; [|done|].
  - unfold DVec.new, DVec.__init__. rewrite validate_enum, bind_Ok_l.
    rewrite dict_to_dvec_complete; [done|].
    intros k. rewrite converted_data_keys. apply Hkeys.
  - intros s tp Hitem. split_and!.
    + by apply Hkeys, (Hsegs s tp).
    + apply Hnone.
    + by apply dict_get_is_Some, Hperiods, (Hknown s tp).
Qed.

End Convert.

Lemma validate_value seg t :
  DVec._validate_time_format seg (TfStr (TimeFormat_.value t)) = Ok (Some t).
Proof.
  unfold DVec._validate_time_format.
  destruct (has_time_period_segments seg); by destruct t.
Qed.

Lemma convert_same `{!Oracles} (v : DVector) (tf : TimeFormat) (arg : tf_arg) :
  DVector_wf v ->
  has_time_period_segments (segmentation v) = true ->
  _time_format v = Some tf ->
  DVec._validate_time_format (segmentation v) arg = Ok (Some tf) ->
  DVec.convert_time_format v arg = Ok (rebuilt v (Some tf) (_data v)).
Proof.
  intros Hwf Htp Htf Harg. unfold DVec.convert_time_format.
  rewrite Harg, bind_Ok_l, Htf, Htp. cbn [negb].
  rewrite decide_True by done. rewrite copy_run by done. by rewrite Htf.
Qed.

(** C6.  For a well-formed vector with a time format and time-period
    segments, whose segments are grouped by known time periods:
    converting to the format the vector already has (given as the
    enumeration member, its value or its name) returns the same vector;
    converting to AVG_DAY, on to AVG_WEEK and back to AVG_DAY gives the
    AVG_DAY vector again; and for every time period the week-to-hour
    factor is the product of the week-to-day and day-to-hour factors, the
    hour-to-week factor the product of their reciprocals, and each
    inverse factor the reciprocal of the forward factor. *)
Theorem convert_time_format_round_trip `{!Oracles} (v : DVector) (tf : TimeFormat) :
  DVector_wf v ->
  no_None (_data v) ->
  tp_groups_ok (segmentation v) ->
  has_time_period_segments (segmentation v) = true ->
  _time_format v = Some tf ->
  (forall arg, arg ∈ [TfEnum tf; TfStr (TimeFormat_.value tf); TfStr (TimeFormat_.name tf)] ->
     exists r, DVec.convert_time_format v arg = Ok r /\ same_vector r v)
  /\ (exists d w d',
        DVec.convert_time_format v (TfEnum AVG_DAY) = Ok d
        /\ DVec.convert_time_format d (TfEnum AVG_WEEK) = Ok w
        /\ DVec.convert_time_format w (TfEnum AVG_DAY) = Ok d'
        /\ same_vector d' d)
  /\ (forall tp, tp ∈ TimeFormat_.get_time_periods ->
        exists wd dh,
          factor AVG_WEEK AVG_DAY tp = Some wd
          /\ factor AVG_DAY AVG_HOUR tp = Some dh
          /\ factor AVG_WEEK AVG_HOUR tp = Some (wd * dh)%Qc
          /\ factor AVG_DAY AVG_WEEK tp = Some (1 / wd)%Qc
          /\ factor AVG_HOUR AVG_DAY tp = Some (1 / dh)%Qc
          /\ factor AVG_HOUR AVG_WEEK tp = Some ((1 / dh) * (1 / wd))%Qc
          /\ factor AVG_HOUR AVG_WEEK tp = Some (1 / (wd * dh))%Qc).
Proof.
  intros Hwf Hnone Hgroups Htp Htf. split_and!.
  - (* the same format *)
    intros arg Harg. exists (rebuilt v (Some tf) (_data v)). split.
    + apply convert_same; [done..|].
      repeat (apply elem_of_cons in Harg as [->|Harg]);
        [apply validate_enum|apply validate_value|apply validate_name|].
      by apply elem_of_nil in Harg.
    + unfold same_vector. by rewrite Htf.
  - (* the round trip *)
    set (groups := get_time_period_groups (segmentation v)).
    assert (exists d, DVec.convert_time_format v (TfEnum AVG_DAY) = Ok d
              /\ DVector_wf d /\ no_None (_data d)
              /\ segmentation d = segmentation v
              /\ _time_format d = Some AVG_DAY
              /\ dict_keys (_data d) = dict_keys (_data v)) as (d & Hd & Hwfd & Hnoned & Hsegd & Htfd & Hkeysd).
    { destruct (decide (tf = AVG_DAY)) as [->|Hne].
      - exists (rebuilt v (Some AVG_DAY) (_data v)). split_and!; try done.
        + apply convert_same; [done..|apply validate_enum].
        + by apply rebuilt_wf.
      - destruct (factors_known tf AVG_DAY Hne) as (f & Hf & Hperiods).
        eexists. split; [by eapply convert_run|]. split_and!; try done.
        + apply rebuilt_wf; [done|apply converted_data_keys|done].
        + apply converted_data_no_None; [|done].
          intros k Hk. destruct Hgroups as [_ _ _ Hcover].
          apply Hcover. by apply Hwf.
        + apply converted_data_keys. }
    assert (tp_groups_ok (segmentation d)) as Hgroupsd by by rewrite Hsegd.
    assert (has_time_period_segments (segmentation d) = true) as Htpd by by rewrite Hsegd.
    destruct (factors_known AVG_DAY AVG_WEEK ltac:(done)) as (dw & Hdw & Hdw_periods).
    destruct (factors_known AVG_WEEK AVG_DAY ltac:(done)) as (wd & Hwd & Hwd_periods).
    pose proof (convert_run d AVG_DAY AVG_WEEK dw Hwfd Hnoned Hgroupsd Htpd Htfd
                  ltac:(done) Hdw Hdw_periods) as Hw.
    set (w := rebuilt d (Some AVG_WEEK)
                (converted_data (get_time_period_groups (segmentation d)) dw (_data d))) in *.
    assert (DVector_wf w) as Hwfw.
    { apply rebuilt_wf; [done|apply converted_data_keys|done]. }
    assert (no_None (_data w)) as Hnonew.
    { apply converted_data_no_None; [|done].
      intros k Hk. destruct Hgroupsd as [_ _ _ Hcover]. apply Hcover. by apply Hwfd. }
    pose proof (convert_run w AVG_WEEK AVG_DAY wd Hwfw Hnonew Hgroupsd Htpd eq_refl
                  ltac:(done) Hwd Hwd_periods) as Hd'.
    eexists d, w, _. split_and!; [done..|].
    unfold same_vector. cbn. split_and!; [done..|].
    apply converted_data_twice; [apply Hwfd|].
    intros k Hk. destruct Hgroupsd as [Hknown _ _ Hcover].
    destruct (Hcover k) as [tp' Htp']; [by apply Hwfd|].
    exists tp'. split; [done|].
    apply tp_of_elem, Hknown in Htp'.
    destruct (day_week_reciprocal tp' Htp') as (a & b & Ha & Hb & Hab).
    unfold factor in Ha, Hb. rewrite Hdw in Ha. rewrite Hwd in Hb.
    by rewrite Ha, Hb.
  - (* the factor tables *)
    intros tp Htp'. unfold TimeFormat_.get_time_periods in Htp'.
    repeat (apply elem_of_cons in Htp' as [->|Htp']);
      [..|by apply elem_of_nil in Htp'];
      (eexists _, _; split_and!; [reflexivity|reflexivity|..];
       unfold factor; f_equal; apply Qc_is_canon; reflexivity).
Qed.

Lemma convert_time_format_round_trip_witness :
  exists d w d',
    @DVec.convert_time_format Examples.oracles Examples.week (TfEnum AVG_DAY) = Ok d
    /\ @DVec.convert_time_format Examples.oracles d (TfEnum AVG_WEEK) = Ok w
    /\ @DVec.convert_time_format Examples.oracles w (TfEnum AVG_DAY) = Ok d'
    /\ same_vector d' d
    /\ dict_get "1" (_data d) = Some (NpArr [Examples.q 2 1; Examples.q 4 1]).
Proof.
  destruct (@convert_time_format_round_trip Examples.oracles Examples.week AVG_WEEK)
    as (_ & (d & w & d' & Hd & Hw & Hd' & Hsame) & _).
  - split.
    + apply (bool_decide_unpack _). vm_compute. exact I.
    + intros k. cbn. rewrite !elem_of_cons. tauto.
    + discriminate.
    + reflexivity.
  - intros k. cbn. repeat case_decide; discriminate.
  - split.
    + intros s tp Hin. cbn in Hin.
      repeat (apply elem_of_cons in Hin as [[= -> ->]|Hin]);
        [..|by apply elem_of_nil in Hin];
        apply (bool_decide_unpack _); vm_compute; exact I.
    + intros tp Hin. cbn in Hin.
      repeat (apply elem_of_cons in Hin as [->|Hin]);
        [..|by apply elem_of_nil in Hin];
        apply (bool_decide_unpack _); vm_compute; exact I.
    + intros s tp Hin. cbn in Hin.
      repeat (apply elem_of_cons in Hin as [[= -> ->]|Hin]);
        [..|by apply elem_of_nil in Hin];
        apply (bool_decide_unpack _); vm_compute; exact I.
    + intros s Hin. cbn in Hin.
      repeat (apply elem_of_cons in Hin as [->|Hin]);
        [..|by apply elem_of_nil in Hin]; eexists; reflexivity.
  - reflexivity.
  - reflexivity.
  - exists d, w, d'. split_and!; [assumption..|].
    vm_compute in Hd. injection Hd as <-. cbn.
    do 2 f_equal. repeat (f_equal; try (apply Qc_is_canon; reflexivity)).
Defined.

(** * Balancing at segments *)





(* values that are positive already are left alone *)
Lemma where_nonpos_id eps a :
  all_positive a -> (exists x, a = NpNum x) \/ (exists xs, a = NpArr xs) ->
  where_nonpos eps a = Ok a.
Proof.
  intros Hpos [[x ->]|[xs ->]]; simpl in *.
  - rewrite decide_False; [done|]. by apply Qclt_not_le.
  - do 2 f_equal. rewrite <- (map_id xs) at 2. apply map_ext_in.
    intros x Hx. rewrite Forall_forall in Hpos.
    rewrite decide_False; [done|]. apply Qclt_not_le, Hpos. by apply list_elem_of_In.
Qed.

Lemma Qsum_positive xs :
  Forall (fun x => (Q2Qc 0 < x)%Qc) xs -> xs <> [] -> (Q2Qc 0 < Qsum xs)%Qc.
Proof.
  intros Hpos Hne. destruct Hpos as [|x xs Hx Hxs]; [done|]. clear Hne.
  unfold Qsum. simpl. apply Qcplus_pos_nonneg; [done|].
  induction Hxs as [|y ys Hy _ IH]; simpl; [done|].
  apply Qclt_le_weak, Qcplus_pos_nonneg; done.
Qed.

Lemma np_sum_positive a s :
  all_positive a -> np_sum a = Ok s -> (Q2Qc 0 < s)%Qc \/ a = NpArr [].
Proof.
  destruct a as [|x|x|xs]; simpl; [done|..].
  - intros Hx [= <-]. by left.
  - intros Hx [= <-]. by left.
  - intros Hxs [= <-]. destruct xs as [|x xs]; [by right|left].
    by apply Qsum_positive.
Qed.

Lemma Qsum_map_mult f xs : Qsum (map (fun a => (a * f)%Qc) xs) = (Qsum xs * f)%Qc.
Proof.
  unfold Qsum. induction xs as [|x xs IH]; simpl; [ring|]. rewrite IH. ring.
Qed.



Lemma Forall2_zip_elem {A B} (P : A -> B -> Prop) l k x y :
  Forall2 P l k -> (x, y) ∈ zip l k -> P x y.
Proof.
  intros HP. induction HP as [|a b l k Hab _ IH]; csimpl; intros Hin.
  - by apply elem_of_nil in Hin.
  - apply elem_of_cons in Hin as [[= -> ->]|Hin]; [done|by apply IH].
Qed.

(* after "for k in l: d[k] = g(k)" every key of l holds its value *)
Lemma for_set_id_get {V} (g : string -> res V) d l d' k :
  for_set id g d l = Ok d' -> k ∈ l ->
  exists v, g k = Ok v /\ dict_get k d' = Some v.
Proof.
  intros (vs & Hvs & ->)%for_set_Ok Hk. rewrite list_fmap_id.
  apply mapR_Ok in Hvs.
  assert (k ∈ dict_keys (reverse (zip l vs))) as Hin.
  { rewrite dict_keys_reverse, elem_of_reverse, dict_keys_zip; [done|].
    by eapply Forall2_length. }
  apply dict_get_is_Some in Hin as [v Hv]. exists v. split.
  - apply dict_get_Some_elem in Hv. rewrite elem_of_reverse in Hv.
    exact (Forall2_zip_elem _ _ _ _ _ Hvs Hv).
  - by rewrite dict_get_update, Hv.
Qed.






(** * Construction from a dictionary *)

(** X28.  With a default value that can be copied (an array for a zoning
    system, or a numpy scalar), the dictionary path succeeds for every
    dictionary of valid segments: the data of the new vector has exactly
    the segment names as its keys, the entries that were given are kept,
    and every missing segment holds the default value. *)
Lemma dict_constructor_infills `{!Oracles} zoning seg (d : dict string value)
    time_format df_chunk_size infill process_count verbose tf :
  DVec._validate_time_format seg time_format = Ok tf ->
  (forall k, k ∈ dict_keys d -> k ∈ segment_names seg) ->
  copy_method (DVec.default_val zoning infill) = Ok (DVec.default_val zoning infill) ->
  exists self,
    DVec.__init__ zoning seg d time_format df_chunk_size infill process_count verbose
      = Ok self
    /\ (forall k, k ∈ dict_keys (_data self) <-> k ∈ segment_names seg)
    /\ (forall k v, dict_get k d = Some v -> dict_get k (_data self) = Some v)
    /\ (forall k, k ∈ segment_names seg -> dict_get k d = None ->
                  dict_get k (_data self) = Some (DVec.default_val zoning infill)).
Proof.
  intros Htf Hvalid Hcopy. unfold DVec.__init__. rewrite Htf, bind_Ok_l.
  set (d' := d ++ map (fun n => (n, DVec.default_val zoning infill)) (DVec.not_in seg d)).
  assert (forall k, k ∈ dict_keys d' <-> k ∈ segment_names seg) as Hkeys.
  { intros k. unfold d', dict_keys. rewrite fmap_app, elem_of_app.
    fold (dict_keys d).
    fold (dict_keys (map (fun n => (n, DVec.default_val zoning infill)) (DVec.not_in seg d))).
    rewrite dict_keys_map_pair, elem_of_not_in. split.
    - intros [Hk|[Hk _]]; [by apply Hvalid|done].
    - intros Hk. destruct (decide (k ∈ dict_keys d)); [by left|by right]. }
  assert (DVec._dict_to_dvec zoning seg d infill = Ok d') as ->.
  { unfold DVec._dict_to_dvec. rewrite infill_loop_run by by right.
    rewrite bind_Ok_l, dict_update_fresh.
    - fold d'. assert (is_correct_naming seg (dict_keys d') = true) as ->; [|done].
      apply is_correct_naming_spec. intros k. apply Hkeys.
    - rewrite dict_keys_map_pair. apply not_in_NoDup.
    - intros k. rewrite dict_keys_map_pair. by intros [_ Hk]%elem_of_not_in. }
  rewrite bind_Ok_l. eexists. split; [done|]. cbn [_data]. split_and!.
  - done.
  - intros k v Hk. unfold d'. by rewrite dict_get_app, Hk.
  - intros k Hk Hnone. unfold d'. rewrite dict_get_app, Hnone.
    apply dict_get_elem_NoDup.
    + rewrite dict_keys_map_pair. apply not_in_NoDup.
    + apply list_elem_of_In, in_map_iff. exists k. split; [done|].
      apply list_elem_of_In, elem_of_not_in. split; [done|]. by apply dict_get_None.
Qed.

Lemma dict_constructor_infills_witness :
  exists self,
    @DVec.__init__ Examples.oracles (Some Examples.zone2) Examples.seg_p
       [("1", Examples.arr [1; 2])] TfNone None DVec.infill_default 0 false = Ok self
    /\ (forall k, k ∈ dict_keys (_data self) <-> k ∈ segment_names Examples.seg_p)
    /\ (forall k v, dict_get k [("1", Examples.arr [1; 2])] = Some v ->
                    dict_get k (_data self) = Some v)
    /\ (forall k, k ∈ segment_names Examples.seg_p ->
                  dict_get k [("1", Examples.arr [1; 2])] = None ->
                  dict_get k (_data self)
                    = Some (DVec.default_val (Some Examples.zone2) DVec.infill_default)).
Proof.
  apply (@dict_constructor_infills Examples.oracles (Some Examples.zone2) Examples.seg_p
           [("1", Examples.arr [1; 2])] TfNone None DVec.infill_default 0 false None).
  - reflexivity.
  - intros k Hk. apply (bool_decide_unpack _). cbn in Hk.
    apply elem_of_cons in Hk as [->|Hk]; [done|]. by apply elem_of_nil in Hk.
  - reflexivity.
Defined.

(* an array can be copied: the zoned dictionary path always has a default *)
Lemma default_val_zoned_copies z infill :
  copy_method (DVec.default_val (Some z) infill) = Ok (DVec.default_val (Some z) infill).
Proof. done. Qed.

(* a Python number cannot: a zoneless vector with a missing segment and a
   Python number as infill is never built *)
Lemma dict_constructor_zoneless_raises `{!Oracles} seg (d : dict string value)
    time_format df_chunk_size (x : Qc) process_count verbose tf :
  DVec._validate_time_format seg time_format = Ok tf ->
  DVec.not_in seg d <> [] ->
  DVec.__init__ None seg d time_format df_chunk_size (PyScalar x) process_count verbose
  = Raise AttributeError.
Proof.
  intros Htf Hmissing. unfold DVec.__init__. rewrite Htf, bind_Ok_l.
  unfold DVec._dict_to_dvec. destruct (DVec.not_in seg d) as [|n l]; done.
Qed.

(** C3 at its failing input.  Without a zoning system, with the default
    infill 0 and with a segmentation of two segments, the dictionary path
    raises AttributeError both for the empty dictionary and for a
    dictionary that holds one of the two segments: no vector is built,
    where the claim promises one with both segments. *)
Theorem dict_constructor_zoneless_infill_fails :
  @DVec.__init__ Examples.oracles None Examples.seg_p [] TfNone None
     DVec.infill_default 0 false = Raise AttributeError
  /\ @DVec.__init__ Examples.oracles None Examples.seg_p
       [("1", PyNum (Examples.q 3 1))] TfNone None DVec.infill_default 0 false
     = Raise AttributeError.
Proof. split; reflexivity. Qed.

(** * Multiply-and-aggregate *)

(** * Multiply-and-aggregate against multiply, then aggregate *)

(* a subset of a dictionary holds entries of that dictionary only *)
Lemma dict_subset_get {V} (src sub : dict string V) ks k v :
  dict_subset src ks = Ok sub -> dict_get k sub = Some v -> dict_get k src = Some v.
Proof.
  unfold dict_subset. intros (vs & Hvs & ->)%for_set_Ok Hget.
  rewrite list_fmap_id, dict_get_update in Hget.
  destruct (dict_get k (reverse (zip ks vs))) as [v'|] eqn:Hrev; [|done].
  injection Hget as ->. apply dict_get_Some_elem in Hrev.
  rewrite elem_of_reverse in Hrev. apply mapR_Ok in Hvs.
  pose proof (Forall2_zip_elem _ _ _ _ _ Hvs Hrev) as Hk. simpl in Hk.
  unfold dict_getitem in Hk. destruct (dict_get k src); [|done]. by injection Hk as ->.
Qed.

Lemma dict_getitem_Ok {K V} `{EqDecision K} (d : dict K V) k v :
  dict_getitem k d = Ok v <-> dict_get k d = Some v.
Proof.
  unfold dict_getitem. destruct (dict_get k d); split; intros [= ->]; done.
Qed.

(* the values a loop has written, looked up by key *)
Lemma zip_values_get {A V} (g : A -> res V) (l : dict string A) (vs : list V) k x :
  Forall2 (fun item v => g item.2 = Ok v) l vs -> NoDup (dict_keys l) ->
  dict_get k l = Some x ->
  exists v, g x = Ok v /\ dict_get k (zip l.*1 vs) = Some v.
Proof.
  intros Hvs. induction Hvs as [|[k' a] v l vs Hv _ IH]; intros Hnd Hget; [done|].
  unfold dict_keys in Hnd. csimpl in *. apply NoDup_cons in Hnd as [Hk' Hnd].
  destruct (decide (k = k')) as [->|Hne].
  - injection Hget as ->. by exists v.
  - by apply IH.
Qed.

Lemma zip_entries {V} (f : string -> V) (ks : list string) (vs : list V) :
  Forall2 (fun k v => v = f k) ks vs -> zip ks vs = entries f ks.
Proof.
  unfold entries. induction 1 as [|k v ks vs -> _ IH]; csimpl; [done|]. by rewrite IH.
Qed.

Lemma for_set_id_fromkeys {V} (g : string -> res V) (ks : list string) (v0 : V) d :
  NoDup ks -> for_set id g (dict_fromkeys ks v0) ks = Ok d ->
  exists vs, Forall2 (fun k v => g k = Ok v) ks vs /\ d = zip ks vs.
Proof.
  intros Hnd Hd.
  destruct (for_set_fromkeys id g ks d v0) as (vs & Hvs & ->).
  - by rewrite list_fmap_id.
  - by rewrite list_fmap_id.
  - exists vs. rewrite list_fmap_id. split; [by apply mapR_Ok|done].
Qed.

Lemma mapR_impl {A B} (f g : A -> res B) (l : list A) (k : list B) :
  (forall x y, f x = Ok y -> g x = Ok y) -> mapR f l = Ok k -> mapR g l = Ok k.
Proof.
  intros Hfg. rewrite !mapR_Ok. intros Hl. eapply Forall2_impl; [exact Hl|exact Hfg].
Qed.

Lemma chunk_list_concat {A} (l : list A) (chunk_size : Z) chunks :
  0 < chunk_size -> chunk_list l chunk_size = Ok chunks -> concat chunks = l.
Proof.
  intros Hpos Hchunks. destruct (chunk_list_Ok l chunk_size Hpos) as (c & Hc & Hcat).
  rewrite Hchunks in Hc. by injection Hc as ->.
Qed.

Lemma ceil_div_pos a b c :
  0 < a -> 0 < b -> ceil_div a b = Ok c -> 0 < c.
Proof.
  unfold ceil_div. intros Ha Hb. destruct (decide (b = 0)); [lia|]. intros [= <-].
  assert ((- a) `div` b < 0); [|lia]. apply Z.div_lt_upper_bound; lia.
Qed.

Lemma product_of_subset a_data b_data a_sub b_sub ks1 ks2 keys v :
  dict_subset a_data ks1 = Ok a_sub -> dict_subset b_data ks2 = Ok b_sub ->
  DVec.product_of a_sub b_sub keys = Ok v -> DVec.product_of a_data b_data keys = Ok v.
Proof.
  intros Ha Hb. unfold DVec.product_of. intros Hv.
  apply bind_Ok in Hv as (x & Hx & Hv). apply bind_Ok in Hv as (y & Hy & Hv).
  apply dict_getitem_Ok in Hx, Hy.
  apply (dict_subset_get _ _ _ _ _ Ha) in Hx.
  apply (dict_subset_get _ _ _ _ _ Hb) in Hy.
  apply dict_getitem_Ok in Hx, Hy. by rewrite Hx, Hy.
Qed.

(* a worker computes, for each of its output segments, the fused value *)
Lemma internal_values (a_data b_data : dict string value)
    (aggregation_dict : dict string (list string))
    (multiply_dict : dict string (string * string)) (kw : DVec.mult_agg_kwargs)
    ks0 ks1 ks2 ks3 dc :
  dict_subset aggregation_dict ks0 = Ok (DVec.kw_aggregation_dict kw) ->
  dict_subset multiply_dict ks1 = Ok (DVec.kw_multiply_dict kw) ->
  dict_subset a_data ks2 = Ok (DVec.kw_self_data kw) ->
  dict_subset b_data ks3 = Ok (DVec.kw_other_data kw) ->
  NoDup (DVec.aggregation_keys_chunk kw) ->
  DVec._multiply_and_aggregate_internal kw = Ok dc ->
  exists vs,
    dc = zip (DVec.aggregation_keys_chunk kw) vs
    /\ Forall2 (fun k v => exists ins, dict_get k aggregation_dict = Some ins
                  /\ fused_value a_data b_data multiply_dict ins = Ok v)
               (DVec.aggregation_keys_chunk kw) vs.
Proof.
  intros Hagg Hmd Ha Hb Hnd Hdc. unfold DVec._multiply_and_aggregate_internal in Hdc.
  apply for_set_id_fromkeys in Hdc as (vs & Hvs & ->); [|done].
  exists vs. split; [done|]. eapply Forall2_impl; [exact Hvs|].
  intros k v Hv. cbn beta in Hv.
  apply bind_Ok in Hv as (ins & Hins & Hv).
  apply dict_getitem_Ok in Hins. apply (dict_subset_get _ _ _ _ _ Hagg) in Hins.
  exists ins. split; [done|]. unfold fused_value.
  apply bind_Ok in Hv as (inter & Hinter & Hv).
  apply bind_Ok. exists inter. split; [|done].
  eapply mapR_impl; [|exact Hinter].
  intros seg row Hrow. cbn beta in Hrow.
  apply bind_Ok in Hrow as (keys & Hkeys & Hrow).
  apply bind_Ok in Hrow as (p & Hp & Hrow).
  apply dict_getitem_Ok in Hkeys. apply (dict_subset_get _ _ _ _ _ Hmd) in Hkeys.
  apply dict_getitem_Ok in Hkeys. rewrite Hkeys, bind_Ok_l.
  by rewrite (product_of_subset _ _ _ _ _ _ _ _ Ha Hb Hp), bind_Ok_l.
Qed.

(* the fused value is what aggregate reads off the product *)
Lemma fused_value_of_product a_data b_data
    (multiply_dict : dict string (string * string)) ps extra ins v :
  NoDup (dict_keys multiply_dict) ->
  Forall2 (fun item p => DVec.product_of a_data b_data item.2 = Ok p) multiply_dict ps ->
  fused_value a_data b_data multiply_dict ins = Ok v ->
  DVec.sum_segments (zip multiply_dict.*1 ps ++ extra) ins = Ok v.
Proof.
  intros Hnd Hps Hv. unfold fused_value in Hv. unfold DVec.sum_segments.
  apply bind_Ok in Hv as (inter & Hinter & Hv).
  apply bind_Ok. exists inter. split; [|done].
  eapply mapR_impl; [|exact Hinter].
  intros seg row Hrow. cbn beta in Hrow.
  apply bind_Ok in Hrow as (keys & Hkeys & Hrow).
  apply bind_Ok in Hrow as (p & Hp & Hrow).
  apply dict_getitem_Ok in Hkeys.
  destruct (zip_values_get (DVec.product_of a_data b_data) _ _ _ _ Hps Hnd Hkeys)
    as (p' & Hp' & Hget).
  rewrite Hp in Hp'. injection Hp' as <-.
  unfold dict_getitem. by rewrite dict_get_app, Hget, bind_Ok_l.
Qed.

(* the results of the workers, chunk by chunk *)
Lemma chunk_results {A B C} (P1 : A -> B -> Prop) (P2 : B -> C -> Prop) (h : A -> C)
    (Q : A -> Prop) (chunks : list A) (kws : list B) (dcs : list C) :
  Forall Q chunks -> Forall2 P1 chunks kws -> Forall2 P2 kws dcs ->
  (forall c kw dc, Q c -> P1 c kw -> P2 kw dc -> dc = h c) ->
  dcs = h <$> chunks.
Proof.
  intros HQ H1. revert dcs. induction H1 as [|c kw chunks kws Hc _ IH]; intros dcs H2 Hh.
  - by inversion H2.
  - inversion H2 as [|? dc ? dcs' Hkw Hdcs]; subst.
    apply Forall_cons in HQ as [Hq HQ]. csimpl. f_equal.
    + by eapply Hh.
    + by apply IH.
Qed.

Lemma NoDup_concat_Forall {A} (ls : list (list A)) :
  NoDup (concat ls) -> Forall (fun l => NoDup l) ls.
Proof.
  intros Hnd. apply Forall_forall. intros l Hl.
  by destruct (NoDup_concat_elem ls l Hnd Hl).
Qed.

(* the zoning system that __mul__ chooses is that of a zoned left operand *)
Lemma chosen_zoning (za zb z : option ZoningSystem) :
  (if decide (za = zb) then Ok za
   else match za, zb with
        | None, _ => Ok zb
        | _, None => Ok za
        | Some _, Some _ => Raise ZoningError
        end) = Ok z ->
  za <> None -> z = za.
Proof.
  destruct (decide (za = zb)); [by intros [= <-]|].
  destruct za, zb; try done; by intros [= <-].
Qed.

(** X27.  Where multiply_and_aggregate and multiply-then-aggregate both
    return a vector, the two vectors have the same data, segmentation and
    time format; their zoning systems are those of [a] and of [a * b]. *)
Lemma multiply_and_aggregate_agrees `{!Oracles} (a b : DVector)
    (out_segmentation : SegmentationLevel)
    (multiply_dict : dict string (string * string)) (mult_return_seg : SegmentationLevel)
    (aggregation_dict : dict string (list string)) (ab r r' : DVector) :
  seg_multiply (segmentation a) (segmentation b) = Ok (multiply_dict, mult_return_seg) ->
  seg_aggregate mult_return_seg out_segmentation = Ok aggregation_dict ->
  NoDup (dict_keys multiply_dict) ->
  NoDup (dict_keys aggregation_dict) ->
  0 < _chunk_divider a ->
  DVec.__mul__ a b = Ok ab ->
  DVec.aggregate ab out_segmentation false = Ok r ->
  DVec.multiply_and_aggregate a b out_segmentation = Ok r' ->
  _data r' = _data r
  /\ segmentation r' = segmentation r
  /\ _time_format r' = _time_format r
  /\ zoning_system r' = zoning_system a
  /\ zoning_system r = zoning_system ab.
Proof.
  intros Hsm Hsa Hnd_md Hnd_agg Hdiv Hmul Hagg Hma.
  (* a * b *)
  unfold DVec.__mul__ in Hmul.
  apply bind_Ok in Hmul as (z & Hz & Hmul). rewrite Hsm, bind_Ok_l in Hmul.
  apply bind_Ok in Hmul as (dd & Hdd & Hmul).
  apply for_set_fromkeys in Hdd as (ps & Hps & ->); [|done]. apply mapR_Ok in Hps.
  apply new_Ok in Hmul as (Hz_ab & Hseg_ab & Htf_ab & Hdata_ab & _).
  apply dict_to_dvec_Ok in Hdata_ab as (Hdata_ab & _).
  (* (a * b).aggregate(out) *)
  unfold DVec.aggregate in Hagg. rewrite Hseg_ab, Hsa, bind_Ok_l in Hagg.
  apply bind_Ok in Hagg as (dvec & Hdvec & Hagg).
  apply for_set_fromkeys in Hdvec as (vs & Hvs & ->); [|done]. apply mapR_Ok in Hvs.
  apply new_Ok in Hagg as (Hz_r & Hseg_r & Htf_r & Hdata_r & _).
  apply validate_property in Htf_r.
  set (dvec := zip aggregation_dict.*1 vs) in *.
  assert (dict_keys dvec = dict_keys aggregation_dict) as Hkeys_dvec.
  { apply dict_keys_zip. unfold dict_keys. rewrite length_fmap. by eapply Forall2_length. }
  (* multiply_and_aggregate(a, b, out) *)
  unfold DVec.multiply_and_aggregate in Hma. rewrite Hsm, bind_Ok_l, Hsa, bind_Ok_l in Hma.
  apply bind_Ok in Hma as (c & Hc & Hma).
  apply bind_Ok in Hma as (chunks & Hchunks & Hma).
  apply bind_Ok in Hma as (kws & Hkws & Hma). apply mapR_Ok in Hkws.
  apply bind_Ok in Hma as (dcs & Hdcs & Hma). apply mapR_Ok in Hdcs.
  apply new_Ok in Hma as (Hz_r' & Hseg_r' & Htf_r' & Hdata_r' & _).
  (* the chunks are the keys of the aggregation *)
  assert (0 < c) as Hpos.
  { destruct aggregation_dict as [|item rest] eqn:Hempty.
    - unfold ceil_div in Hc. destruct (decide (_chunk_divider a = 0)); [done|].
      injection Hc as <-. by rewrite Z.div_0_l in Hchunks.
    - eapply ceil_div_pos; [|exact Hdiv|exact Hc]. simpl. lia. }
  apply (chunk_list_concat _ _ _ Hpos) in Hchunks.
  (* every worker returns the entries that aggregate computes *)
  set (f := fun k => default PyNone (dict_get k dvec)).
  assert (dcs = entries f <$> chunks) as ->.
  { apply (chunk_results _ _ _ _ _ _ _
             (NoDup_concat_Forall chunks ltac:(by rewrite Hchunks)) Hkws Hdcs).
    intros chunk kw dc Hnd_chunk Hkw Hdc. cbn beta in Hkw.
    apply bind_Ok in Hkw as (agg_sub & Hagg_sub & Hkw).
    apply bind_Ok in Hkw as (md_sub & Hmd_sub & Hkw).
    apply bind_Ok in Hkw as ([ks1 ks2] & _ & Hkw).
    apply bind_Ok in Hkw as (sd & Hsd & Hkw).
    apply bind_Ok in Hkw as (od & Hod & Hkw).
    injection Hkw as <-.
    destruct (internal_values (_data a) (_data b) aggregation_dict multiply_dict
                (DVec.Build_mult_agg_kwargs chunk agg_sub md_sub sd od)
                _ _ _ _ _ Hagg_sub Hmd_sub Hsd Hod Hnd_chunk Hdc) as (ws & -> & Hws).
    cbn [DVec.aggregation_keys_chunk] in *. apply zip_entries.
    eapply Forall2_impl; [exact Hws|]. intros k w (ins & Hins & Hw). unfold f.
    destruct (zip_values_get (DVec.sum_segments (_data ab)) _ _ _ _ Hvs Hnd_agg Hins)
      as (w' & Hw' & Hget).
    subst dvec. rewrite Hget. rewrite Hdata_ab in Hw'.
    rewrite (fused_value_of_product _ _ _ _ _ _ _ Hnd_md Hps Hw) in Hw'.
    by injection Hw' as <-. }
  rewrite foldl_dict_update, entries_concat, Hchunks in Hdata_r'.
  rewrite entries_zip, dict_update_overwrite in Hdata_r';
    [|done|by apply dict_keys_fromkeys_NoDup|by rewrite length_fmap].
  rewrite <- entries_zip in Hdata_r'. fold (dict_keys aggregation_dict) in Hdata_r'.
  rewrite <- Hkeys_dvec in Hdata_r'. unfold f in Hdata_r'.
  rewrite <- dict_is_entries in Hdata_r' by by rewrite Hkeys_dvec.
  (* the two constructions *)
  split_and!.
  - apply dict_to_dvec_Ok in Hdata_r as (-> & _).
    apply dict_to_dvec_Ok in Hdata_r' as (-> & Hcopy & _).
    destruct Hcopy as [->|Hcopy]; [done|].
    assert (z = zoning_system a) as Hza.
    { apply (chosen_zoning _ _ _ Hz). intros Hnone. by rewrite Hnone in Hcopy. }
    by rewrite Hz_ab, Hza.
  - by rewrite Hseg_r, Hseg_r'.
  - rewrite Htf_r. unfold DVec.tf_of in Htf_ab, Htf_r'.
    destruct (DVec._choose_time_format a b) as [t|].
    + rewrite validate_enum in Htf_ab, Htf_r'. congruence.
    + apply validate_None in Htf_ab as [-> _]. by apply validate_None in Htf_r' as [-> _].
  - done.
  - done.
Qed.

Lemma multiply_and_aggregate_agrees_witness :
  exists ab r r',
    @DVec.__mul__ Examples.oracles Examples.pop Examples.rate = Ok ab
    /\ @DVec.aggregate Examples.oracles ab Examples.seg_p false = Ok r
    /\ @DVec.multiply_and_aggregate Examples.oracles Examples.pop Examples.rate
         Examples.seg_p = Ok r'
    /\ _data r' = _data r
    /\ segmentation r' = segmentation r
    /\ _time_format r' = _time_format r
    /\ zoning_system r' = zoning_system Examples.pop
    /\ zoning_system r = zoning_system ab.
Proof.
  destruct (@DVec.__mul__ Examples.oracles Examples.pop Examples.rate)
    as [ab|e] eqn:Hab; [|vm_compute in Hab; discriminate Hab].
  destruct (@DVec.aggregate Examples.oracles ab Examples.seg_p false)
    as [r|e] eqn:Hr;
    [|vm_compute in Hab; injection Hab as <-; vm_compute in Hr; discriminate Hr].
  destruct (@DVec.multiply_and_aggregate Examples.oracles Examples.pop Examples.rate
              Examples.seg_p) as [r'|e] eqn:Hr'; [|vm_compute in Hr'; discriminate Hr'].
  exists ab, r, r'. split; [reflexivity|]. split; [exact Hr|]. split; [reflexivity|].
  apply (@multiply_and_aggregate_agrees Examples.oracles Examples.pop Examples.rate
           Examples.seg_p
           [("1_a", ("1", "a")); ("1_b", ("1", "b")); ("2_a", ("2", "a")); ("2_b", ("2", "b"))]
           Examples.seg_pm
           [("1", ["1_a"; "1_b"]); ("2", ["2_a"; "2_b"])] ab r r').
  - reflexivity.
  - reflexivity.
  - apply (bool_decide_unpack _). vm_compute. exact I.
  - apply (bool_decide_unpack _). vm_compute. exact I.
  - reflexivity.
  - exact Hab.
  - exact Hr.
  - exact Hr'.
Defined.

(** C1 at its failing input.  For a zoneless [a] and a zoned [b],
    [(a * b).aggregate(out)] is a vector on the zoning system of [b],
    while [multiply_and_aggregate(a, b, out)] returns the same data,
    segmentation and time format with no zoning system at all. *)
Theorem multiply_and_aggregate_drops_zoning :
  exists r r',
    (ab ← @DVec.__mul__ Examples.oracles Examples.pop_none Examples.rate_z;
     @DVec.aggregate Examples.oracles ab Examples.seg_p false) = Ok r
    /\ @DVec.multiply_and_aggregate Examples.oracles Examples.pop_none Examples.rate_z
         Examples.seg_p = Ok r'
    /\ zoning_system r = Some Examples.zone2
    /\ zoning_system r' = None
    /\ _data r' = _data r
    /\ segmentation r' = segmentation r
    /\ _time_format r' = _time_format r.
Proof.
  destruct (ab ← @DVec.__mul__ Examples.oracles Examples.pop_none Examples.rate_z;
            @DVec.aggregate Examples.oracles ab Examples.seg_p false)
    as [r|e] eqn:Hr; [|vm_compute in Hr; discriminate Hr].
  destruct (@DVec.multiply_and_aggregate Examples.oracles Examples.pop_none
              Examples.rate_z Examples.seg_p)
    as [r'|e] eqn:Hr'; [|vm_compute in Hr'; discriminate Hr'].
  exists r, r'. split; [reflexivity|]. split; [reflexivity|].
  vm_compute in Hr. injection Hr as <-.
  vm_compute in Hr'. injection Hr' as <-.
  split_and!; reflexivity.
Qed.

(** * The constructor, once more *)

(* the sibling of the dictionary path: the tabular path infills with
   copy.copy, which never fails, and leaves every segment name bound *)
Lemma foldl_set_update {V} (v : V) (d : dict string V) (l : list string) :
  foldl (fun data name => dict_set name v data) d l
  = dict_update d (map (fun n => (n, v)) l).
Proof. revert d. induction l as [|n l IH]; intros d; [done|]. apply IH. Qed.

(** X29.  The infill of the tabular path never fails: it leaves every
    segment name bound, keeps the entries it was given, and binds every
    missing segment to the default value - also to a Python number, which
    the dictionary path cannot copy. *)
Lemma dataframe_infill_completes zoning seg (data : dict string value) infill :
  let data' := DVec._dataframe_to_dvec_infill zoning seg data infill in
  (forall k, k ∈ segment_names seg -> k ∈ dict_keys data')
  /\ (forall k v, dict_get k data = Some v -> dict_get k data' = Some v)
  /\ (forall k, k ∈ segment_names seg -> dict_get k data = None ->
                dict_get k data' = Some (DVec.default_val zoning infill)).
Proof.
  intros data'.
  assert (data' = data ++ map (fun n => (n, DVec.default_val zoning infill))
                              (DVec.not_in seg data)) as ->.
  { unfold data', DVec._dataframe_to_dvec_infill, copy_copy.
    rewrite foldl_set_update. apply dict_update_fresh.
    - rewrite dict_keys_map_pair. apply not_in_NoDup.
    - intros k. rewrite dict_keys_map_pair. by intros [_ Hk]%elem_of_not_in. }
  split_and!.
  - intros k Hk. unfold dict_keys. rewrite fmap_app, elem_of_app.
    destruct (decide (k ∈ dict_keys data)) as [Hin|Hout]; [by left|right].
    fold (dict_keys (map (fun n => (n, DVec.default_val zoning infill))
                         (DVec.not_in seg data))).
    rewrite dict_keys_map_pair. by apply elem_of_not_in.
  - intros k v Hk. by rewrite dict_get_app, Hk.
  - intros k Hk Hnone. rewrite dict_get_app, Hnone.
    apply dict_get_elem_NoDup.
    + rewrite dict_keys_map_pair. apply not_in_NoDup.
    + apply list_elem_of_In, in_map_iff. exists k. split; [done|].
      apply list_elem_of_In, elem_of_not_in. split; [done|]. by apply dict_get_None.
Qed.

Lemma validate_Ok_time_period seg arg tf :
  DVec._validate_time_format seg arg = Ok tf ->
  has_time_period_segments seg = true -> tf <> None.
Proof.
  unfold DVec._validate_time_format. intros Hv Htp. rewrite Htp in Hv.
  destruct arg as [|t|s]; [done|by injection Hv as <-|].
  rewrite bind_Ok_l in Hv.
  destruct (bool_decide _); [|done].
  destruct (find _ TimeFormat_.members); [|done].
  by injection Hv as <-.
Qed.

(** X30.  What the constructor establishes.  A vector built from a
    dictionary has every segment name as a key, once, and no other key; it
    has a time format whenever its segmentation has time periods; and its
    chunk divider is 1 for a process count of zero and three times the
    process count otherwise. *)
Lemma init_wf `{!Oracles} zoning seg (d : dict string value) time_format
    df_chunk_size infill pc verbose self :
  NoDup (dict_keys d) ->
  DVec.__init__ zoning seg d time_format df_chunk_size infill pc verbose = Ok self ->
  DVector_wf self.
Proof.
  intros Hnd Hinit. unfold DVec.__init__ in Hinit.
  apply bind_Ok in Hinit as (tf & Htf & Hinit).
  apply bind_Ok in Hinit as (data & Hdata & Hinit).
  injection Hinit as <-.
  apply dict_to_dvec_Ok in Hdata as (-> & _ & Hkeys).
  split; cbn [_data segmentation _time_format _chunk_divider process_count].
  - unfold dict_keys. rewrite fmap_app. apply NoDup_app. split_and!.
    + done.
    + intros k Hk Hk'.
      change (k ∈ dict_keys (map (fun n => (n, DVec.default_val zoning infill))
                                 (DVec.not_in seg d))) in Hk'.
      rewrite dict_keys_map_pair in Hk'. by apply elem_of_not_in in Hk' as [_ Hk'].
    + change (NoDup (dict_keys (map (fun n => (n, DVec.default_val zoning infill))
                                    (DVec.not_in seg d)))).
      rewrite dict_keys_map_pair. apply not_in_NoDup.
  - apply Hkeys.
  - by eapply validate_Ok_time_period.
  - done.
Qed.

Lemma init_wf_witness :
  exists self,
    @DVec.__init__ Examples.oracles (Some Examples.zone2) Examples.seg_p
       [("1", Examples.arr [1; 2])] TfNone None DVec.infill_default (-1) false = Ok self
    /\ DVector_wf self.
Proof.
  destruct (@DVec.__init__ Examples.oracles (Some Examples.zone2) Examples.seg_p
              [("1", Examples.arr [1; 2])] TfNone None DVec.infill_default (-1) false)
    as [self|e] eqn:Hself; [|vm_compute in Hself; discriminate Hself].
  exists self. split; [reflexivity|].
  apply (@init_wf Examples.oracles (Some Examples.zone2) Examples.seg_p
           [("1", Examples.arr [1; 2])] TfNone None DVec.infill_default (-1) false self).
  - apply (bool_decide_unpack _). vm_compute. exact I.
  - exact Hself.
Defined.

(* the object model and the value model of the constructor agree *)
Lemma store_init_view `{!Oracles} zoning seg (import_data : Store.ref) time_format
    df_chunk_size infill process_count verbose (h h' : Store.heap) self :
  (import_data < length h)%nat ->
  Store.__init__ zoning seg import_data time_format df_chunk_size infill
                 process_count verbose h = (Ok self, h') ->
  DVec.__init__ zoning seg (Store.heap_at h import_data) time_format df_chunk_size
                infill process_count verbose
  = Ok (Store.view h' self).
Proof.
  intros Hr Hinit. unfold Store.__init__ in Hinit.
  unfold Store.bind at 1 in Hinit. unfold Store.lift in Hinit.
  unfold DVec.__init__.
  destruct (DVec._validate_time_format seg time_format) as [tf|e]; [|discriminate Hinit].
  unfold Store.bind in Hinit.
  destruct (Store._dict_to_dvec zoning seg import_data infill h) as [[r'|e] h1] eqn:Hconv;
    [|discriminate Hinit].
  unfold Store.ret in Hinit. injection Hinit as <- <-.
  apply store_dict_to_dvec_Ok in Hconv as (-> & d' & Hd' & ->); [|done].
  rewrite bind_Ok_l, Hd', bind_Ok_l. unfold Store.view. cbn.
  unfold Store.heap_at. by rewrite list_lookup_insert_eq.
Qed.

(** * Further properties of the code *)

(** ** Chunks of a table *)

Lemma slices_concat {A} (l : list A) (n k : nat) :
  concat ((fun i => take n (drop (i * n) l)) <$> seq 0 k) = take (k * n) l.
Proof.
  induction k as [|k IH]; [by rewrite take_0|].
  rewrite seq_S, fmap_app, concat_app, IH. csimpl. rewrite app_nil_r.
  rewrite take_take_drop. f_equal. lia.
Qed.

Lemma py_range_pos (stop step : Z) :
  0 < step -> 0 <= stop ->
  exists k : nat,
    py_range stop step = Ok ((fun i : nat => Z.of_nat i * step) <$> seq 0 k)
    /\ ceil_div stop step = Ok (Z.of_nat k)
    /\ (Z.of_nat k * step < stop + step)
    /\ (stop <= Z.of_nat k * step).
Proof.
  intros Hstep Hstop. unfold py_range, ceil_div.
  destruct (decide (step = 0)); [lia|]. destruct (decide (0 < step)); [|lia].
  destruct (decide (0 < stop)) as [Hpos|Hzero].
  - exists (Z.to_nat ((stop - 1) `div` step + 1)).
    assert (0 <= (stop - 1) `div` step) by (apply Z.div_pos; lia).
    rewrite Z2Nat.id by lia. split; [done|].
    pose proof (Z.div_mod (stop - 1) step ltac:(lia)) as Hdm.
    pose proof (Z.mod_pos_bound (stop - 1) step Hstep) as Hm.
    pose proof (Z.div_mod (- stop) step ltac:(lia)) as Hdm'.
    pose proof (Z.mod_pos_bound (- stop) step Hstep) as Hm'.
    generalize dependent ((stop - 1) `div` step). intros q Hq Hdm.
    generalize dependent ((- stop) `div` step). intros q' Hdm'.
    assert (step * (q + q' + 1) < step) by lia.
    assert (- step < step * (q + q' + 1)) by lia.
    assert (q + q' + 1 = 0).
    { destruct (Z.lt_trichotomy (q + q' + 1) 0) as [Hlt|[Heq|Hgt]]; [|done|].
      - assert (step * (q + q' + 1) <= step * (-1)) by (apply Z.mul_le_mono_nonneg_l; lia).
        lia.
      - assert (step * 1 <= step * (q + q' + 1)) by (apply Z.mul_le_mono_nonneg_l; lia).
        lia. }
    split; [f_equal; lia|]. split; nia.
  - exists 0%nat. assert (stop = 0) as -> by lia. split; [done|].
    rewrite Z.opp_0, Z.div_0_l by lia. split; [done|]. lia.
Qed.

(* the chunks of a table, for a positive chunk size *)
Lemma chunk_df_cut {A} (df : list A) (chunk_size : Z) :
  0 < chunk_size ->
  exists chunks,
    chunk_df df chunk_size = Ok chunks
    /\ concat chunks = df
    /\ ceil_div (Z.of_nat (length df)) chunk_size = Ok (Z.of_nat (length chunks))
    /\ (forall i c, chunks !! i = Some c ->
          (0 < length c)%nat /\ Z.of_nat (length c) <= chunk_size)
    /\ (forall i c, chunks !! i = Some c -> (S i < length chunks)%nat ->
          Z.of_nat (length c) = chunk_size).
Proof.
  intros Hpos.
  destruct (py_range_pos (Z.of_nat (length df)) chunk_size Hpos ltac:(lia))
    as (k & Hrange & Hceil & Hupper & Hlower).
  set (n := Z.to_nat chunk_size).
  assert (chunk_size = Z.of_nat n) as Hn by (unfold n; lia).
  exists ((fun i => take n (drop (i * n) df)) <$> seq 0 k).
  assert (length ((fun i => take n (drop (i * n) df)) <$> seq 0 k) = k) as Hlen.
  { by rewrite length_fmap, length_seq. }
  split_and!.
  - unfold chunk_df. rewrite Hrange, bind_Ok_l. f_equal.
    change (map ?f ?l) with (f <$> l). rewrite <- list_fmap_compose.
    apply list_fmap_ext. intros _ i _. unfold py_slice. cbn.
    f_equal; [lia|]. f_equal. lia.
  - rewrite slices_concat. apply take_ge. nia.
  - by rewrite Hlen.
  - intros i c Hc. apply list_lookup_fmap_Some in Hc as (j & -> & Hj).
    apply lookup_seq in Hj as [-> Hi]. rewrite length_take, length_drop. nia.
  - intros i c Hc Hlast. rewrite Hlen in Hlast.
    apply list_lookup_fmap_Some in Hc as (j & -> & Hj).
    apply lookup_seq in Hj as [-> Hi]. rewrite length_take, length_drop. nia.
Qed.

(** X1.  For a positive chunk size, [chunk_df] cuts a table into
    ceil(len / chunk_size) chunks that, put end to end, are the table
    again; no chunk is empty, none has more than chunk_size rows, and
    every chunk but the last has exactly chunk_size rows. *)
Theorem chunk_df_partitions {A} (df : list A) (chunk_size : Z) :
  0 < chunk_size ->
  exists chunks,
    chunk_df df chunk_size = Ok chunks
    /\ concat chunks = df
    /\ ceil_div (Z.of_nat (length df)) chunk_size = Ok (Z.of_nat (length chunks))
    /\ (forall i c, chunks !! i = Some c ->
          (0 < length c)%nat /\ Z.of_nat (length c) <= chunk_size)
    /\ (forall i c, chunks !! i = Some c -> (S i < length chunks)%nat ->
          Z.of_nat (length c) = chunk_size).
Proof. apply chunk_df_cut. Qed.

Lemma chunk_df_partitions_witness :
  exists chunks,
    chunk_df [1; 2; 3; 4; 5; 6; 7] 3 = Ok chunks
    /\ concat chunks = [1; 2; 3; 4; 5; 6; 7]
    /\ ceil_div (Z.of_nat (length [1; 2; 3; 4; 5; 6; 7])) 3 = Ok (Z.of_nat (length chunks))
    /\ (forall i c, chunks !! i = Some c ->
          (0 < length c)%nat /\ Z.of_nat (length c) <= 3)
    /\ (forall i c, chunks !! i = Some c -> (S i < length chunks)%nat ->
          Z.of_nat (length c) = 3).
Proof. apply (chunk_df_partitions [1; 2; 3; 4; 5; 6; 7] 3). lia. Defined.

(** X2.  A chunk size of zero makes [chunk_df] raise ValueError, for
    every table; a negative chunk size is not refused but yields no
    chunk at all, so the rows of the table are dropped without a word. *)
Theorem chunk_df_nonpositive {A} (df : list A) :
  chunk_df df 0 = Raise ValueError
  /\ forall p, chunk_df df (Z.neg p) = Ok [].
Proof.
  unfold chunk_df, py_range. split; [done|]. intros p.
  destruct (decide (Z.neg p = 0)); [lia|]. destruct (decide (0 < Z.neg p)); [lia|].
  by destruct (decide (Z.of_nat (length df) < 0)); [lia|].
Qed.

(** ** Time formats *)

(** X3.  A time format given as an ASCII string is accepted exactly
    when the string, stripped of surrounding whitespace and put in lower
    case, is the value of a member of TimeFormat, and then that member is
    returned; every other ASCII string raises ValueError.  The second
    ValueError of the method, for a valid string with no member, is never
    raised. *)
Theorem validate_time_format_string (seg : SegmentationLevel) (s : string) :
  is_ascii s = true ->
  match DVec._validate_time_format seg (TfStr s) with
  | Ok r => exists t, r = Some t /\ str_lower (str_strip s) = TimeFormat_.value t
  | Raise e =>
      e = ValueError /\ forall t, str_lower (str_strip s) <> TimeFormat_.value t
  end.
Proof.
  intros _. unfold DVec._validate_time_format.
  assert ((if has_time_period_segments seg then Ok () else Ok ()) = Ok ()) as ->
    by by destruct (has_time_period_segments seg).
  rewrite bind_Ok_l. set (s' := str_lower (str_strip s)).
  destruct (bool_decide (s' ∈ DVec._valid_time_formats)) eqn:Hvalid.
  - apply bool_decide_eq_true in Hvalid.
    unfold DVec._valid_time_formats, TimeFormat_.members in Hvalid. cbn in Hvalid.
    repeat (apply elem_of_cons in Hvalid as [->|Hvalid]).
    + by exists AVG_WEEK.
    + by exists AVG_DAY.
    + by exists AVG_HOUR.
    + by apply elem_of_nil in Hvalid.
  - apply bool_decide_eq_false in Hvalid. split; [done|]. intros t Ht.
    apply Hvalid. rewrite Ht. unfold DVec._valid_time_formats, TimeFormat_.members.
    destruct t; by apply (bool_decide_unpack _).
Qed.

Lemma validate_time_format_string_witness :
  match DVec._validate_time_format Examples.seg_tp (TfStr "  Avg_Day ") with
  | Ok r => exists t, r = Some t
                      /\ str_lower (str_strip "  Avg_Day ") = TimeFormat_.value t
  | Raise e =>
      e = ValueError
      /\ forall t, str_lower (str_strip "  Avg_Day ") <> TimeFormat_.value t
  end.
Proof.
  apply (validate_time_format_string Examples.seg_tp "  Avg_Day ").
  reflexivity.
Defined.

(** X4.  [get_conversion_factors] raises ValueError for a conversion to
    the same format and returns a table for every other pair: the
    NormitsDemandError of its last branch is never raised, no division
    inside the tables fails, and every table has exactly the time periods
    1 to 6 as keys and a positive factor for each. *)
Theorem conversion_factors_complete (from to : TimeFormat) :
  if decide (to = from)
  then TimeFormat_.get_conversion_factors from to = Raise ValueError
  else exists factors,
         TimeFormat_.get_conversion_factors from to = Ok factors
         /\ dict_keys factors = TimeFormat_.get_time_periods
         /\ Forall (fun f => (Q2Qc 0 < f)%Qc) (dict_values factors).
Proof.
  destruct (decide (to = from)) as [->|Hne].
  - unfold TimeFormat_.get_conversion_factors. by rewrite decide_True.
  - destruct (TimeFormat_.get_conversion_factors from to) as [factors|e] eqn:Hf;
      [|destruct from, to; try done; vm_compute in Hf; discriminate Hf].
    exists factors. split; [done|].
    destruct from, to; try done; vm_compute in Hf; injection Hf as <-;
      (split; [reflexivity|]);
      repeat (apply Forall_cons; split; [reflexivity|]); apply Forall_nil_2.
Qed.

(** ** What the constructor never keeps *)

(* the settings of a vector that an operator has built *)
Lemma new_settings `{!Oracles} z seg tf d pc vb r :
  DVec.new z seg tf d pc vb = Ok r ->
  _df_chunk_size r = DVec._chunk_size
  /\ _chunk_divider r
     = (if decide (process_count r = 0) then 1 else process_count r * 3).
Proof.
  unfold DVec.new, DVec.__init__. intros Hr.
  apply bind_Ok in Hr as (tf' & _ & Hr). apply bind_Ok in Hr as (data & _ & Hr).
  by injection Hr as <-.
Qed.

(* the time format of a vector built from the chosen time format *)
Lemma chosen_time_format `{!Oracles} seg (a b : DVector) tf :
  DVec._validate_time_format seg (DVec.tf_of (DVec._choose_time_format a b)) = Ok tf ->
  tf = match _time_format a with Some t => Some t | None => _time_format b end.
Proof.
  unfold DVec._choose_time_format.
  destruct (_time_format a) as [t|]; cbn [DVec.tf_of].
  - rewrite validate_enum. by intros [= <-].
  - destruct (_time_format b) as [t|]; cbn [DVec.tf_of].
    + rewrite validate_enum. by intros [= <-].
    + by intros [-> _]%validate_None.
Qed.

(** ** Multiplication *)

(** X5.  The values of a product.  When [a * b] returns a vector, its
    segmentation is the one the two segmentations multiply to, its time
    format is that of [a] if [a] has one and that of [b] otherwise, and
    every segment of the multiply dictionary holds the product of the
    two values it names.  The process count and verbose flag are those of
    [a]; the DataFrame chunk size is not: it is the class default,
    whatever [a] was built with. *)
Theorem mul_values `{!Oracles} (a b r : DVector)
    (multiply_dict : dict string (string * string))
    (return_segmentation : SegmentationLevel) :
  seg_multiply (segmentation a) (segmentation b)
    = Ok (multiply_dict, return_segmentation) ->
  NoDup (dict_keys multiply_dict) ->
  DVec.__mul__ a b = Ok r ->
  segmentation r = return_segmentation
  /\ _time_format r
     = match _time_format a with Some t => Some t | None => _time_format b end
  /\ process_count r = DVec.set_process_count (process_count a)
  /\ verbose r = verbose a
  /\ _df_chunk_size r = DVec._chunk_size
  /\ forall final_seg self_key other_key,
       dict_get final_seg multiply_dict = Some (self_key, other_key) ->
       exists x y p,
         dict_get self_key (_data a) = Some x
         /\ dict_get other_key (_data b) = Some y
         /\ value_mul x y = Ok p
         /\ dict_get final_seg (_data r) = Some p.
Proof.
  intros Hsm Hnd Hmul. unfold DVec.__mul__ in Hmul.
  apply bind_Ok in Hmul as (z & Hz & Hmul). rewrite Hsm, bind_Ok_l in Hmul.
  apply bind_Ok in Hmul as (dd & Hdd & Hmul).
  apply for_set_fromkeys in Hdd as (ps & Hps & ->); [|done]. apply mapR_Ok in Hps.
  destruct (new_settings _ _ _ _ _ _ _ Hmul) as [Hchunk _].
  apply new_Ok in Hmul as (_ & Hseg & Htf & Hdata & Hpc & Hvb).
  apply dict_to_dvec_Ok in Hdata as (Hdata & _).
  split_and!; [done|by eapply chosen_time_format|done..|].
  intros final_seg self_key other_key Hget.
  destruct (zip_values_get (DVec.product_of (_data a) (_data b)) _ _ _ _ Hps Hnd Hget)
    as (p & Hp & Hfinal).
  unfold DVec.product_of in Hp. cbn [fst snd] in Hp.
  apply bind_Ok in Hp as (x & Hx%dict_getitem_Ok & Hp).
  apply bind_Ok in Hp as (y & Hy%dict_getitem_Ok & Hp).
  exists x, y, p. split_and!; [done..|].
  by rewrite Hdata, dict_get_app, Hfinal.
Qed.

Lemma mul_values_witness :
  exists r,
    @DVec.__mul__ Examples.oracles Examples.pop Examples.rate = Ok r
    /\ segmentation r = Examples.seg_pm
    /\ _time_format r = None
    /\ process_count r = @DVec.set_process_count Examples.oracles 0
    /\ verbose r = false
    /\ _df_chunk_size r = DVec._chunk_size
    /\ forall final_seg self_key other_key,
         dict_get final_seg
           [("1_a", ("1", "a")); ("1_b", ("1", "b")); ("2_a", ("2", "a")); ("2_b", ("2", "b"))]
           = Some (self_key, other_key) ->
         exists x y p,
           dict_get self_key (_data Examples.pop) = Some x
           /\ dict_get other_key (_data Examples.rate) = Some y
           /\ value_mul x y = Ok p
           /\ dict_get final_seg (_data r) = Some p.
Proof.
  destruct (@DVec.__mul__ Examples.oracles Examples.pop Examples.rate)
    as [r|e] eqn:Hr; [|vm_compute in Hr; discriminate Hr].
  exists r. split; [reflexivity|].
  apply (@mul_values Examples.oracles Examples.pop Examples.rate r
           [("1_a", ("1", "a")); ("1_b", ("1", "b")); ("2_a", ("2", "a")); ("2_b", ("2", "b"))]
           Examples.seg_pm).
  - reflexivity.
  - apply (bool_decide_unpack _). vm_compute. exact I.
  - exact Hr.
Defined.

(** ** Aggregation *)

(** X6.  The values of an aggregation.  When [aggregate] returns a
    vector, the vector has the zoning system and time format of [v] and
    the output segmentation, and every output segment holds the sum,
    zone by zone, of the flattened values of the input segments it
    collects: an array of columnwise sums when there is an input segment,
    the number zero when there is none. *)
Theorem aggregate_values `{!Oracles} (v : DVector)
    (out_segmentation : SegmentationLevel) (split_tfntt_segmentation : bool)
    (aggregation_dict : dict string (list string)) (r : DVector) :
  (if split_tfntt_segmentation
   then seg_split_tfntt_segmentation (segmentation v) out_segmentation
   else seg_aggregate (segmentation v) out_segmentation) = Ok aggregation_dict ->
  NoDup (dict_keys aggregation_dict) ->
  DVec.aggregate v out_segmentation split_tfntt_segmentation = Ok r ->
  zoning_system r = zoning_system v
  /\ segmentation r = out_segmentation
  /\ _time_format r = _time_format v
  /\ forall out_seg_name in_seg_names,
       dict_get out_seg_name aggregation_dict = Some in_seg_names ->
       exists in_lst,
         Forall2 (fun name row => exists x, dict_get name (_data v) = Some x
                                            /\ flatten x = Ok row)
                 in_seg_names in_lst
         /\ dict_get out_seg_name (_data r)
            = Some (match in_lst with
                    | [] => NpNum (Q2Qc 0)
                    | row :: _ => NpArr (col_sums (length row) in_lst)
                    end)
         /\ (forall row, row ∈ in_lst -> length row = length (default [] (head in_lst))).
Proof.
  intros Hagg Hnd Hr. unfold DVec.aggregate in Hr. rewrite Hagg, bind_Ok_l in Hr.
  apply bind_Ok in Hr as (dvec & Hdvec & Hr).
  apply for_set_fromkeys in Hdvec as (vs & Hvs & ->); [|done]. apply mapR_Ok in Hvs.
  apply new_Ok in Hr as (Hz & Hseg & Htf & Hdata & _).
  apply validate_property in Htf. apply dict_to_dvec_Ok in Hdata as (Hdata & _).
  split_and!; [done..|]. intros out_seg_name in_seg_names Hget.
  destruct (zip_values_get (DVec.sum_segments (_data v)) _ _ _ _ Hvs Hnd Hget)
    as (x & Hx & Hout).
  unfold DVec.sum_segments in Hx. apply bind_Ok in Hx as (in_lst & Hin & Hx).
  exists in_lst. split_and!.
  - apply mapR_Ok in Hin. eapply Forall2_impl; [exact Hin|].
    intros name row Hrow. cbn beta in Hrow.
    apply bind_Ok in Hrow as (y & Hy%dict_getitem_Ok & Hrow). by exists y.
  - rewrite Hdata, dict_get_app, Hout. f_equal.
    destruct in_lst as [|row rows]; [by injection Hx as <-|].
    by apply np_sum_axis0_nonempty in Hx as [_ ->].
  - destruct in_lst as [|row rows]; [by intros row Hrow%elem_of_nil|].
    apply np_sum_axis0_nonempty in Hx as [Huniform _].
    intros row' Hrow'. cbn. by eapply Forall_forall in Huniform.
Qed.

Lemma aggregate_values_witness :
  exists r,
    @DVec.aggregate Examples.oracles Examples.demand Examples.seg_p false = Ok r
    /\ zoning_system r = zoning_system Examples.demand
    /\ segmentation r = Examples.seg_p
    /\ _time_format r = _time_format Examples.demand
    /\ forall out_seg_name in_seg_names,
         dict_get out_seg_name [("1", ["1_a"; "1_b"]); ("2", ["2_a"; "2_b"])]
           = Some in_seg_names ->
         exists in_lst,
           Forall2 (fun name row => exists x, dict_get name (_data Examples.demand) = Some x
                                              /\ flatten x = Ok row)
                   in_seg_names in_lst
           /\ dict_get out_seg_name (_data r)
              = Some (match in_lst with
                      | [] => NpNum (Q2Qc 0)
                      | row :: _ => NpArr (col_sums (length row) in_lst)
                      end)
           /\ (forall row, row ∈ in_lst -> length row = length (default [] (head in_lst))).
Proof.
  destruct (@DVec.aggregate Examples.oracles Examples.demand Examples.seg_p false)
    as [r|e] eqn:Hr; [|vm_compute in Hr; discriminate Hr].
  exists r. split; [reflexivity|].
  apply (@aggregate_values Examples.oracles Examples.demand Examples.seg_p false
           [("1", ["1_a"; "1_b"]); ("2", ["2_a"; "2_b"])] r).
  - reflexivity.
  - apply (bool_decide_unpack _). vm_compute. exact I.
  - exact Hr.
Defined.

(* a loop that assigns every key once builds the same dictionary from the
   empty dictionary and from dict.fromkeys of its keys *)
Lemma for_set_run {A V} (key : A -> string) (g : A -> res V) d l :
  for_set key g d l = (vs ← mapR g l; Ok (dict_update d (zip (key <$> l) vs))).
Proof.
  destruct (for_set key g d l) as [d'|e] eqn:Hd.
  - apply for_set_Ok in Hd as (vs & -> & ->). done.
  - destruct (mapR g l) as [vs|e'] eqn:Hvs.
    + assert (for_set key g d l = Ok (dict_update d (zip (key <$> l) vs))) as Hok
        by (apply for_set_Ok; eauto).
      congruence.
    + csimpl. f_equal. unfold for_set in Hd. revert d Hd Hvs.
      generalize dependent e'. induction l as [|x l IH]; intros e' d Hd Hvs; [done|].
      csimpl in *. destruct (g x) as [y|e0]; csimpl in *; [|congruence].
      destruct (mapR g l) as [k|e1] eqn:Hl; [done|]. csimpl in Hvs.
      injection Hvs as <-. by eapply IH.
Qed.

Lemma for_set_from_empty {A V} (key : A -> string) (g : A -> res V) l (v0 : V) :
  NoDup (key <$> l) ->
  for_set key g [] l = for_set key g (dict_fromkeys (key <$> l) v0) l.
Proof.
  intros Hnd. rewrite !for_set_run. destruct (mapR g l) as [vs|e] eqn:Hvs; [|done].
  csimpl. f_equal. apply mapR_Ok_length in Hvs.
  rewrite (dict_update_overwrite (dict_fromkeys (key <$> l) v0));
    [|done|by apply dict_keys_fromkeys_NoDup|by rewrite length_fmap].
  apply (dict_update_fresh []).
  - rewrite dict_keys_zip; [done|]. by rewrite length_fmap.
  - intros k _. apply not_elem_of_nil.
Qed.

(** X7.  [split_tfntt_segmentation] is [aggregate] with the option of
    the same name, guarded: on a segmentation that names both tfn_tt and
    p the two calls have the same outcome (the same vector or the same
    exception), and on any other segmentation the method raises
    SegmentationError. *)
Theorem split_tfntt_segmentation_is_aggregate `{!Oracles} (v : DVector)
    (out_segmentation : SegmentationLevel) :
  (forall aggregation_dict,
     seg_split_tfntt_segmentation (segmentation v) out_segmentation
       = Ok aggregation_dict ->
     NoDup (dict_keys aggregation_dict)) ->
  DVec.split_tfntt_segmentation v out_segmentation
  = if bool_decide ("tfn_tt" ∈ naming_order (segmentation v)
                    /\ "p" ∈ naming_order (segmentation v))
    then DVec.aggregate v out_segmentation true
    else Raise SegmentationError.
Proof.
  intros Hnd. unfold DVec.split_tfntt_segmentation, DVec.aggregate.
  destruct (decide ("tfn_tt" ∈ naming_order (segmentation v))) as [Htt|Htt];
    [rewrite (bool_decide_eq_false_2 ("tfn_tt" ∉ _)) by tauto
    |rewrite (bool_decide_eq_true_2 ("tfn_tt" ∉ _)) by done;
     by rewrite bool_decide_eq_false_2 by tauto].
  destruct (decide ("p" ∈ naming_order (segmentation v))) as [Hp|Hp];
    [rewrite (bool_decide_eq_false_2 ("p" ∉ _)) by tauto
    |rewrite (bool_decide_eq_true_2 ("p" ∉ _)) by done;
     by rewrite bool_decide_eq_false_2 by tauto].
  rewrite bool_decide_eq_true_2 by done.
  destruct (seg_split_tfntt_segmentation (segmentation v) out_segmentation)
    as [aggregation_dict|e] eqn:Hagg; [|done].
  rewrite !bind_Ok_l.
  by rewrite (for_set_from_empty _ _ _ PyNone) by by apply Hnd.
Qed.

Lemma split_tfntt_segmentation_is_aggregate_witness :
  @DVec.split_tfntt_segmentation Examples.oracles Examples.demand_tt Examples.seg_p
  = if bool_decide ("tfn_tt" ∈ naming_order (segmentation Examples.demand_tt)
                    /\ "p" ∈ naming_order (segmentation Examples.demand_tt))
    then @DVec.aggregate Examples.oracles Examples.demand_tt Examples.seg_p true
    else Raise SegmentationError.
Proof.
  apply (@split_tfntt_segmentation_is_aggregate Examples.oracles).
  intros aggregation_dict [= <-].
  apply (bool_decide_unpack _). vm_compute. exact I.
Defined.

(** ** Subsets and single segments *)

Lemma elem_of_dict_fromkeys {V} (ks : list string) (v : V) k :
  k ∈ dict_keys (dict_fromkeys ks v) <-> k ∈ ks.
Proof.
  rewrite <- dict_get_is_Some. unfold dict_fromkeys.
  rewrite foldl_set_update, dict_get_update. cbn [dict_get].
  assert (k ∈ ks <-> k ∈ dict_keys (reverse (map (fun n => (n, v)) ks))) as ->.
  { by rewrite dict_keys_reverse, elem_of_reverse, dict_keys_map_pair. }
  rewrite <- dict_get_is_Some.
  destruct (dict_get k (reverse (map (fun n => (n, v)) ks))) as [x|]; [done|].
  split; intros [? ?]; done.
Qed.

(** X8.  The values of a subset.  When [subset] returns a vector, the
    vector has the zoning system and time format of [v] and the output
    segmentation; every segment of the subset list is a segment of the
    output segmentation and holds the value it has in [v]; and every
    other segment of the output segmentation holds the constructor's
    infill, zero. *)
Theorem subset_values `{!Oracles} `{!SegmentationQueries} (v : DVector)
    (out_segmentation : SegmentationLevel) (subset_list : list string)
    (r : DVector) :
  seg_subset (segmentation v) out_segmentation = Ok subset_list ->
  DVec.subset v out_segmentation = Ok r ->
  zoning_system r = zoning_system v
  /\ segmentation r = out_segmentation
  /\ _time_format r = _time_format v
  /\ (forall segment, segment ∈ subset_list ->
        segment ∈ segment_names out_segmentation
        /\ exists x, dict_get segment (_data v) = Some x
                     /\ dict_get segment (_data r) = Some x)
  /\ (forall segment, segment ∈ segment_names out_segmentation ->
        segment ∉ subset_list ->
        dict_get segment (_data r)
          = Some (DVec.default_val (zoning_system v) DVec.infill_default)).
Proof.
  intros Hsub Hr. unfold DVec.subset in Hr. rewrite Hsub, bind_Ok_l in Hr.
  apply bind_Ok in Hr as (dvec & Hdvec & Hr).
  apply new_Ok in Hr as (Hz & Hseg & Htf & Hdata & _).
  apply validate_property in Htf.
  apply dict_to_dvec_Ok in Hdata as (Hdata & _ & Hkeys).
  assert (dict_keys dvec = dict_keys (dict_fromkeys subset_list PyNone)) as Hdkeys.
  { eapply for_set_keys_within; [|exact Hdvec]. intros k Hk. cbn.
    by apply elem_of_dict_fromkeys. }
  split_and!; [done..| |].
  - intros segment Hsegment.
    destruct (for_set_id_get _ _ _ _ segment Hdvec Hsegment) as (x & Hx & Hget).
    apply dict_getitem_Ok in Hx.
    assert (dict_get segment (_data r) = Some x) as Hgetr
      by by rewrite Hdata, dict_get_app, Hget.
    split; [|by exists x].
    apply Hkeys, dict_get_is_Some. by rewrite Hgetr.
  - intros segment Hsegment Hnot.
    assert (segment ∉ dict_keys dvec) as Hfresh.
    { rewrite Hdkeys. by rewrite elem_of_dict_fromkeys. }
    rewrite Hdata, dict_get_app. apply dict_get_None in Hfresh as Hnone. rewrite Hnone.
    apply dict_get_elem_NoDup.
    + rewrite dict_keys_map_pair. apply not_in_NoDup.
    + apply list_elem_of_fmap. exists segment. split; [done|].
      by apply elem_of_not_in.
Qed.

Lemma subset_values_witness :
  exists r,
    @DVec.subset Examples.oracles Examples.queries Examples.pop Examples.seg_p1 = Ok r
    /\ zoning_system r = zoning_system Examples.pop
    /\ segmentation r = Examples.seg_p1
    /\ _time_format r = _time_format Examples.pop
    /\ (forall segment, segment ∈ ["1"] ->
          segment ∈ segment_names Examples.seg_p1
          /\ exists x, dict_get segment (_data Examples.pop) = Some x
                       /\ dict_get segment (_data r) = Some x)
    /\ (forall segment, segment ∈ segment_names Examples.seg_p1 ->
          segment ∉ ["1"] ->
          dict_get segment (_data r)
            = Some (DVec.default_val (zoning_system Examples.pop) DVec.infill_default)).
Proof.
  destruct (@DVec.subset Examples.oracles Examples.queries Examples.pop Examples.seg_p1)
    as [r|e] eqn:Hr; [|vm_compute in Hr; discriminate Hr].
  exists r. split; [reflexivity|].
  apply (@subset_values Examples.oracles Examples.queries Examples.pop Examples.seg_p1
           ["1"] r); [reflexivity|exact Hr].
Defined.

(** X9.  [get_segment_data], called with a segment name and whatever
    [du.xor] lets through: a segment dictionary always ends in TypeError
    (the NotImplemented that the code tries to raise is not an
    exception), a name that is not a segment name ends in TypeError as
    well (the ValueError is never built, its message has one argument
    too few), and on a vector whose keys are its segment names every
    segment name returns the value stored under it. *)
Theorem get_segment_data_outcomes `{!SegmentationQueries} (v : DVector)
    (segment_name : option string) (segment_dict : option (dict string string)) :
  (forall k, k ∈ segment_names (segmentation v) -> k ∈ dict_keys (_data v)) ->
  match DVec.get_segment_data v segment_name segment_dict with
  | Ok x =>
      segment_dict = None
      /\ exists name, segment_name = Some name
                      /\ name ∈ segment_names (segmentation v)
                      /\ dict_get name (_data v) = Some x
  | Raise e =>
      (e = ValueError
       /\ du_xor (bool_decide (segment_name = None))
                 (bool_decide (segment_dict = None)) = false)
      \/ (e = TypeError
          /\ (segment_dict <> None
              \/ forall name, segment_name = Some name ->
                              name ∉ segment_names (segmentation v)))
  end.
Proof.
  intros Hkeys. unfold DVec.get_segment_data.
  destruct (du_xor _ _) eqn:Hxor; cbn [negb]; [|by left].
  destruct segment_dict as [d|]; [right; split; [done|by left]|].
  destruct segment_name as [name|]; [|right; split; [done|by right]].
  destruct (decide (name ∈ segment_names (segmentation v))) as [Hin|Hout].
  - rewrite bool_decide_eq_false_2 by tauto.
    pose proof (Hkeys name Hin) as [x Hx]%dict_get_is_Some.
    unfold dict_getitem. rewrite Hx. split; [done|]. by exists name.
  - rewrite bool_decide_eq_true_2 by done. right. split; [done|]. right.
    by intros name' [= <-].
Qed.

Lemma get_segment_data_outcomes_witness :
  match @DVec.get_segment_data Examples.queries Examples.pop (Some "1") None with
  | Ok x =>
      @None (dict string string) = None
      /\ exists name, Some "1" = Some name
                      /\ name ∈ segment_names (segmentation Examples.pop)
                      /\ dict_get name (_data Examples.pop) = Some x
  | Raise e =>
      (e = ValueError
       /\ @du_xor Examples.queries (bool_decide (Some "1" = None))
                  (bool_decide (@None (dict string string) = None)) = false)
      \/ (e = TypeError
          /\ (@None (dict string string) <> None
              \/ forall name, Some "1" = Some name ->
                              name ∉ segment_names (segmentation Examples.pop)))
  end.
Proof.
  apply (@get_segment_data_outcomes Examples.queries Examples.pop (Some "1") None).
  intros k Hk. apply (bool_decide_unpack _).
  cbn in Hk. repeat (apply elem_of_cons in Hk as [->|Hk]); [done..|].
  by apply elem_of_nil in Hk.
Defined.

(** ** Removing the zoning *)

Lemma Qsum_concat (rows : list (list Qc)) :
  Qsum (concat rows) = Qsum (Qsum <$> rows).
Proof.
  induction rows as [|row rows IH]; csimpl; [done|].
  rewrite Qsum_app, IH. done.
Qed.

Lemma np_sum_flatten x row : flatten x = Ok row -> np_sum x = Ok (Qsum row).
Proof.
  destruct x as [|a|a|xs]; simpl; intros [= <-]; [|done].
  f_equal. unfold Qsum. simpl. ring.
Qed.

(* the sum of a list of numpy scalars *)
Lemma sum_of_scalars (ss : list Qc) :
  (rows ← mapR flatten (NpNum <$> ss); np_sum_all rows) = Ok (Qsum ss).
Proof.
  rewrite mapR_fmap. rewrite (mapR_total _ (fun s => [s])) by done.
  rewrite bind_Ok_l. rewrite (np_sum_all_uniform 1).
  - f_equal. rewrite Qsum_concat, <- list_fmap_compose. f_equal.
    rewrite <- (list_fmap_id ss) at 2.
    apply list_fmap_ext. intros _ s _. cbn. unfold Qsum. simpl. ring.
  - unfold uniform. apply Forall_fmap, Forall_true. done.
Qed.

(* the values of the zipped dictionary, key by key *)
Lemma dict_get_zip_fmap {A V} (f : A -> V) (d : dict string A) k x :
  dict_get k d = Some x -> dict_get k (zip d.*1 (f <$> d.*2)) = Some (f x).
Proof.
  induction d as [|[k' a] d IH]; csimpl; [done|].
  destruct (decide (k = k')); [by intros [= ->]|done].
Qed.

Lemma np_sum_value_number x :
  x <> PyNone -> exists s, np_sum_value x = NpNum s
                           /\ forall row, flatten x = Ok row -> Qsum row = s.
Proof.
  destruct x as [|a|a|xs]; [done|..]; intros _; eexists; (split; [reflexivity|]);
    simpl; intros row [= <-]; [|done]. unfold Qsum. simpl. ring.
Qed.

(** X10.  [sum_zoning] of a vector whose keys are its segment names
    always returns: a vector without zoning system, on the same
    segmentation, with the same time format and the same keys in the same
    order, in which every segment holds np.sum of the value it had - a
    numpy scalar for a number or an array, and None for a None, which
    np.sum hands back.  When no value of [v] is None the total of the new
    vector can be taken, and it is the total of [v] whenever [v] has
    one. *)
Theorem sum_zoning_keeps_total `{!Oracles} (v : DVector) :
  DVector_wf v ->
  exists r,
    DVec.sum_zoning v = Ok r
    /\ zoning_system r = None
    /\ segmentation r = segmentation v
    /\ _time_format r = _time_format v
    /\ dict_keys (_data r) = dict_keys (_data v)
    /\ (forall k x, dict_get k (_data v) = Some x ->
                    dict_get k (_data r) = Some (np_sum_value x))
    /\ (no_None (_data v) ->
        exists t, DVec.sum r = Ok t /\ forall s, DVec.sum v = Ok s -> s = t).
Proof.
  intros [Hnd Hkeys Htp Hdiv]. unfold DVec.sum_zoning, DVec.remove_zoning.
  rewrite (mapR_total _ np_sum_value) by done. rewrite bind_Ok_l.
  set (values := np_sum_value <$> dict_values (_data v)).
  assert (length values = length (dict_keys (_data v))) as Hlen.
  { unfold values, dict_values, dict_keys. by rewrite !length_fmap. }
  assert (dict_keys (zip (dict_keys (_data v)) values) = dict_keys (_data v)) as Hzk
    by by apply dict_keys_zip.
  assert (dict_of_pairs (zip (dict_keys (_data v)) values)
          = zip (dict_keys (_data v)) values) as ->.
  { unfold dict_of_pairs. apply (dict_update_fresh []).
    - by rewrite Hzk.
    - intros k _. apply not_elem_of_nil. }
  unfold DVec.new, DVec.__init__.
  rewrite validate_property_wf by done. rewrite bind_Ok_l.
  rewrite dict_to_dvec_complete by (intros k; by rewrite Hzk). rewrite bind_Ok_l.
  eexists. split; [reflexivity|]. cbn [zoning_system segmentation _time_format _data].
  split_and!; [done..| |].
  - intros k x Hget. by apply dict_get_zip_fmap.
  - intros Hnone. unfold DVec.sum. cbn [_data]. rewrite dict_values_zip by done.
    assert (Forall (fun x => x <> PyNone) (dict_values (_data v))) as Hvals.
    { apply Forall_forall. intros x Hx.
      apply list_elem_of_fmap in Hx as ([k x'] & Heq & Hin). simpl in Heq.
      subst x'. intros ->. apply (Hnone k). by apply dict_get_elem_NoDup. }
    clear -Hvals. subst values. revert Hvals.
    generalize (dict_values (_data v)). intros vals Hvals.
    assert (exists ss, np_sum_value <$> vals = NpNum <$> ss
                       /\ Forall2 (fun x s => forall row, flatten x = Ok row ->
                                                          Qsum row = s) vals ss)
      as (ss & -> & Hss).
    { induction Hvals as [|x vals Hx _ (ss & IH & Hss)]; [by exists []|].
      destruct (np_sum_value_number x Hx) as (s & Hs & Hrow).
      exists (s :: ss). csimpl. rewrite Hs, IH. split; [done|]. by constructor. }
    exists (Qsum ss). split; [apply sum_of_scalars|]. intros s Hs.
    apply bind_Ok in Hs as (rows & Hrows & Hs).
    apply np_sum_all_Ok in Hs as [_ ->]. rewrite Qsum_concat. f_equal.
    apply mapR_Ok in Hrows. clear -Hrows Hss. revert ss Hss.
    induction Hrows as [|x row l rows Hrow _ IH]; intros ss Hss.
    + by inversion Hss.
    + inversion Hss as [|? s ? ss' Hs Hss']; subst. csimpl.
      f_equal; [by apply Hs|by apply IH].
Qed.

Lemma sum_zoning_keeps_total_witness :
  exists r,
    @DVec.sum_zoning Examples.oracles Examples.pop = Ok r
    /\ zoning_system r = None
    /\ segmentation r = segmentation Examples.pop
    /\ _time_format r = _time_format Examples.pop
    /\ dict_keys (_data r) = dict_keys (_data Examples.pop)
    /\ (forall k x, dict_get k (_data Examples.pop) = Some x ->
                    dict_get k (_data r) = Some (np_sum_value x))
    /\ (no_None (_data Examples.pop) ->
        exists t, DVec.sum r = Ok t /\ forall s, DVec.sum Examples.pop = Ok s -> s = t).
Proof.
  apply (@sum_zoning_keeps_total Examples.oracles Examples.pop).
  split.
  - apply (bool_decide_unpack _). vm_compute. exact I.
  - intros k. cbn. split; intros Hk; exact Hk.
  - intros Htp. discriminate Htp.
  - reflexivity.
Defined.

(** ** Copies *)

(** X11.  [copy] of a vector whose keys are its segment names never
    fails, and the copy has the same zoning system, segmentation, time
    format, data and verbose flag; its DataFrame chunk size is the class
    default, whatever the original was built with, and its process count
    and chunk divider are those of the original when the original's
    process count is not negative. *)
Theorem copy_same_vector `{!Oracles} (v : DVector) :
  DVector_wf v ->
  exists r,
    DVec.copy v = Ok r
    /\ same_vector r v
    /\ verbose r = verbose v
    /\ _df_chunk_size r = DVec._chunk_size
    /\ (0 <= process_count v ->
        process_count r = process_count v /\ _chunk_divider r = _chunk_divider v).
Proof.
  intros Hwf. exists (rebuilt v (_time_format v) (_data v)).
  split; [by apply copy_run|]. split; [done|]. split; [done|]. split; [done|].
  intros Hpc. destruct Hwf as [_ _ _ Hdiv]. cbn.
  unfold DVec.set_process_count. rewrite decide_False by lia. by rewrite Hdiv.
Qed.

Lemma copy_same_vector_witness :
  exists r,
    @DVec.copy Examples.oracles Examples.pop = Ok r
    /\ same_vector r Examples.pop
    /\ verbose r = verbose Examples.pop
    /\ _df_chunk_size r = DVec._chunk_size
    /\ (0 <= process_count Examples.pop ->
        process_count r = process_count Examples.pop
        /\ _chunk_divider r = _chunk_divider Examples.pop).
Proof.
  apply (@copy_same_vector Examples.oracles Examples.pop). split.
  - apply (bool_decide_unpack _). vm_compute. exact I.
  - intros k. cbn. split; intros Hk; exact Hk.
  - intros Htp. discriminate Htp.
  - reflexivity.
Defined.

(** X12.  A copy shares its data with the original: [copy] hands the
    dictionary object of the vector to the constructor, which keeps it,
    so the data of the copy is the very dictionary of the original, no
    new dictionary is created, and an assignment made through the copy is
    read through the original. *)
Theorem copy_shares_the_data `{!Oracles} (self : Store.DVectorObj)
    (h h' : Store.heap) (c : Store.DVectorObj) :
  (Store.o_data self < length h)%nat ->
  Store.copy self h = (Ok c, h') ->
  Store.o_data c = Store.o_data self
  /\ length h' = length h
  /\ forall k x,
       dict_get k (_data (Store.view (Store.setitem (Store.o_data c) k x h').2 self))
       = Some x.
Proof.
  intros Hr Hcopy. unfold Store.copy, Store.__init__ in Hcopy.
  unfold Store.bind at 1 in Hcopy. unfold Store.lift in Hcopy.
  destruct (DVec._validate_time_format _ _) as [tf|e]; [|discriminate Hcopy].
  unfold Store.bind in Hcopy.
  destruct (Store._dict_to_dvec _ _ _ _ h) as [[r'|e] h1] eqn:Hconv;
    [|discriminate Hcopy].
  unfold Store.ret in Hcopy. injection Hcopy as <- <-.
  apply store_dict_to_dvec_Ok in Hconv as (-> & d' & Hd' & ->); [|done].
  cbn [Store.o_data]. split_and!; [done|apply length_insert|].
  intros k x. unfold Store.setitem, Store.view. cbn [snd _data].
  rewrite heap_at_alter by by rewrite length_insert.
  rewrite dict_get_set. by rewrite decide_True.
Qed.

Lemma copy_shares_the_data_witness :
  exists c h',
    @Store.copy Examples.oracles Examples.pop_obj [_data Examples.pop] = (Ok c, h')
    /\ Store.o_data c = Store.o_data Examples.pop_obj
    /\ length h' = length [_data Examples.pop]
    /\ forall k x,
         dict_get k
           (_data (Store.view (Store.setitem (Store.o_data c) k x h').2
                              Examples.pop_obj))
         = Some x.
Proof.
  destruct (@Store.copy Examples.oracles Examples.pop_obj [_data Examples.pop])
    as [[c|e] h'] eqn:Hc; [|vm_compute in Hc; discriminate Hc].
  exists c, h'. split; [reflexivity|].
  apply (@copy_shares_the_data Examples.oracles Examples.pop_obj
           [_data Examples.pop] h' c); [cbn; lia|exact Hc].
Defined.

(** ** Comparing totals *)







(** ** Expansion *)

(** X14.  The values of an expansion.  When [expand_segmentation]
    returns a vector, the vector is on the zoning system of [self] and on
    the segmentation the two segmentations expand to, every segment of
    the expansion dictionary holds the product of the two values it
    names, and a [self] with a zoning system was expanded by a vector on
    that zoning system or on none. *)
Theorem expand_segmentation_values `{!Oracles} (self expansion_dvec r : DVector)
    (expand_dict : dict string (string * string)) (return_seg : SegmentationLevel) :
  seg_expand (segmentation self) (segmentation expansion_dvec)
    = Ok (expand_dict, return_seg) ->
  NoDup (dict_keys expand_dict) ->
  DVec.expand_segmentation self expansion_dvec = Ok r ->
  zoning_system r = zoning_system self
  /\ segmentation r = return_seg
  /\ (zoning_system self <> None ->
      zoning_system expansion_dvec = zoning_system self
      \/ zoning_system expansion_dvec = None)
  /\ forall final_seg self_key other_key,
       dict_get final_seg expand_dict = Some (self_key, other_key) ->
       exists x y p,
         dict_get self_key (_data self) = Some x
         /\ dict_get other_key (_data expansion_dvec) = Some y
         /\ value_mul x y = Ok p
         /\ dict_get final_seg (_data r) = Some p.
Proof.
  intros Hse Hnd Hr. unfold DVec.expand_segmentation in Hr.
  apply bind_Ok in Hr as (e & He & Hr). apply bind_Ok in Hr as (close & _ & Hr).
  destruct close; [|done]. injection Hr as <-.
  unfold DVec.expanded_dvec in He. apply bind_Ok in He as ([] & Hzone & He).
  rewrite Hse, bind_Ok_l in He. apply bind_Ok in He as (dd & Hdd & He).
  apply for_set_fromkeys in Hdd as (ps & Hps & ->); [|done]. apply mapR_Ok in Hps.
  apply new_Ok in He as (Hz & Hseg & _ & Hdata & _).
  apply dict_to_dvec_Ok in Hdata as (Hdata & _).
  split_and!; [done..| |].
  - intros Hzoned. destruct (zoning_system self) as [z|]; [|done].
    destruct (bool_decide _) eqn:Hok; [|done]. by apply bool_decide_eq_true in Hok.
  - intros final_seg self_key other_key Hget.
    destruct (zip_values_get (DVec.product_of (_data self) (_data expansion_dvec))
                _ _ _ _ Hps Hnd Hget) as (p & Hp & Hfinal).
    unfold DVec.product_of in Hp. cbn [fst snd] in Hp.
    apply bind_Ok in Hp as (x & Hx%dict_getitem_Ok & Hp).
    apply bind_Ok in Hp as (y & Hy%dict_getitem_Ok & Hp).
    exists x, y, p. split_and!; [done..|].
    by rewrite Hdata, dict_get_app, Hfinal.
Qed.

Lemma expand_segmentation_values_witness :
  exists r,
    @DVec.expand_segmentation Examples.oracles Examples.pop Examples.halves = Ok r
    /\ zoning_system r = zoning_system Examples.pop
    /\ segmentation r = Examples.seg_pm
    /\ (zoning_system Examples.pop <> None ->
        zoning_system Examples.halves = zoning_system Examples.pop
        \/ zoning_system Examples.halves = None)
    /\ forall final_seg self_key other_key,
         dict_get final_seg
           [("1_a", ("1", "a")); ("1_b", ("1", "b")); ("2_a", ("2", "a")); ("2_b", ("2", "b"))]
           = Some (self_key, other_key) ->
         exists x y p,
           dict_get self_key (_data Examples.pop) = Some x
           /\ dict_get other_key (_data Examples.halves) = Some y
           /\ value_mul x y = Ok p
           /\ dict_get final_seg (_data r) = Some p.
Proof.
  destruct (@DVec.expand_segmentation Examples.oracles Examples.pop Examples.halves)
    as [r|e] eqn:Hr; [|vm_compute in Hr; discriminate Hr].
  exists r. split; [reflexivity|].
  apply (@expand_segmentation_values Examples.oracles Examples.pop Examples.halves r
           [("1_a", ("1", "a")); ("1_b", ("1", "b")); ("2_a", ("2", "a")); ("2_b", ("2", "b"))]
           Examples.seg_pm).
  - reflexivity.
  - apply (bool_decide_unpack _). vm_compute. exact I.
  - exact Hr.
Defined.

(** ** Constructions that fail *)

(** X15.  What a refused construction leaves behind.  When the time
    format is refused, the caller's dictionary is as it was; when the
    dictionary has a key that is no segment name, the constructor fails
    only after it has written the infill into the caller's dictionary, and
    the caller is left with a dictionary that has grown by the segments
    that were missing.  The failure is a TypeError, not the
    SegmentationError the code names: the message of that error subtracts
    the list of segment names from a set. *)
Theorem refused_construction_and_the_callers_dict `{!Oracles}
    zoning seg (import_data : Store.ref) time_format df_chunk_size infill
    process_count verbose (h : Store.heap) (k : string) :
  (import_data < length h)%nat ->
  k ∈ dict_keys (Store.heap_at h import_data) ->
  k ∉ segment_names seg ->
  copy_method (DVec.default_val zoning infill) = Ok (DVec.default_val zoning infill) ->
  match DVec._validate_time_format seg time_format with
  | Raise e =>
      Store.__init__ zoning seg import_data time_format df_chunk_size infill
                     process_count verbose h = (Raise e, h)
  | Ok _ =>
      exists h',
        Store.__init__ zoning seg import_data time_format df_chunk_size infill
                       process_count verbose h = (Raise TypeError, h')
        /\ length h' = length h
        /\ (forall r, r <> import_data -> h' !! r = h !! r)
        /\ Store.heap_at h' import_data
           = Store.heap_at h import_data
             ++ map (fun n => (n, DVec.default_val zoning infill))
                    (DVec.not_in seg (Store.heap_at h import_data))
  end.
Proof.
  intros Hr Hk Hout Hcopy. unfold Store.__init__.
  unfold Store.bind at 1. unfold Store.lift at 1.
  destruct (DVec._validate_time_format seg time_format) as [tf|e]; [|done].
  set (d := Store.heap_at h import_data).
  set (dv := DVec.default_val zoning infill) in *.
  set (d' := d ++ map (fun n => (n, dv)) (DVec.not_in seg d)).
  exists (alter (fun _ => d') import_data h).
  assert (Store.heap_at (alter (fun _ => d') import_data h) import_data = d') as Hat
    by by rewrite heap_at_alter.
  split_and!.
  - unfold Store.bind at 1. unfold Store._dict_to_dvec.
    unfold Store.bind at 1. unfold Store.read at 1.
    unfold Store.bind at 1. fold d. fold dv. rewrite store_infill_loop, Hcopy.
    assert (alter (fun d0 => dict_update d0 (map (fun n => (n, dv)) (DVec.not_in seg d)))
                  import_data h = alter (fun _ => d') import_data h) as ->.
    { apply list_alter_ext; [|done]. intros d0 Hd0.
      assert (d0 = d) as ->.
      { unfold d, Store.heap_at. by rewrite Hd0. }
      apply dict_update_fresh.
      - rewrite dict_keys_map_pair. apply not_in_NoDup.
      - intros n. rewrite dict_keys_map_pair. by intros [_ Hn]%elem_of_not_in. }
    unfold Store.bind at 1. unfold Store.read at 1. rewrite Hat.
    assert (is_correct_naming seg (dict_keys d') = false) as ->; [|done].
    apply not_true_is_false. rewrite is_correct_naming_spec. intros Hall.
    apply Hout, Hall. unfold d', dict_keys. rewrite fmap_app, elem_of_app. by left.
  - apply length_alter.
  - intros r Hne. by apply list_lookup_alter_ne.
  - done.
Qed.

Lemma refused_construction_and_the_callers_dict_witness :
  exists h',
    @Store.__init__ Examples.oracles (Some Examples.zone2) Examples.seg_p 0%nat
       TfNone None DVec.infill_default 0 false
       [[("3", Examples.arr [1; 2])]] = (Raise TypeError, h')
    /\ length h' = length [[("3", Examples.arr [1; 2])]]
    /\ (forall r, r <> 0%nat -> h' !! r = [[("3", Examples.arr [1; 2])]] !! r)
    /\ Store.heap_at h' 0
       = Store.heap_at [[("3", Examples.arr [1; 2])]] 0
         ++ map (fun n => (n, DVec.default_val (Some Examples.zone2) DVec.infill_default))
                (DVec.not_in Examples.seg_p
                   (Store.heap_at [[("3", Examples.arr [1; 2])]] 0)).
Proof.
  apply (@refused_construction_and_the_callers_dict Examples.oracles
           (Some Examples.zone2) Examples.seg_p 0%nat TfNone None DVec.infill_default
           0 false [[("3", Examples.arr [1; 2])]] "3").
  - cbn. lia.
  - apply (bool_decide_unpack _). vm_compute. exact I.
  - apply (bool_decide_unpack _). vm_compute. exact I.
  - reflexivity.
Defined.

(** ** Splitting a segmentation like another vector *)

Lemma elem_of_concat {A} (x : A) (ls : list (list A)) :
  x ∈ concat ls <-> exists l, l ∈ ls /\ x ∈ l.
Proof.
  induction ls as [|l ls IH]; csimpl.
  - split; [by intros ?%elem_of_nil|]. by intros (l & ?%elem_of_nil & _).
  - rewrite elem_of_app, IH. split.
    + intros [Hx|(l' & Hl' & Hx)].
      * exists l. split; [constructor|done].
      * exists l'. split; [by constructor|done].
    + intros (l' & Hl' & Hx). apply elem_of_cons in Hl' as [->|Hl']; [by left|].
      right. by exists l'.
Qed.

Lemma mapR_zip_snd {A B C} (g : B -> res C) (l1 : list A) (l2 : list B) :
  length l1 = length l2 -> mapR (fun x => g x.2) (zip l1 l2) = mapR g l2.
Proof.
  revert l2. induction l1 as [|a l1 IH]; intros [|b l2] Hlen; try done.
  csimpl. rewrite IH by (simpl in Hlen; lia). done.
Qed.

Lemma np_true_divide_finite (x y : Qc) :
  y <> Q2Qc 0 -> np_true_divide (Finite x) (Finite y) = Finite (x / y)%Qc.
Proof. intros Hy. unfold np_true_divide. by rewrite decide_False. Qed.

Lemma np_true_divide_by_zero (a : npfloat) q :
  np_true_divide a (Finite (Q2Qc 0)) <> Finite q.
Proof.
  destruct a as [x| | |]; unfold np_true_divide; [|done..].
  rewrite decide_True by done. by repeat destruct (decide _).
Qed.

(* a factor that is not finite leaves an array of length zero, or nothing *)
Lemma value_mul_npfloat_not_finite a f x :
  (forall q, f <> Finite q) -> value_mul_npfloat a f = Ok x ->
  a = NpArr [] /\ x = NpArr [].
Proof.
  intros Hf. destruct f as [q| | |]; [by destruct (Hf q)|..];
    (destruct a as [|y|y|[|y ys]]; simpl; [done..|by intros [= <-]|done]).
Qed.

Lemma np_sum_floats_Finite (l : list npfloat) t :
  np_sum_floats l = Finite t -> exists qs, l = Finite <$> qs /\ t = Qsum qs.
Proof.
  revert t. induction l as [|a l IH]; intros t; unfold np_sum_floats; csimpl.
  - intros [= <-]. by exists [].
  - fold (np_sum_floats l). destruct a as [x| | |], (np_sum_floats l) as [y| | |];
      try done. intros [= <-]. destruct (IH y eq_refl) as (qs & -> & ->).
    by exists (x :: qs).
Qed.

Lemma split_group_Ok `{!Oracles} (self other : DVector) d item d' :
  DVec.split_group self other d item = Ok d' ->
  exists ps, split_group_writes self other item ps
             /\ length ps = length item.2
             /\ d' = dict_update d (zip item.2 ps).
Proof.
  destruct item as [in_seg_name out_seg_names]. unfold DVec.split_group. intros Hd.
  apply bind_Ok in Hd as (means & Hmeans & Hd).
  apply bind_Ok in Hd as (self_seg & Hself%dict_getitem_Ok & Hd).
  pose proof (mapR_Ok_length _ _ _ Hmeans) as Hlen_means.
  apply for_set_Ok in Hd as (ps & Hps & ->).
  rewrite fst_zip in * by (rewrite length_map; lia).
  rewrite (mapR_zip_snd (value_mul_npfloat self_seg)) in Hps
    by (rewrite length_map; lia).
  pose proof (mapR_Ok_length _ _ _ Hps) as Hlen_ps. rewrite length_map in Hlen_ps.
  exists ps. split; [|split; [cbn; lia|done]].
  exists self_seg, means. cbn [fst snd]. split_and!.
  - done.
  - apply mapR_Ok in Hmeans. eapply Forall2_impl; [exact Hmeans|].
    intros s m Hm. cbn beta in Hm.
    apply bind_Ok in Hm as (o & Ho%dict_getitem_Ok & Hm). by exists o.
  - change (map ?f means) with (f <$> means) in Hps.
    rewrite mapR_fmap in Hps. by apply mapR_Ok in Hps.
Qed.

Lemma Forall2_elem_zip_with {A B C} (R : A -> B -> Prop) (f : A -> B -> C) l k x :
  Forall2 R l k -> x ∈ l -> exists y, R x y /\ f x y ∈ zip_with f l k.
Proof.
  induction 1 as [|a b l k Hab _ IH]; [by intros ?%elem_of_nil|].
  intros [->|Hx]%elem_of_cons.
  - exists b. split; [done|]. csimpl. constructor.
  - destruct (IH Hx) as (y & Hy & Hin). exists y. split; [done|]. csimpl. by constructor.
Qed.

Lemma Forall2_through {A B C} (R1 : A -> B -> Prop) (R2 : B -> C -> Prop)
    (Q : A -> C -> Prop) l1 l2 l3 :
  Forall2 R1 l1 l2 -> Forall2 R2 l2 l3 ->
  (forall a c, (a, c) ∈ zip l1 l3 -> Q a c) ->
  Forall2 (fun a b => exists c, R2 b c /\ Q a c) l1 l2.
Proof.
  intros H1. revert l3. induction H1 as [|a b l1 l2 Hab _ IH]; intros l3 H2 HQ.
  - constructor.
  - inversion H2 as [|? c ? l3' Hbc H2']; subst. constructor.
    + exists c. split; [done|]. apply HQ. csimpl. constructor.
    + apply (IH l3'); [done|]. intros a' c' Hin. apply HQ. csimpl. by constructor.
Qed.

(* a loop whose passes each assign a list of keys *)
Lemma write_loop_Ok {A V} (step : dict string V -> A -> res (dict string V))
    (keys : A -> list string) (R : A -> list V -> Prop) :
  (forall d item d', step d item = Ok d' ->
     exists ws, R item ws /\ length ws = length (keys item)
                /\ d' = dict_update d (zip (keys item) ws)) ->
  forall l d d', foldM step d l = Ok d' ->
    exists wss,
      Forall2 (fun item ws => R item ws /\ length ws = length (keys item)) l wss
      /\ d' = dict_update d (concat (zip_with (fun item ws => zip (keys item) ws) l wss)).
Proof.
  intros Hstep l. induction l as [|item l IH]; intros d d' Hd.
  - injection Hd as <-. exists []. split; [constructor|done].
  - csimpl in Hd. apply bind_Ok in Hd as (d1 & Hd1 & Hd).
    apply Hstep in Hd1 as (ws & Hws & Hlen & ->).
    apply IH in Hd as (wss & Hwss & ->).
    exists (ws :: wss). split; [by constructor|]. csimpl. by rewrite dict_update_app.
Qed.

Lemma write_loop_keys {A V} (keys : A -> list string) (l : list A) (wss : list (list V)) :
  Forall2 (fun item ws => length ws = length (keys item)) l wss ->
  dict_keys (concat (zip_with (fun item ws => zip (keys item) ws) l wss))
  = concat (keys <$> l).
Proof.
  unfold dict_keys.
  induction 1 as [|item ws l wss Hlen _ IH]; csimpl; [done|].
  rewrite fmap_app, IH. f_equal. apply fst_zip. lia.
Qed.

(* the values a loop of assignments leaves under the keys of one pass *)
Lemma write_loop_get {A V} (keys : A -> list string) (R : A -> list V -> Prop)
    (l : list A) (wss : list (list V)) (d : dict string V) (item : A) :
  Forall2 (fun item ws => R item ws /\ length ws = length (keys item)) l wss ->
  NoDup (concat (keys <$> l)) ->
  item ∈ l ->
  exists ws,
    R item ws /\ length ws = length (keys item)
    /\ forall k w, (k, w) ∈ zip (keys item) ws ->
         dict_get k (dict_update d (concat (zip_with (fun item ws => zip (keys item) ws)
                                                     l wss))) = Some w.
Proof.
  intros Hwss Hnd Hitem.
  destruct (Forall2_elem_zip_with _ (fun item ws => zip (keys item) ws) _ _ _ Hwss Hitem)
    as (ws & [Hws Hlen] & Hin).
  exists ws. split_and!; [done..|]. intros k w Hkw.
  set (W := concat (zip_with (fun item ws => zip (keys item) ws) l wss)) in *.
  assert (dict_keys W = concat (keys <$> l)) as Hkeys.
  { apply write_loop_keys. eapply Forall2_impl; [exact Hwss|]. by intros ? ? [_ ?]. }
  rewrite dict_get_update, dict_get_reverse_NoDup by by rewrite Hkeys.
  assert (dict_get k W = Some w) as ->; [|done].
  apply dict_get_elem_NoDup; [by rewrite Hkeys|].
  apply elem_of_concat. by exists (zip (keys item) ws).
Qed.

(* the groups of a vector that split_segmentation_like has returned *)
Lemma split_like_groups `{!Oracles} `{!SegmentationQueries} (self other r : DVector)
    (split_dict : dict string (list string)) :
  seg_split (segmentation self) (segmentation other) = Ok split_dict ->
  NoDup (concat (dict_values split_dict)) ->
  DVec.split_segmentation_like self other = Ok r ->
  forall item, item ∈ split_dict ->
    exists ps, split_group_writes self other item ps
               /\ length ps = length item.2
               /\ forall s p, (s, p) ∈ zip item.2 ps -> dict_get s (_data r) = Some p.
Proof.
  intros Hsplit Hnd Hr item Hitem. unfold DVec.split_segmentation_like in Hr.
  rewrite Hsplit, bind_Ok_l in Hr. apply bind_Ok in Hr as (dd & Hdd & Hr).
  apply new_Ok in Hr as (_ & _ & _ & Hdata & _).
  apply dict_to_dvec_Ok in Hdata as (Hdata & _).
  destruct (write_loop_Ok (DVec.split_group self other) snd
              (split_group_writes self other) (split_group_Ok self other)
              _ _ _ Hdd) as (pss & Hpss & ->).
  destruct (write_loop_get snd _ _ _
              (dict_fromkeys (segment_names (segmentation other)) PyNone)
              item Hpss Hnd Hitem) as (ps & Hps & Hlen & Hget).
  exists ps. split_and!; [done..|]. intros s p Hsp.
  by rewrite Hdata, dict_get_app, (Hget s p).
Qed.

(** X16.  The values of a split.  When [split_segmentation_like]
    returns a vector, the vector is on the zoning system of [self] and
    the segmentation of [other]; and for every group of the split
    dictionary, provided no output segment is listed twice, each output
    segment holds the value of the input segment times one number, the
    same for all zones: the mean of [other] over that output segment
    divided by the sum of the means over the group.  The code divides
    without a check: where the sum of the means is zero (or a mean is
    nan) the quotient is inf or nan, and the product a value of the model
    only when it has no entry. *)
Theorem split_segmentation_like_values `{!Oracles} `{!SegmentationQueries}
    (self other r : DVector) (split_dict : dict string (list string)) :
  seg_split (segmentation self) (segmentation other) = Ok split_dict ->
  NoDup (concat (dict_values split_dict)) ->
  DVec.split_segmentation_like self other = Ok r ->
  zoning_system r = zoning_system self
  /\ segmentation r = segmentation other
  /\ _time_format r
     = match _time_format self with Some t => Some t | None => _time_format other end
  /\ forall in_seg_name out_seg_names,
       (in_seg_name, out_seg_names) ∈ split_dict ->
       exists self_seg means,
         dict_get in_seg_name (_data self) = Some self_seg
         /\ Forall2 (fun s m => exists o, dict_get s (_data other) = Some o
                                          /\ np_mean o = Ok m) out_seg_names means
         /\ Forall2 (fun s m =>
                       exists p,
                         value_mul_npfloat self_seg
                           (np_true_divide m (np_sum_floats means)) = Ok p
                         /\ dict_get s (_data r) = Some p)
                    out_seg_names means
         /\ forall total, np_sum_floats means = Finite total -> total <> Q2Qc 0 ->
              exists qs,
                means = Finite <$> qs /\ total = Qsum qs
                /\ Forall2 (fun s q =>
                              exists p, value_mul self_seg (NpNum (q / total)%Qc) = Ok p
                                        /\ dict_get s (_data r) = Some p)
                           out_seg_names qs.
Proof.
  intros Hsplit Hnd Hr.
  pose proof (split_like_groups self other r split_dict Hsplit Hnd Hr) as Hgroups.
  unfold DVec.split_segmentation_like in Hr.
  rewrite Hsplit, bind_Ok_l in Hr. apply bind_Ok in Hr as (dd & _ & Hr).
  apply new_Ok in Hr as (Hz & Hseg & Htf & _).
  split_and!; [done..|by eapply chosen_time_format|].
  intros in_seg_name out_seg_names Hitem.
  destruct (Hgroups _ Hitem) as (ps & (self_seg & means & Hself & Hmeans & Hps)
                                 & _ & Hget).
  exists self_seg, means.
  assert (Forall2 (fun s m =>
                     exists p,
                       value_mul_npfloat self_seg
                         (np_true_divide m (np_sum_floats means)) = Ok p
                       /\ dict_get s (_data r) = Some p) out_seg_names means)
    as Hall by by eapply Forall2_through.
  split_and!; [done..|].
  intros total Htotal Hnz.
  destruct (np_sum_floats_Finite _ _ Htotal) as (qs & -> & Hqs).
  exists qs. split_and!; [done..|]. rewrite Htotal in Hall.
  apply Forall2_fmap_r in Hall. eapply Forall2_impl; [exact Hall|].
  intros s q (p & Hp & Hgetp). exists p. split; [|done].
  cbn beta in Hp. by rewrite np_true_divide_finite in Hp.
Qed.

Lemma split_segmentation_like_values_witness :
  exists r,
    @DVec.split_segmentation_like Examples.oracles Examples.queries
       Examples.pop Examples.demand = Ok r
    /\ zoning_system r = zoning_system Examples.pop
    /\ segmentation r = segmentation Examples.demand
    /\ _time_format r
       = match _time_format Examples.pop with
         | Some t => Some t
         | None => _time_format Examples.demand
         end
    /\ forall in_seg_name out_seg_names,
         (in_seg_name, out_seg_names) ∈ [("1", ["1_a"; "1_b"]); ("2", ["2_a"; "2_b"])] ->
         exists self_seg means,
           dict_get in_seg_name (_data Examples.pop) = Some self_seg
           /\ Forall2 (fun s m => exists o, dict_get s (_data Examples.demand) = Some o
                                            /\ np_mean o = Ok m) out_seg_names means
           /\ Forall2 (fun s m =>
                         exists p,
                           value_mul_npfloat self_seg
                             (np_true_divide m (np_sum_floats means)) = Ok p
                           /\ dict_get s (_data r) = Some p)
                      out_seg_names means
           /\ forall total, np_sum_floats means = Finite total -> total <> Q2Qc 0 ->
                exists qs,
                  means = Finite <$> qs /\ total = Qsum qs
                  /\ Forall2 (fun s q =>
                                exists p, value_mul self_seg (NpNum (q / total)%Qc) = Ok p
                                          /\ dict_get s (_data r) = Some p)
                             out_seg_names qs.
Proof.
  destruct (@DVec.split_segmentation_like Examples.oracles Examples.queries
              Examples.pop Examples.demand) as [r|e] eqn:Hr;
    [|vm_compute in Hr; discriminate Hr].
  exists r. split; [reflexivity|].
  apply (@split_segmentation_like_values Examples.oracles Examples.queries
           Examples.pop Examples.demand r
           [("1", ["1_a"; "1_b"]); ("2", ["2_a"; "2_b"])]).
  - reflexivity.
  - apply (bool_decide_unpack _). vm_compute. exact I.
  - exact Hr.
Defined.

Lemma np_sum_scaled a f x s :
  value_mul a (NpNum f) = Ok x -> np_sum a = Ok s -> np_sum x = Ok (s * f)%Qc.
Proof.
  destruct a as [|y|y|ys]; simpl; try done; intros [= <-] [= <-]; simpl; [done..|].
  by rewrite Qsum_map_mult.
Qed.

Lemma Qsum_shares (s total : Qc) (means : list Qc) :
  Qsum ((fun m => s * (m / total))%Qc <$> means) = (s * (Qsum means / total))%Qc.
Proof.
  unfold Qsum. induction means as [|m means IH]; csimpl.
  - unfold Qcdiv. ring.
  - rewrite IH. unfold Qcdiv. ring.
Qed.

(** X17.  A split keeps the mass of every segment it splits, where
    the code's division is one by a number that is not zero.  For every
    group of the split dictionary (no output segment being listed twice)
    in which the means of [other] are numbers whose sum is not zero, the
    sums over zones of the output segments of the returned vector add up
    to the sum over zones of the input segment of [self] (in exact
    arithmetic; on doubles up to the rounding of the quotients and
    products).  Where the means sum to zero the code divides by zero and
    the mass of the segment is lost to inf and nan; nothing is stated
    there. *)
Theorem split_segmentation_like_keeps_mass `{!Oracles} `{!SegmentationQueries}
    (self other r : DVector) (split_dict : dict string (list string))
    (in_seg_name : string) (out_seg_names : list string)
    (means : list npfloat) (total : Qc) :
  seg_split (segmentation self) (segmentation other) = Ok split_dict ->
  NoDup (concat (dict_values split_dict)) ->
  DVec.split_segmentation_like self other = Ok r ->
  (in_seg_name, out_seg_names) ∈ split_dict ->
  Forall2 (fun s m => exists o, dict_get s (_data other) = Some o
                                /\ np_mean o = Ok m) out_seg_names means ->
  np_sum_floats means = Finite total ->
  total <> Q2Qc 0 ->
  exists self_seg s sums,
    dict_get in_seg_name (_data self) = Some self_seg
    /\ np_sum self_seg = Ok s
    /\ Forall2 (fun name t => exists p, dict_get name (_data r) = Some p
                                        /\ np_sum p = Ok t) out_seg_names sums
    /\ Qsum sums = s.
Proof.
  intros Hsplit Hnd Hr Hitem Hmeans0 Htotal Hnz.
  destruct (split_like_groups self other r split_dict Hsplit Hnd Hr _ Hitem)
    as (ps & (self_seg & means' & Hself & Hmeans & Hps) & _ & Hget).
  cbn [fst snd] in *.
  assert (means' = means) as ->.
  { clear -Hmeans Hmeans0. revert means Hmeans0.
    induction Hmeans as [|s m l ms (o & Ho & Hm) _ IH]; intros means Hmeans0.
    - by inversion Hmeans0.
    - inversion Hmeans0 as [|? m0 ? ms0 (o0 & Ho0 & Hm0) Hrest]; subst.
      rewrite Ho in Ho0. injection Ho0 as <-. rewrite Hm in Hm0.
      injection Hm0 as <-. f_equal. by apply IH. }
  destruct (np_sum_floats_Finite _ _ Htotal) as (qs & -> & Hqs).
  rewrite Htotal in Hps. apply Forall2_fmap_l in Hps.
  assert (Forall2 (fun q p => value_mul self_seg (NpNum (q / total)%Qc) = Ok p) qs ps)
    as Hps'.
  { eapply Forall2_impl; [exact Hps|]. intros q p Hp.
    unfold compose in Hp. cbn beta in Hp.
    by rewrite np_true_divide_finite in Hp. }
  assert (qs <> []) as Hne.
  { intros ->. apply Hnz. by rewrite Hqs. }
  assert (exists s, np_sum self_seg = Ok s) as [s Hs].
  { destruct self_seg as [|y|y|ys]; [|by eexists..].
    destruct Hps' as [|? ? ? ? Hp _]; [done|]. by simpl in Hp. }
  exists self_seg, s, ((fun q => s * (q / total))%Qc <$> qs).
  split_and!; [done..| |].
  - apply Forall2_fmap_r. apply Forall2_fmap_r in Hmeans.
    pose proof (Forall2_through _ _ (fun a c => dict_get a (_data r) = Some c)
                  _ _ _ Hmeans Hps' Hget) as Hall.
    eapply Forall2_impl; [exact Hall|]. intros name q (p & Hp & Hgetp).
    exists p. split; [done|]. by eapply np_sum_scaled.
  - rewrite Qsum_shares, <- Hqs. field. done.
Qed.

Lemma split_segmentation_like_keeps_mass_witness :
  exists r self_seg s sums,
    @DVec.split_segmentation_like Examples.oracles Examples.queries
       Examples.pop Examples.demand = Ok r
    /\ dict_get "1" (_data Examples.pop) = Some self_seg
    /\ np_sum self_seg = Ok s
    /\ Forall2 (fun name t => exists p, dict_get name (_data r) = Some p
                                        /\ np_sum p = Ok t) ["1_a"; "1_b"] sums
    /\ Qsum sums = s.
Proof.
  destruct (@DVec.split_segmentation_like Examples.oracles Examples.queries
              Examples.pop Examples.demand) as [r|e] eqn:Hr;
    [|vm_compute in Hr; discriminate Hr].
  destruct (@split_segmentation_like_keeps_mass Examples.oracles Examples.queries
              Examples.pop Examples.demand r
              [("1", ["1_a"; "1_b"]); ("2", ["2_a"; "2_b"])] "1" ["1_a"; "1_b"]
              [Finite (Examples.q 15 2); Finite (Examples.q 4 1)] (Examples.q 23 2))
    as (self_seg & s & sums & H1 & H2 & H3 & H4).
  - reflexivity.
  - apply (bool_decide_unpack _). vm_compute. exact I.
  - exact Hr.
  - constructor.
  - constructor; [|constructor; [|constructor]];
      (eexists; split; [reflexivity|]; vm_compute; do 2 f_equal;
       apply Qc_is_canon; reflexivity).
  - vm_compute. f_equal; apply Qc_is_canon; reflexivity.
  - discriminate.
  - exists r, self_seg, s, sums. split; [reflexivity|]. split_and!; assumption.
Defined.

(** ** Conversions between any two time formats *)

Lemma factors_reciprocal (a b : TimeFormat) (tp : Z) :
  a <> b -> tp ∈ TimeFormat_.get_time_periods ->
  exists f g, factor a b tp = Some f /\ factor b a tp = Some g /\ (f * g)%Qc = 1%Qc.
Proof.
  intros Hne Htp. unfold TimeFormat_.get_time_periods in Htp.
  repeat (apply elem_of_cons in Htp as [->|Htp]);
    [..|by apply elem_of_nil in Htp];
    destruct a, b; try done;
    (eexists _, _; split_and!; [reflexivity|reflexivity|];
     apply Qc_is_canon; reflexivity).
Qed.

Lemma factors_chain (a b c : TimeFormat) (tp : Z) :
  a <> b -> b <> c -> a <> c -> tp ∈ TimeFormat_.get_time_periods ->
  exists f g h, factor a b tp = Some f /\ factor b c tp = Some g
                /\ factor a c tp = Some h /\ (f * g)%Qc = h.
Proof.
  intros Hab Hbc Hac Htp. unfold TimeFormat_.get_time_periods in Htp.
  repeat (apply elem_of_cons in Htp as [->|Htp]);
    [..|by apply elem_of_nil in Htp];
    destruct a, b, c; try done;
    (eexists _, _, _; split_and!; [reflexivity|reflexivity|reflexivity|];
     apply Qc_is_canon; reflexivity).
Qed.

Lemma scale_compose f g x : scale g (scale f x) = scale (f * g)%Qc x.
Proof.
  destruct x as [|a|a|xs]; simpl; [done|by rewrite Qcmult_assoc..|].
  f_equal. rewrite map_map. apply map_ext. intros a. by rewrite Qcmult_assoc.
Qed.

Lemma converted_data_compose groups f1 f2 f3 data :
  (forall k, k ∈ dict_keys data ->
     exists tp, tp_of groups k = Some tp
       /\ (default (Q2Qc 0) (dict_get tp f1) * default (Q2Qc 0) (dict_get tp f2))%Qc
          = default (Q2Qc 0) (dict_get tp f3)) ->
  converted_data groups f2 (converted_data groups f1 data)
  = converted_data groups f3 data.
Proof.
  intros Hchain. unfold converted_data at 1. rewrite converted_data_keys.
  unfold converted_data at 2. apply entries_ext. intros k Hk.
  destruct (Hchain k Hk) as (tp & Htp & Hmul). rewrite Htp.
  pose proof Hk as Hx. apply dict_get_is_Some in Hx as [x Hx].
  rewrite (converted_data_get _ _ _ _ _ _ Htp Hx), Hx. csimpl.
  by rewrite scale_compose, Hmul.
Qed.

Section Conversions.
Context `{!Oracles}.
Context (v : DVector) (a : TimeFormat).
Hypothesis Hwf : DVector_wf v.
Hypothesis Hnone : no_None (_data v).
Hypothesis Hgroups : tp_groups_ok (segmentation v).
Hypothesis Htp : has_time_period_segments (segmentation v) = true.
Hypothesis Htf : _time_format v = Some a.

(* one conversion to another format, and what it keeps *)
Lemma convert_step (b : TimeFormat) :
  a <> b ->
  exists factors w,
    TimeFormat_.get_conversion_factors a b = Ok factors
    /\ DVec.convert_time_format v (TfEnum b) = Ok w
    /\ w = rebuilt v (Some b)
             (converted_data (get_time_period_groups (segmentation v)) factors (_data v))
    /\ DVector_wf w /\ no_None (_data w).
Proof.
  intros Hne. destruct (factors_known a b Hne) as (f & Hf & Hperiods).
  eexists f, _. split_and!; [done|by eapply convert_run|done| |].
  - apply rebuilt_wf; [done|apply converted_data_keys|done].
  - apply converted_data_no_None; [|done].
    intros k Hk. destruct Hgroups as [_ _ _ Hcover]. apply Hcover. by apply Hwf.
Qed.

End Conversions.

(** X18.  There and back, within floating tolerance.  For a
    well-formed vector with a time format and time-period segments, whose
    segments are grouped by known time periods: converting to any other
    time format and from there back to the format the vector had returns
    a vector with the zoning system, segmentation, time format and keys
    it started from, and with the values it started from in exact
    arithmetic: the two factors of a time period multiply to 1.  (On
    doubles a value comes back within the rounding of its two
    multiplications, not always to the last digit.) *)
Theorem convert_time_format_there_and_back `{!Oracles} (v : DVector)
    (a b : TimeFormat) :
  DVector_wf v ->
  no_None (_data v) ->
  tp_groups_ok (segmentation v) ->
  has_time_period_segments (segmentation v) = true ->
  _time_format v = Some a ->
  a <> b ->
  exists w v',
    DVec.convert_time_format v (TfEnum b) = Ok w
    /\ _time_format w = Some b
    /\ DVec.convert_time_format w (TfEnum a) = Ok v'
    /\ same_vector v' v.
Proof.
  intros Hwf Hnone Hgroups Htp Htf Hne.
  destruct (convert_step v a Hwf Hnone Hgroups Htp Htf b Hne)
    as (f & w & Hf & Hw & Hweq & Hwfw & Hnonew).
  assert (segmentation w = segmentation v) as Hsegw by by rewrite Hweq.
  assert (_time_format w = Some b) as Htfw by by rewrite Hweq.
  destruct (convert_step w b Hwfw Hnonew ltac:(by rewrite Hsegw)
              ltac:(by rewrite Hsegw) Htfw a ltac:(done))
    as (g & v' & Hg & Hv' & Hv'eq & _ & _).
  exists w, v'. split_and!; [done..|].
  rewrite Hv'eq. unfold same_vector. cbn. rewrite Hweq. cbn.
  split_and!; [done..|].
  apply converted_data_twice; [apply Hwf|].
  intros k Hk. destruct Hgroups as [Hknown _ _ Hcover].
  destruct (Hcover k) as [tp' Htp']; [by apply Hwf|].
  exists tp'. split; [done|].
  apply tp_of_elem, Hknown in Htp'.
  destruct (factors_reciprocal a b tp' Hne Htp') as (x & y & Hx & Hy & Hxy).
  unfold factor in Hx, Hy. rewrite Hf in Hx. rewrite Hg in Hy.
  by rewrite Hx, Hy.
Qed.

(* the weekly example vector meets the conditions of the conversions *)
Lemma week_well_formed :
  DVector_wf Examples.week
  /\ no_None (_data Examples.week)
  /\ tp_groups_ok (segmentation Examples.week).
Proof.
  split_and!.
  - split.
    + apply (bool_decide_unpack _). vm_compute. exact I.
    + intros k. cbn. split; intros Hk; exact Hk.
    + intros _. discriminate.
    + reflexivity.
  - intros k. cbn. repeat (destruct (decide _); [discriminate|]). discriminate.
  - split.
    + intros s tp Hin. cbn in Hin.
      repeat (apply elem_of_cons in Hin as [[= -> ->]|Hin]);
        [apply (bool_decide_unpack _); vm_compute; exact I..|].
      by apply elem_of_nil in Hin.
    + intros tp Hin. cbn in Hin.
      repeat (apply elem_of_cons in Hin as [->|Hin]);
        [apply (bool_decide_unpack _); vm_compute; exact I..|].
      by apply elem_of_nil in Hin.
    + intros s tp Hin. cbn in Hin.
      repeat (apply elem_of_cons in Hin as [[= -> ->]|Hin]);
        [apply (bool_decide_unpack _); vm_compute; exact I..|].
      by apply elem_of_nil in Hin.
    + intros s Hin. cbn in Hin.
      repeat (apply elem_of_cons in Hin as [->|Hin]); [by eexists..|].
      by apply elem_of_nil in Hin.
Qed.

Lemma convert_time_format_there_and_back_witness :
  exists w v',
    @DVec.convert_time_format Examples.oracles Examples.week (TfEnum AVG_HOUR) = Ok w
    /\ _time_format w = Some AVG_HOUR
    /\ @DVec.convert_time_format Examples.oracles w (TfEnum AVG_WEEK) = Ok v'
    /\ same_vector v' Examples.week.
Proof.
  destruct week_well_formed as (Hwf & Hnone & Hgroups).
  apply (@convert_time_format_there_and_back Examples.oracles Examples.week
           AVG_WEEK AVG_HOUR Hwf Hnone Hgroups); [reflexivity|reflexivity|discriminate].
Defined.

(** X19.  Conversions compose, within floating tolerance.  Under the
    same conditions, converting to a second time format and from there to
    a third gives a vector with the zoning system, segmentation, time
    format and keys of the direct conversion to the third, and with its
    values in exact arithmetic: the factors of the two steps multiply to
    the factor of the direct conversion.  (On doubles the two routes
    agree within the rounding of their multiplications, not always to the
    last digit.) *)
Theorem convert_time_format_composes `{!Oracles} (v : DVector)
    (a b c : TimeFormat) :
  DVector_wf v ->
  no_None (_data v) ->
  tp_groups_ok (segmentation v) ->
  has_time_period_segments (segmentation v) = true ->
  _time_format v = Some a ->
  a <> b -> b <> c -> a <> c ->
  exists w u u',
    DVec.convert_time_format v (TfEnum b) = Ok w
    /\ DVec.convert_time_format w (TfEnum c) = Ok u
    /\ DVec.convert_time_format v (TfEnum c) = Ok u'
    /\ same_vector u u'.
Proof.
  intros Hwf Hnone Hgroups Htp Htf Hab Hbc Hac.
  destruct (convert_step v a Hwf Hnone Hgroups Htp Htf b Hab)
    as (f & w & Hf & Hw & Hweq & Hwfw & Hnonew).
  destruct (convert_step v a Hwf Hnone Hgroups Htp Htf c Hac)
    as (h & u' & Hh & Hu' & Hu'eq & _ & _).
  assert (segmentation w = segmentation v) as Hsegw by by rewrite Hweq.
  assert (_time_format w = Some b) as Htfw by by rewrite Hweq.
  destruct (convert_step w b Hwfw Hnonew ltac:(by rewrite Hsegw)
              ltac:(by rewrite Hsegw) Htfw c Hbc)
    as (g & u & Hg & Hu & Hueq & _ & _).
  exists w, u, u'. split_and!; [done..|].
  rewrite Hueq, Hu'eq. unfold same_vector. cbn. rewrite Hweq. cbn.
  split_and!; [done..|].
  apply converted_data_compose.
  intros k Hk. destruct Hgroups as [Hknown _ _ Hcover].
  destruct (Hcover k) as [tp' Htp']; [by apply Hwf|].
  exists tp'. split; [done|].
  apply tp_of_elem, Hknown in Htp'.
  destruct (factors_chain a b c tp' Hab Hbc Hac Htp') as (x & y & z & Hx & Hy & Hz & Hxy).
  unfold factor in Hx, Hy, Hz. rewrite Hf in Hx. rewrite Hg in Hy. rewrite Hh in Hz.
  by rewrite Hx, Hy, Hz.
Qed.

Lemma convert_time_format_composes_witness :
  exists w u u',
    @DVec.convert_time_format Examples.oracles Examples.week (TfEnum AVG_DAY) = Ok w
    /\ @DVec.convert_time_format Examples.oracles w (TfEnum AVG_HOUR) = Ok u
    /\ @DVec.convert_time_format Examples.oracles Examples.week (TfEnum AVG_HOUR) = Ok u'
    /\ same_vector u u'.
Proof.
  destruct week_well_formed as (Hwf & Hnone & Hgroups).
  apply (@convert_time_format_composes Examples.oracles Examples.week
           AVG_WEEK AVG_DAY AVG_HOUR Hwf Hnone Hgroups);
    [reflexivity|reflexivity|discriminate..].
Defined.

(** X20.  What [convert_time_format] needs and what it keeps.  The
    method returns a vector only for a vector that has a time format, on
    a segmentation with time periods, and for an argument that names a
    time format; the vector it returns has that time format and the
    zoning system and segmentation it started with.  In particular a
    time format can never be converted away, and a vector without time
    format can never be given one by a conversion. *)
Theorem convert_time_format_returns `{!Oracles} (v r : DVector) (arg : tf_arg) :
  DVec.convert_time_format v arg = Ok r ->
  exists cur new,
    _time_format v = Some cur
    /\ DVec._validate_time_format (segmentation v) arg = Ok (Some new)
    /\ has_time_period_segments (segmentation v) = true
    /\ zoning_system r = zoning_system v
    /\ segmentation r = segmentation v
    /\ _time_format r = Some new.
Proof.
  intros Hr. unfold DVec.convert_time_format in Hr.
  apply bind_Ok in Hr as (new & Hnew & Hr).
  destruct (_time_format v) as [cur|] eqn:Hcur; [|done].
  destruct new as [new|]; [|done].
  destruct (has_time_period_segments (segmentation v)) eqn:Htp; [|done].
  cbn [negb] in Hr. exists cur, new. split_and!; [done..| | |].
  - destruct (decide (cur = new)) as [->|Hne].
    + unfold DVec.copy in Hr. by apply new_Ok in Hr as (? & _).
    + apply bind_Ok in Hr as (factors & _ & Hr).
      destruct (filter _ _); [|done]. apply bind_Ok in Hr as (dd & _ & Hr).
      by apply new_Ok in Hr as (? & _).
  - destruct (decide (cur = new)) as [->|Hne].
    + unfold DVec.copy in Hr. by apply new_Ok in Hr as (_ & ? & _).
    + apply bind_Ok in Hr as (factors & _ & Hr).
      destruct (filter _ _); [|done]. apply bind_Ok in Hr as (dd & _ & Hr).
      by apply new_Ok in Hr as (_ & ? & _).
  - destruct (decide (cur = new)) as [->|Hne].
    + unfold DVec.copy in Hr. apply new_Ok in Hr as (_ & _ & Htf & _).
      rewrite Hcur in Htf. cbn [DVec.tf_of] in Htf. rewrite validate_enum in Htf.
      by injection Htf as <-.
    + apply bind_Ok in Hr as (factors & _ & Hr).
      destruct (filter _ _); [|done]. apply bind_Ok in Hr as (dd & _ & Hr).
      apply new_Ok in Hr as (_ & _ & Htf & _). rewrite validate_enum in Htf.
      by injection Htf as <-.
Qed.

Lemma convert_time_format_returns_witness :
  exists r cur new,
    @DVec.convert_time_format Examples.oracles Examples.week (TfStr " Avg_Day ") = Ok r
    /\ _time_format Examples.week = Some cur
    /\ DVec._validate_time_format (segmentation Examples.week) (TfStr " Avg_Day ")
       = Ok (Some new)
    /\ has_time_period_segments (segmentation Examples.week) = true
    /\ zoning_system r = zoning_system Examples.week
    /\ segmentation r = segmentation Examples.week
    /\ _time_format r = Some new.
Proof.
  destruct (@DVec.convert_time_format Examples.oracles Examples.week (TfStr " Avg_Day "))
    as [r|e] eqn:Hr; [|vm_compute in Hr; discriminate Hr].
  destruct (@convert_time_format_returns Examples.oracles Examples.week r
              (TfStr " Avg_Day ") Hr) as (cur & new & Hrest).
  exists r, cur, new. split; [reflexivity|exact Hrest].
Defined.

(** ** Balancing weekdays and weekends *)

Lemma Qsum_concat_scaled (f : Qc) (rows : list (list Qc)) :
  Qsum (concat (map (map (fun a => (a * f)%Qc)) rows)) = (Qsum (concat rows) * f)%Qc.
Proof.
  induction rows as [|row rows IH]; csimpl.
  - unfold Qsum. simpl. ring.
  - rewrite !Qsum_app, IH, Qsum_map_mult. ring.
Qed.

(* the total of a list of values that have all been scaled *)
Lemma np_sum_values_scaled (vs xs : list value) (f s : Qc) :
  Forall2 (fun v x => value_mul v (NpNum f) = Ok x) vs xs ->
  np_sum_values vs = Ok s -> np_sum_values xs = Ok (s * f)%Qc.
Proof.
  intros Hxs Hs. unfold np_sum_values in *.
  apply bind_Ok in Hs as (rows & Hrows & Hs).
  apply np_sum_all_Ok in Hs as [[n Hn] ->].
  apply bind_Ok. exists (map (map (fun a => (a * f)%Qc)) rows). split.
  - clear Hn. revert rows Hrows.
    induction Hxs as [|v x vs xs Hx _ IH]; intros rows Hrows.
    + by injection Hrows as <-.
    + csimpl in Hrows. apply bind_Ok in Hrows as (row & Hrow & Hrows).
      apply bind_Ok in Hrows as (rows' & Hrows' & Hrows). injection Hrows as <-.
      specialize (IH rows' Hrows').
      destruct v as [|a|a|ys]; simpl in Hx, Hrow; try done;
        injection Hx as <-; injection Hrow as <-; csimpl;
        by rewrite IH.
  - rewrite <- Qsum_concat_scaled. apply (np_sum_all_uniform n).
    unfold uniform in *. apply Forall_forall. intros r Hr.
    apply list_elem_of_fmap in Hr as (r0 & -> & Hr0).
    rewrite length_map. by eapply Forall_forall in Hn.
Qed.

Lemma balance_group_Ok (self other : DVector) d segment_group d' :
  DVec.balance_group self other d segment_group = Ok d' ->
  exists xs, balance_group_writes self other segment_group xs
             /\ length xs = length segment_group
             /\ d' = dict_update d (zip segment_group xs).
Proof.
  unfold DVec.balance_group. intros Hd.
  apply bind_Ok in Hd as (pairs & Hpairs & Hd).
  apply bind_Ok in Hd as (o & Ho & Hd). apply bind_Ok in Hd as (s & Hs & Hd).
  pose proof (mapR_Ok_length _ _ _ Hpairs) as Hlen.
  apply for_set_Ok in Hd as (xs & Hxs & ->).
  assert (length segment_group = length pairs.*1) as Hlen1
    by by rewrite length_fmap.
  rewrite fst_zip in * by lia.
  rewrite (mapR_zip_snd (fun v => value_mul_npfloat
                                    v (np_true_divide (Finite o) (Finite s)))) in Hxs
    by done.
  pose proof (mapR_Ok_length _ _ _ Hxs) as Hlenx. rewrite length_fmap in Hlenx.
  apply mapR_Ok in Hpairs, Hxs.
  exists xs. split; [|split; [lia|done]].
  exists pairs, o, s. split_and!; [done..| | |].
  - by apply Forall2_fmap_l in Hxs.
  - intros Hnz. rewrite np_true_divide_finite in Hxs by done.
    etrans; [eapply np_sum_values_scaled; [exact Hxs|exact Hs]|].
    f_equal. by field.
  - intros ->. apply Forall_forall. intros x Hx.
    apply list_elem_of_lookup in Hx as [i Hi].
    destruct (Forall2_lookup_r _ _ _ _ _ Hxs Hi) as (a & _ & Ha).
    eapply value_mul_npfloat_not_finite; [|exact Ha].
    intros q. apply np_true_divide_by_zero.
Qed.

(** X21.  Balancing with the weekday/weekend option.  When the call
    returns a vector (no segment being listed in two groups), the vector
    is on the segmentation of [other], and for every weekday group and
    every weekend group: the values of [self] and [other] were infilled
    entry by entry, and every segment of the group holds the infilled
    value of [self] times one and the same quotient of the two totals of
    the group.  The quotient is taken without a check.  When the total of
    the infilled values of [self] over the group is not zero, the values
    of the group add up to the total of the infilled values of [other]
    over the group; when it is zero (an empty group, whose quotient 0 / 0
    is never used, or arrays of length zero) the group holds arrays of
    length zero only. *)
Theorem balance_at_segments_weekday_weekend `{!Oracles} (self other r : DVector) :
  NoDup (concat (get_grouped_weekday_segments (segmentation self)
                 ++ get_grouped_weekend_segments (segmentation self))) ->
  DVec.balance_at_segments self other true = Ok r ->
  segmentation r = segmentation other
  /\ forall segment_group,
       segment_group ∈ get_grouped_weekday_segments (segmentation self)
                       ++ get_grouped_weekend_segments (segmentation self) ->
       exists xs,
         balance_group_writes self other segment_group xs
         /\ Forall2 (fun segment x => dict_get segment (_data r) = Some x)
                    segment_group xs.
Proof.
  intros Hnd Hr. unfold DVec.balance_at_segments in Hr.
  destruct (decide _) as [|_]; [done|].
  apply bind_Ok in Hr as (dd & Hdd & Hr).
  apply new_Ok in Hr as (_ & Hseg & _ & Hdata & _).
  apply dict_to_dvec_Ok in Hdata as (Hdata & _).
  split; [done|]. intros segment_group Hgroup.
  set (groups := get_grouped_weekday_segments (segmentation self)
                 ++ get_grouped_weekend_segments (segmentation self)) in *.
  assert (foldM (DVec.balance_group self other)
            (dict_fromkeys (segment_names (segmentation self)) PyNone) groups = Ok dd)
    as Hloop.
  { unfold groups. rewrite foldM_app. cbn [foldM] in Hdd.
    apply bind_Ok in Hdd as (d1 & Hd1 & Hdd). rewrite Hd1, bind_Ok_l.
    by apply bind_Ok in Hdd as (d2 & -> & [= <-]). }
  destruct (write_loop_Ok (DVec.balance_group self other) id
              (balance_group_writes self other) (balance_group_Ok self other)
              _ _ _ Hloop) as (xss & Hxss & ->).
  rewrite <- (list_fmap_id groups) in Hnd.
  destruct (write_loop_get id _ _ _
              (dict_fromkeys (segment_names (segmentation self)) PyNone)
              segment_group Hxss Hnd Hgroup) as (xs & Hxs & Hlen & Hget).
  exists xs. split; [done|]. cbn [id] in *.
  apply Forall2_same_length_lookup. split; [done|].
  intros i segment x Hsegment Hx. rewrite Hdata, dict_get_app.
  rewrite (Hget segment x); [done|].
  apply list_elem_of_lookup. exists i. by apply lookup_zip_Some.
Qed.

Lemma balance_at_segments_weekday_weekend_witness :
  exists r,
    @DVec.balance_at_segments Examples.oracles Examples.week_wk Examples.target_wk true
    = Ok r
    /\ segmentation r = Examples.seg_wk
    /\ forall segment_group,
         segment_group ∈ [["1"; "2"]] ++ [[]] ->
         exists xs,
           balance_group_writes Examples.week_wk Examples.target_wk segment_group xs
           /\ Forall2 (fun segment x => dict_get segment (_data r) = Some x)
                      segment_group xs.
Proof.
  destruct (@DVec.balance_at_segments Examples.oracles Examples.week_wk
              Examples.target_wk true)
    as [r|e] eqn:Hr; [|vm_compute in Hr; discriminate Hr].
  exists r. split; [reflexivity|].
  apply (@balance_at_segments_weekday_weekend Examples.oracles Examples.week_wk
           Examples.target_wk r).
  - apply (bool_decide_unpack _). vm_compute. exact I.
  - exact Hr.
Defined.

(** ** The tabular path *)

Lemma remove_dups_length_le {A} `{EqDecision A} (l : list A) :
  (length (remove_dups l) <= length l)%nat.
Proof.
  induction l as [|x l IH]; csimpl; [done|].
  destruct (decide_rel elem_of x l); csimpl; lia.
Qed.

Lemma mapR_Raise {A B} (f : A -> res B) (l : list A) (e : exn) :
  mapR f l = Raise e -> exists x, x ∈ l /\ f x = Raise e.
Proof.
  induction l as [|x l IH]; csimpl; [done|].
  destruct (f x) as [y|e'] eqn:Hx; csimpl.
  - destruct (mapR f l) as [k|e'] eqn:Hl; csimpl; [done|]. intros [= ->].
    destruct (IH eq_refl) as (x' & Hx' & Hraise). exists x'. split; [by constructor|done].
  - intros [= ->]. exists x. split; [constructor|done].
Qed.

Lemma has_repeats_NoDup {A} `{EqDecision A} (l : list A) :
  DVec.has_repeats l = false <-> NoDup l.
Proof.
  unfold DVec.has_repeats. rewrite negb_false_iff, bool_decide_eq_true.
  induction l as [|x l IH]; cbn [remove_dups length].
  - split; [constructor|done].
  - destruct (decide_rel elem_of x l) as [Hin|Hout]; cbn [length].
    + split.
      * intros Hlen. pose proof (remove_dups_length_le l) as Hle. lia.
      * intros [? _]%NoDup_cons. done.
    + split.
      * intros [= Hlen]. apply NoDup_cons. split; [done|]. by apply IH.
      * intros [_ Hnd]%NoDup_cons. f_equal. by apply IH.
Qed.

Lemma elem_of_unique {A} `{EqDecision A} (l : list A) (x : A) :
  x ∈ DVec.unique l <-> x ∈ l.
Proof.
  induction l as [|y l IH]; csimpl; [done|].
  rewrite !elem_of_cons, list_elem_of_filter, IH.
  destruct (decide (x = y)); tauto.
Qed.

Lemma dict_fromkeys_keys_NoDup {V} (ks : list string) (v : V) :
  NoDup (dict_keys (dict_fromkeys ks v)).
Proof.
  unfold dict_fromkeys.
  assert (forall d : dict string V, NoDup (dict_keys d) ->
            NoDup (dict_keys (foldl (fun d k => dict_set k v d) d ks))) as Hgen.
  { induction ks as [|k ks IH]; intros d Hd; [done|]. csimpl.
    by apply IH, dict_set_NoDup. }
  apply Hgen. constructor.
Qed.

(* no two rows of a table share segment and zone exactly when, segment by
   segment, no two rows share their zone *)
Lemma rows_NoDup_by_segment (df : list DVec.df_row) :
  NoDup ((fun r => (DVec.row_segment r, DVec.row_zone r)) <$> df)
  <-> forall segment,
        NoDup (DVec.row_zone <$> filter (fun r => DVec.row_segment r = segment) df).
Proof.
  induction df as [|r df IH]; csimpl.
  - split; [intros _ segment; constructor|intros _; constructor].
  - rewrite NoDup_cons, IH. split.
    + intros [Hr Hdf] segment. rewrite filter_cons.
      destruct (decide (DVec.row_segment r = segment)) as [<-|Hne]; [|apply Hdf].
      csimpl. apply NoDup_cons. split; [|apply Hdf].
      intros Hin. apply Hr. apply list_elem_of_fmap in Hin as (r' & Hz & Hr').
      apply list_elem_of_filter in Hr' as [Hs Hr'].
      apply list_elem_of_fmap. exists r'. split; [|done]. by rewrite Hs, Hz.
    + intros Hall. split.
      * intros Hin. apply list_elem_of_fmap in Hin as (r' & [= Hs Hz] & Hr').
        specialize (Hall (DVec.row_segment r)). rewrite filter_cons in Hall.
        rewrite decide_True in Hall by done. csimpl in Hall.
        apply NoDup_cons in Hall as [Hall _]. apply Hall.
        apply list_elem_of_fmap. exists r'. split; [done|].
        by apply list_elem_of_filter.
      * intros segment. specialize (Hall segment). rewrite filter_cons in Hall.
        destruct (decide (DVec.row_segment r = segment)); [|done].
        csimpl in Hall. by apply NoDup_cons in Hall as [_ ?].
Qed.

(* when the conversion of one segment succeeds, and what it returns *)
Lemma segment_array_Ok zoning seg df_chunk segment x :
  DVec.segment_array zoning seg df_chunk segment = Ok x <->
  segment ∈ segment_names seg
  /\ NoDup (DVec.row_zone <$> filter (fun r => DVec.row_segment r = segment) df_chunk)
  /\ (forall r, r ∈ df_chunk -> DVec.row_segment r = segment ->
                DVec.row_zone r ∈ unique_zones zoning)
  /\ x = NpArr ((fun z => default (Q2Qc 0)
                            (dict_get z ((fun r => (DVec.row_zone r, DVec.row_val r))
                                           <$> filter (fun r => DVec.row_segment r = segment)
                                                      df_chunk)))
                  <$> unique_zones zoning).
Proof.
  unfold DVec.segment_array.
  set (seg_data := filter (fun r => DVec.row_segment r = segment) df_chunk).
  assert (filter (fun z => z ∉ unique_zones zoning)
                 (remove_dups (DVec.row_zone <$> seg_data)) = []
          <-> forall r, r ∈ df_chunk -> DVec.row_segment r = segment ->
                        DVec.row_zone r ∈ unique_zones zoning) as Hextra.
  { split.
    - intros Hnil r Hr Hs.
      destruct (decide (DVec.row_zone r ∈ unique_zones zoning)) as [|Hout]; [done|].
      assert (DVec.row_zone r ∈ filter (fun z => z ∉ unique_zones zoning)
                                       (remove_dups (DVec.row_zone <$> seg_data))) as Hin.
      { apply list_elem_of_filter. split; [done|]. apply elem_of_remove_dups.
        apply list_elem_of_fmap. exists r. split; [done|].
        by apply list_elem_of_filter. }
      rewrite Hnil in Hin. by apply elem_of_nil in Hin.
    - intros Hall.
      destruct (filter (fun z => z ∉ unique_zones zoning) _) as [|z zs] eqn:Hf; [done|].
      assert (z ∈ z :: zs) as Hz by constructor. rewrite <- Hf in Hz.
      apply list_elem_of_filter in Hz as [Hout Hz]. rewrite elem_of_remove_dups in Hz.
      apply list_elem_of_fmap in Hz as (r & -> & Hr).
      apply list_elem_of_filter in Hr as [Hs Hr]. exfalso. by apply Hout, Hall. }
  destruct (decide (segment ∈ segment_names seg)) as [Hin|Hout];
    [rewrite bool_decide_eq_false_2 by tauto
    |rewrite bool_decide_eq_true_2 by done; split; [done|tauto]].
  destruct (DVec.has_repeats (DVec.row_zone <$> seg_data)) eqn:Hrep.
  - split; [done|]. intros (_ & Hnd%has_repeats_NoDup & _). congruence.
  - apply has_repeats_NoDup in Hrep.
    destruct (filter (fun z => z ∉ unique_zones zoning) _) as [|z zs] eqn:Hf.
    + split.
      * intros [= <-]. split_and!; [done..|by apply Hextra|done].
      * by intros (_ & _ & _ & ->).
    + split; [done|]. intros (_ & _ & Hknown%Hextra & _). done.
Qed.

Lemma segment_array_raises zoning seg df_chunk segment e :
  DVec.segment_array zoning seg df_chunk segment = Raise e -> e = ValueError.
Proof.
  unfold DVec.segment_array. destruct (bool_decide _); [by intros [= <-]|].
  destruct (DVec.has_repeats _); [by intros [= <-]|].
  destruct (filter (fun z => z ∉ unique_zones zoning) _); [done|by intros [= <-]].
Qed.

(* the dictionary the conversion of a chunk returns, for a zoning system *)
Lemma tabular_chunk_zoned_Ok (zoning : ZoningSystem) (seg : SegmentationLevel)
    (df_chunk : list DVec.df_row) (d : dict string value) :
  DVec._dataframe_to_dvec_internal (Some zoning) seg df_chunk = Ok d ->
  (forall r, r ∈ df_chunk ->
     DVec.row_segment r ∈ segment_names seg
     /\ DVec.row_zone r ∈ unique_zones zoning)
  /\ NoDup ((fun r => (DVec.row_segment r, DVec.row_zone r)) <$> df_chunk)
  /\ NoDup (dict_keys d)
  /\ (forall k, k ∈ dict_keys d <-> k ∈ DVec.row_segment <$> df_chunk)
  /\ forall segment, segment ∈ DVec.row_segment <$> df_chunk ->
       exists xs,
         dict_get segment d = Some (NpArr xs)
         /\ length xs = n_zones zoning
         /\ forall i zone, unique_zones zoning !! i = Some zone ->
              exists x,
                xs !! i = Some x
                /\ ((exists r, r ∈ df_chunk /\ DVec.row_segment r = segment
                               /\ DVec.row_zone r = zone /\ DVec.row_val r = x)
                    \/ ((forall r, r ∈ df_chunk -> DVec.row_segment r = segment ->
                                   DVec.row_zone r <> zone)
                        /\ x = Q2Qc 0)).
Proof.
  intros Hd. cbn [DVec._dataframe_to_dvec_internal] in Hd.
  set (segments := DVec.row_segment <$> df_chunk) in *.
  assert (forall segment, segment ∈ segments ->
            exists x, DVec.segment_array zoning seg df_chunk segment = Ok x
                      /\ dict_get segment d = Some x) as Hget.
  { intros segment Hsegment. eapply for_set_id_get; [exact Hd|].
    by apply elem_of_unique. }
  assert (dict_keys d = dict_keys (dict_fromkeys segments PyNone)) as Hkeys.
  { eapply for_set_keys_within; [|exact Hd]. intros k Hk. cbn.
    by apply elem_of_dict_fromkeys, elem_of_unique. }
  split_and!.
  - intros r Hr.
    destruct (Hget (DVec.row_segment r)) as (x & Hx & _).
    { apply list_elem_of_fmap. by exists r. }
    apply segment_array_Ok in Hx as (Hin & _ & Hknown & _). split; [done|].
    by apply Hknown.
  - apply rows_NoDup_by_segment. intros segment.
    destruct (decide (segment ∈ segments)) as [Hin|Hout].
    + destruct (Hget segment Hin) as (x & Hx & _).
      by apply segment_array_Ok in Hx as (_ & Hnd & _).
    + assert (filter (fun r => DVec.row_segment r = segment) df_chunk = []) as ->;
        [|constructor].
      destruct (filter _ df_chunk) as [|r rs] eqn:Hf; [done|].
      assert (r ∈ r :: rs) as Hr by constructor. rewrite <- Hf in Hr.
      apply list_elem_of_filter in Hr as [Hs Hr]. exfalso. apply Hout.
      apply list_elem_of_fmap. by exists r.
  - rewrite Hkeys. apply dict_fromkeys_keys_NoDup.
  - intros k. by rewrite Hkeys, elem_of_dict_fromkeys.
  - intros segment Hsegment. destruct (Hget segment Hsegment) as (x & Hx & Hgetx).
    apply segment_array_Ok in Hx as (_ & Hnd & _ & ->).
    eexists. split; [exact Hgetx|]. split; [by rewrite length_fmap|].
    intros i zone Hzone. rewrite list_lookup_fmap, Hzone. csimpl.
    eexists. split; [done|].
    set (seg_data := filter (fun r => DVec.row_segment r = segment) df_chunk) in *.
    destruct (dict_get zone ((fun r => (DVec.row_zone r, DVec.row_val r)) <$> seg_data))
      as [x|] eqn:Hcell.
    + left. apply dict_get_Some_elem in Hcell.
      apply list_elem_of_fmap in Hcell as (r & [= -> ->] & Hr).
      apply list_elem_of_filter in Hr as [Hs Hr]. by exists r.
    + right. split; [|done]. intros r Hr Hs Hz.
      apply dict_get_None in Hcell. apply Hcell.
      unfold dict_keys. rewrite <- list_fmap_compose.
      apply list_elem_of_fmap. exists r. split; [done|].
      by apply list_elem_of_filter.
Qed.

(** X22.  A chunk of a table with zones.  When the conversion of a
    chunk returns a dictionary, every row of the chunk has a segment name
    of the segmentation and a zone of the zoning system, no two rows
    share segment and zone, the keys of the dictionary are the segments
    of the chunk, each once, and every segment holds an array with one
    entry per zone of the zoning system, in the order of the zoning
    system: the value of the row of that segment and zone, or zero when
    there is no such row. *)
Theorem tabular_chunk_with_zones (zoning : ZoningSystem) (seg : SegmentationLevel)
    (df_chunk : list DVec.df_row) (d : dict string value) :
  DVec._dataframe_to_dvec_internal (Some zoning) seg df_chunk = Ok d ->
  (forall r, r ∈ df_chunk ->
     DVec.row_segment r ∈ segment_names seg
     /\ DVec.row_zone r ∈ unique_zones zoning)
  /\ NoDup ((fun r => (DVec.row_segment r, DVec.row_zone r)) <$> df_chunk)
  /\ NoDup (dict_keys d)
  /\ (forall k, k ∈ dict_keys d <-> k ∈ DVec.row_segment <$> df_chunk)
  /\ forall segment, segment ∈ DVec.row_segment <$> df_chunk ->
       exists xs,
         dict_get segment d = Some (NpArr xs)
         /\ length xs = n_zones zoning
         /\ forall i zone, unique_zones zoning !! i = Some zone ->
              exists x,
                xs !! i = Some x
                /\ ((exists r, r ∈ df_chunk /\ DVec.row_segment r = segment
                               /\ DVec.row_zone r = zone /\ DVec.row_val r = x)
                    \/ ((forall r, r ∈ df_chunk -> DVec.row_segment r = segment ->
                                   DVec.row_zone r <> zone)
                        /\ x = Q2Qc 0)).
Proof. apply tabular_chunk_zoned_Ok. Qed.

Lemma tabular_chunk_with_zones_witness :
  exists d,
    DVec._dataframe_to_dvec_internal (Some Examples.zone2) Examples.seg_p
      Examples.pop_table = Ok d
    /\ (forall r, r ∈ Examples.pop_table ->
          DVec.row_segment r ∈ segment_names Examples.seg_p
          /\ DVec.row_zone r ∈ unique_zones Examples.zone2)
    /\ NoDup ((fun r => (DVec.row_segment r, DVec.row_zone r)) <$> Examples.pop_table)
    /\ NoDup (dict_keys d)
    /\ (forall k, k ∈ dict_keys d <-> k ∈ DVec.row_segment <$> Examples.pop_table)
    /\ forall segment, segment ∈ DVec.row_segment <$> Examples.pop_table ->
         exists xs,
           dict_get segment d = Some (NpArr xs)
           /\ length xs = n_zones Examples.zone2
           /\ forall i zone, unique_zones Examples.zone2 !! i = Some zone ->
                exists x,
                  xs !! i = Some x
                  /\ ((exists r, r ∈ Examples.pop_table /\ DVec.row_segment r = segment
                                 /\ DVec.row_zone r = zone /\ DVec.row_val r = x)
                      \/ ((forall r, r ∈ Examples.pop_table ->
                                     DVec.row_segment r = segment ->
                                     DVec.row_zone r <> zone)
                          /\ x = Q2Qc 0)).
Proof.
  destruct (DVec._dataframe_to_dvec_internal (Some Examples.zone2) Examples.seg_p
              Examples.pop_table) as [d|e] eqn:Hd; [|vm_compute in Hd; discriminate Hd].
  exists d. split; [reflexivity|].
  apply (tabular_chunk_with_zones Examples.zone2 Examples.seg_p Examples.pop_table d).
  exact Hd.
Defined.

(** X23.  Which chunks of a table with zones are accepted.  The
    conversion of a chunk returns a dictionary exactly when every row has
    a segment name of the segmentation and a zone of the zoning system
    and no two rows share segment and zone; every other chunk is refused
    with ValueError. *)
Theorem tabular_chunk_with_zones_accepted (zoning : ZoningSystem)
    (seg : SegmentationLevel) (df_chunk : list DVec.df_row) :
  match DVec._dataframe_to_dvec_internal (Some zoning) seg df_chunk with
  | Ok _ =>
      (forall r, r ∈ df_chunk ->
         DVec.row_segment r ∈ segment_names seg
         /\ DVec.row_zone r ∈ unique_zones zoning)
      /\ NoDup ((fun r => (DVec.row_segment r, DVec.row_zone r)) <$> df_chunk)
  | Raise e =>
      e = ValueError
      /\ ~ ((forall r, r ∈ df_chunk ->
               DVec.row_segment r ∈ segment_names seg
               /\ DVec.row_zone r ∈ unique_zones zoning)
            /\ NoDup ((fun r => (DVec.row_segment r, DVec.row_zone r)) <$> df_chunk))
  end.
Proof.
  destruct (DVec._dataframe_to_dvec_internal (Some zoning) seg df_chunk)
    as [d|e] eqn:Hd.
  - by apply tabular_chunk_zoned_Ok in Hd as (? & ? & _).
  - cbn [DVec._dataframe_to_dvec_internal] in Hd. rewrite for_set_run in Hd.
    destruct (mapR _ _) as [vs|e'] eqn:Hvs; [done|]. injection Hd as ->.
    apply mapR_Raise in Hvs as (segment & Hsegment & Hraise).
    rewrite elem_of_unique in Hsegment.
    split; [by eapply segment_array_raises|]. intros [Hrows Hnd].
    assert (is_Ok (DVec.segment_array zoning seg df_chunk segment)) as [x Hx];
      [|congruence].
    eexists. apply segment_array_Ok. split_and!; [| | |done].
    + apply list_elem_of_fmap in Hsegment as (r & -> & Hr). by apply Hrows.
    + by apply rows_NoDup_by_segment.
    + intros r Hr _. by apply Hrows.
Qed.

(** X24.  A chunk of a table without zones.  The conversion returns a
    dictionary exactly when no segment name is repeated, and then the
    dictionary binds the segment of every row, in the order of the rows,
    to the value of the row as a Python number; a repeated segment name
    is refused with ValueError.  The segment names are not compared with
    those of the segmentation here. *)
Theorem tabular_chunk_without_zones (seg : SegmentationLevel)
    (df_chunk : list DVec.df_row) :
  match DVec._dataframe_to_dvec_internal None seg df_chunk with
  | Ok d =>
      NoDup (DVec.row_segment <$> df_chunk)
      /\ d = (fun r => (DVec.row_segment r, PyNum (DVec.row_val r))) <$> df_chunk
  | Raise e =>
      e = ValueError /\ ~ NoDup (DVec.row_segment <$> df_chunk)
  end.
Proof.
  cbn [DVec._dataframe_to_dvec_internal].
  destruct (DVec.has_repeats (DVec.row_segment <$> df_chunk)) eqn:Hrep.
  - split; [done|]. intros Hnd%has_repeats_NoDup. congruence.
  - apply has_repeats_NoDup in Hrep. split; [done|].
    unfold dict_of_pairs. rewrite (dict_update_fresh []).
    + cbn [app]. clear Hrep.
      induction df_chunk as [|r df IH]; csimpl; [done|]. by rewrite IH.
    + rewrite dict_keys_zip by by rewrite !length_fmap. done.
    + intros k _. apply not_elem_of_nil.
Qed.

(** X25.  The chunks of the tabular path.  For a table with at least
    one row, a process count that is not negative and a positive
    DataFrame chunk size, the sorted table is cut into chunks that, put
    end to end, are the table again, none of them empty, and the result
    is the list of their conversions, in order.  An empty table with a
    positive process count is not converted at all: the chunk size comes
    out as zero and the call raises ZeroDivisionError. *)
Theorem tabular_chunks (zoning : option ZoningSystem) (seg : SegmentationLevel)
    (_df_chunk_size process_count : Z) (df : list DVec.df_row) :
  0 < _df_chunk_size ->
  0 <= process_count ->
  (df <> [] ->
   exists df_chunks,
     concat df_chunks = df
     /\ Forall (fun df_chunk => df_chunk <> []) df_chunks
     /\ DVec._dataframe_to_dvec_chunks zoning seg _df_chunk_size process_count df
        = mapR (DVec._dataframe_to_dvec_internal zoning seg) df_chunks)
  /\ (df = [] -> 0 < process_count ->
      DVec._dataframe_to_dvec_chunks zoning seg _df_chunk_size process_count df
      = Raise ZeroDivisionError).
Proof.
  intros Hsize Hpc. unfold DVec._dataframe_to_dvec_chunks. split.
  - intros Hne.
    assert (0 < Z.of_nat (length df)) as Hlen by (destruct df; [done|cbn; lia]).
    assert (exists chunk_size,
              (if decide (Z.of_nat (length df) < _df_chunk_size * process_count)
               then ceil_div (Z.of_nat (length df)) process_count
               else Ok _df_chunk_size) = Ok chunk_size /\ 0 < chunk_size)
      as (chunk_size & -> & Hpos).
    { destruct (decide _) as [Hsmall|_]; [|by exists _df_chunk_size].
      assert (0 < process_count) as Hpc' by nia.
      destruct (ceil_div (Z.of_nat (length df)) process_count) as [c|e] eqn:Hc.
      - exists c. split; [done|]. eapply ceil_div_pos; [exact Hlen|exact Hpc'|exact Hc].
      - unfold ceil_div in Hc. destruct (decide (process_count = 0)); [lia|done]. }
    rewrite bind_Ok_l.
    destruct (chunk_df_cut df chunk_size Hpos)
      as (df_chunks & Hchunks & Hconcat & Hcount & Hsizes & _).
    rewrite Hcount, bind_Ok_l, Hchunks, bind_Ok_l.
    exists df_chunks. split_and!; [done| |done].
    apply Forall_forall. intros df_chunk Hin.
    apply list_elem_of_lookup in Hin as [i Hi].
    destruct (Hsizes i df_chunk Hi) as [Hnonempty _].
    destruct df_chunk; [cbn in Hnonempty; lia|done].
  - intros -> Hpc'. cbn [length]. change (Z.of_nat 0) with 0.
    destruct (decide (0 < _df_chunk_size * process_count)) as [_|Hge]; [|nia].
    assert (ceil_div 0 process_count = Ok 0) as ->.
    { unfold ceil_div. rewrite decide_False by lia. cbn [Z.opp].
      by rewrite Z.div_0_l by lia. }
    rewrite bind_Ok_l. unfold ceil_div. by rewrite decide_True.
Qed.

Lemma tabular_chunks_witness :
  (Examples.pop_table <> [] ->
   exists df_chunks,
     concat df_chunks = Examples.pop_table
     /\ Forall (fun df_chunk => df_chunk <> []) df_chunks
     /\ DVec._dataframe_to_dvec_chunks (Some Examples.zone2) Examples.seg_p 100000 2
          Examples.pop_table
        = mapR (DVec._dataframe_to_dvec_internal (Some Examples.zone2) Examples.seg_p)
               df_chunks)
  /\ (Examples.pop_table = [] -> 0 < 2 ->
      DVec._dataframe_to_dvec_chunks (Some Examples.zone2) Examples.seg_p 100000 2
        Examples.pop_table
      = Raise ZeroDivisionError).
Proof.
  apply (tabular_chunks (Some Examples.zone2) Examples.seg_p 100000 2
           Examples.pop_table); lia.
Defined.

(** ** Joined columns *)

Lemma string_app_assoc (a b c : string) : (a +:+ b) +:+ c = a +:+ (b +:+ c).
Proof.
  induction a as [|x a' IH]; [done|].
  change (String x ((a' +:+ b) +:+ c) = String x (a' +:+ (b +:+ c))). by rewrite IH.
Qed.

Lemma concat_app_head (sep x y : string) (cells : list string) :
  String.concat sep ((x +:+ y) :: cells) = x +:+ String.concat sep (y :: cells).
Proof. destruct cells as [|c cells]; simpl; [done|]. apply string_app_assoc. Qed.

(* joining from the left, as reduce does, is str.join *)
Lemma concat_fold_left (sep a : string) (cells : list string) :
  fold_left (fun acc c => (acc +:+ sep) +:+ c) cells a = String.concat sep (a :: cells).
Proof.
  revert a. induction cells as [|c cells IH]; intros a; [done|].
  cbn [fold_left]. rewrite IH, concat_app_head.
  change (String.concat sep (a :: c :: cells))
    with (a +:+ (sep +:+ String.concat sep (c :: cells))).
  apply string_app_assoc.
Qed.

(* the cell that reduce leaves in a row *)
Lemma reduced_columns (sep : string) (rest : list (list string)) (first : list string)
    (n i : nat) (a : string) (cells : list string) :
  length first = n -> Forall (fun col => length col = n) rest ->
  first !! i = Some a -> Forall2 (fun col cell => col !! i = Some cell) rest cells ->
  foldl (fun acc item => zip_with (fun a i => (a +:+ sep) +:+ i) acc item)
        first rest !! i
  = Some (fold_left (fun acc c => (acc +:+ sep) +:+ c) cells a).
Proof.
  intros Hfirst Hrest. revert first a cells Hfirst.
  induction Hrest as [|col rest Hcol _ IH]; intros first a cells Hfirst Ha Hcells.
  - inversion Hcells. done.
  - inversion Hcells as [|? cell ? cells' Hcell Hcells']; subst. cbn [foldl fold_left].
    apply IH; [|by rewrite lookup_zip_with, Ha, Hcell|done].
    rewrite length_zip_with. lia.
Qed.

Lemma reduced_columns_length (sep : string) (rest : list (list string))
    (first : list string) (n : nat) :
  length first = n -> Forall (fun col => length col = n) rest ->
  length (foldl (fun acc item => zip_with (fun a i => (a +:+ sep) +:+ i) acc item)
                first rest) = n.
Proof.
  intros Hfirst Hrest. revert first Hfirst.
  induction Hrest as [|col rest Hcol _ IH]; intros first Hfirst; [done|].
  cbn [foldl]. apply IH. rewrite length_zip_with. lia.
Qed.

(** X26.  [str_join_cols] is str.join, row by row.  On a table whose
    columns all have the same number of rows, a call that returns gives
    one string per row, and the string of a row is its cells in the named
    columns, in the order in which the columns were named, joined by the
    separator.  Naming no column at all raises TypeError, and naming a
    column the table does not have raises KeyError. *)
Theorem str_join_cols_joins (df : dict string (list string)) (columns : list string)
    (separator : string) (n : nat) :
  Forall (fun col => length col.2 = n) df ->
  match str_join_cols df columns separator with
  | Ok joined =>
      columns <> []
      /\ length joined = n
      /\ forall i cells,
           Forall2 (fun c cell => exists col, dict_get c df = Some col
                                              /\ col !! i = Some cell) columns cells ->
           joined !! i = Some (String.concat separator cells)
  | Raise e =>
      (e = TypeError /\ columns = [])
      \/ (e = KeyError /\ exists c, c ∈ columns /\ dict_get c df = None)
  end.
Proof.
  intros Hdf. unfold str_join_cols.
  destruct (mapR (fun x => dict_getitem x df) columns) as [join_cols|e] eqn:Hcols.
  - rewrite bind_Ok_l. apply mapR_Ok in Hcols.
    destruct Hcols as [|c first columns rest Hfirst Hrest]; [left; done|].
    assert (forall c col, dict_get c df = Some col -> length col = n) as Hlen.
    { intros c' col Hget. apply dict_get_Some_elem in Hget.
      by eapply Forall_forall in Hdf; [|exact Hget]. }
    apply dict_getitem_Ok in Hfirst.
    assert (Forall (fun col => length col = n) rest) as Hrest_len.
    { clear -Hrest Hlen. induction Hrest as [|c' col cs cols Hc _ IH]; constructor; [|done].
      apply dict_getitem_Ok in Hc. by eapply Hlen. }
    split_and!; [done|apply reduced_columns_length; [by eapply Hlen|done]| ].
    intros i cells Hcells.
    inversion Hcells as [|? a ? cells' (col & Hcol & Ha) Hcells']; subst.
    rewrite Hfirst in Hcol. injection Hcol as <-.
    rewrite <- concat_fold_left.
    eapply reduced_columns; [by eapply Hlen|done|done|].
    clear -Hrest Hcells'. revert cells' Hcells'.
    induction Hrest as [|c' col cs cols Hc _ IH]; intros cells' Hcells'.
    + inversion Hcells'. constructor.
    + inversion Hcells' as [|? cell ? cells'' (col' & Hcol' & Hcell) Hrest']; subst.
      apply dict_getitem_Ok in Hc. rewrite Hc in Hcol'. injection Hcol' as <-.
      constructor; [done|by apply IH].
  - csimpl. right. apply mapR_Raise in Hcols as (c & Hc & Hraise).
    unfold dict_getitem in Hraise. destruct (dict_get c df) eqn:Hget; [done|].
    injection Hraise as <-. split; [done|]. by exists c.
Qed.

Lemma str_join_cols_joins_witness :
  match str_join_cols [("p", ["1"; "2"]); ("m", ["a"; "b"])] ["p"; "m"] "_" with
  | Ok joined =>
      ["p"; "m"] <> []
      /\ length joined = 2%nat
      /\ forall i cells,
           Forall2 (fun c cell =>
                      exists col, dict_get c [("p", ["1"; "2"]); ("m", ["a"; "b"])] = Some col
                                  /\ col !! i = Some cell) ["p"; "m"] cells ->
           joined !! i = Some (String.concat "_" cells)
  | Raise e =>
      (e = TypeError /\ ["p"; "m"] = [])
      \/ (e = KeyError
          /\ exists c, c ∈ ["p"; "m"]
                       /\ dict_get c [("p", ["1"; "2"]); ("m", ["a"; "b"])] = None)
  end.
Proof.
  apply (str_join_cols_joins [("p", ["1"; "2"]); ("m", ["a"; "b"])] ["p"; "m"] "_" 2).
  repeat constructor.
Defined.
